(** * crawler.js: capture-and-classify core of the WASM/JS crawler

    A shallow embedding of the crawler module (sanitizeFilename,
    guessExtFromContentType, isWasmByMagic, the URL heuristics,
    targetPathFor, the context-level response handler,
    processPendingResponses, the request router and the page-visit loop
    with navigateWithRetry), followed by the properties checked on it.

    Conventions of the embedding.
    - A JavaScript string is a [string]; its characters are the code units
      the program inspects.  Every pattern of the program is ASCII, and a
      regular expression without the [u] flag works per code unit, so a
      code unit outside ASCII only ever counts as "some other character".
    - A Buffer is a [list byte]; [body.toString('utf8')] keeps every ASCII
      byte as the same character, which is all the patterns look at.
    - [null]/[undefined] is [None]; JavaScript truthiness of an optional
      string is [truthy] (the empty string is falsy).
    - A command is a function from the session state to a new state and
      either a value or a thrown exception; [tryCatch] and [tryFinally] are
      the program's [try] blocks.
    - The handlers run between the steps of the main flow, at its awaits:
      the browser's script says which responses have their handler run while a
      page loads, while a drain awaits the body of its k-th entry, between the
      drain and the closing of the page, and after the last drain, while the
      context closes.  One invocation of a handler is one step, placed where
      its body read settles: the awaits inside a handler are not points at
      which something else runs, and a write ([saveBuffer]) is immediate.
    - The platform is a parameter: the URL parser, the clock and random
      source of the synthetic names, the file system's refusals and the
      browser's behaviour on each page and at the end.  [path.join],
      [path.extname] and the base64 decoder of [Buffer.from] are small enough
      to be written out (POSIX flavour of [path]), and so is the URL parser for
      the examples.
    - [console.error], the waits, the first line of a drain, the lines of
      the entries it drops and the creation of the output directory are
      recorded in the session's trace; the other [console.log] lines are left
      out.  [chromium.launch], [context.newPage], [page.waitForTimeout],
      [page.close], [context.close] and [browser.close] are taken not to
      throw. *)

From Stdlib Require Import Ascii String Init.Byte List Bool Arith Lia.
From stdpp Require Import gmap strings.
Import ListNotations.

Local Open Scope bool_scope.
Local Open Scope list_scope.

(** ** JavaScript strings *)

Module Js.

Definition chars (s : string) : list ascii := list_ascii_of_string s.
Definition str (l : list ascii) : string := string_of_list_ascii l.

Definition code (c : ascii) : nat := nat_of_ascii c.

Definition between (lo hi : nat) (c : ascii) : bool :=
  (lo <=? code c) && (code c <=? hi).

Definition isUpper (c : ascii) : bool := between 65 90 c.
Definition isLower (c : ascii) : bool := between 97 122 c.
Definition isDigit (c : ascii) : bool := between 48 57 c.

(** [String.prototype.toLowerCase], on the ASCII letters. *)
Definition lowerChar (c : ascii) : ascii :=
  if isUpper c then ascii_of_nat (code c + 32) else c.

Definition toLowerCase (s : string) : string := str (map lowerChar (chars s)).

(** [s.startsWith(p)] on character lists. *)
Fixpoint startsL (p s : list ascii) : bool :=
  match p, s with
  | [], _ => true
  | a :: p', b :: s' => Ascii.eqb a b && startsL p' s'
  | _ :: _, [] => false
  end.

(** [s.includes(p)] on character lists. *)
Fixpoint includesL (p s : list ascii) : bool :=
  startsL p s ||
  match s with
  | [] => false
  | _ :: s' => includesL p s'
  end.

Definition startsWith (s p : string) : bool := startsL (chars p) (chars s).
Definition includes (s p : string) : bool := includesL (chars p) (chars s).
Definition endsWith (s p : string) : bool :=
  startsL (rev (chars p)) (rev (chars s)).

(** Truthiness of a value that is a string, [null] or [undefined]. *)
Definition truthy (o : option string) : bool :=
  match o with
  | Some s => negb (String.eqb s "")
  | None => false
  end.

(** [a || b] on such values. *)
Definition or_else (a b : option string) : option string :=
  if truthy a then a else b.

Definition eqOpt (o : option string) (s : string) : bool :=
  match o with
  | Some t => String.eqb t s
  | None => false
  end.

(** [ct && ct.toLowerCase().includes(p)]. *)
Definition lowerIncludes (ct : option string) (p : string) : bool :=
  match ct with
  | Some s => negb (String.eqb s "") && includes (toLowerCase s) p
  | None => false
  end.

(** A pattern [lit(?:\?|#|$)] tested anywhere in [s]. *)
Fixpoint litThenEnd (lit s : list ascii) : bool :=
  (startsL lit s &&
   match skipn (length lit) s with
   | [] => true
   | c :: _ => Ascii.eqb c "?" || Ascii.eqb c "#"
   end) ||
  match s with
  | [] => false
  | _ :: s' => litThenEnd lit s'
  end.

End Js.

(** ** Node's [path] module (POSIX flavour) *)

Module Path.

Definition slash : ascii := "/".
Definition dot : ascii := ".".

(** Splitting at every path separator. *)
Fixpoint split (s : list ascii) (cur : list ascii) : list (list ascii) :=
  match s with
  | [] => [rev cur]
  | c :: s' =>
      if Ascii.eqb c slash then rev cur :: split s' [] else split s' (c :: cur)
  end.

(** [normalizeString]: the stack of kept segments, innermost first. *)
Definition pushSegment (allowAboveRoot : bool)
    (stack : list (list ascii)) (seg : list ascii) : list (list ascii) :=
  match seg with
  | [] => stack
  | [d] => if Ascii.eqb d dot then stack else seg :: stack
  | [d1; d2] =>
      if Ascii.eqb d1 dot && Ascii.eqb d2 dot then
        match stack with
        | [] => if allowAboveRoot then [seg] else []
        | top :: rest =>
            if Js.startsL [dot; dot] top && (length top =? 2)
            then if allowAboveRoot then seg :: stack else stack
            else rest
        end
      else seg :: stack
  | _ => seg :: stack
  end.

Fixpoint joinSegments (segs : list (list ascii)) : list ascii :=
  match segs with
  | [] => []
  | [s] => s
  | s :: rest => s ++ slash :: joinSegments rest
  end.

Definition normalizeString (p : list ascii) (allowAboveRoot : bool) : list ascii :=
  joinSegments (rev (fold_left (pushSegment allowAboveRoot) (split p []) [])).

(** [path.normalize]. *)
Definition normalize (p : list ascii) : list ascii :=
  match p with
  | [] => [dot]
  | c :: _ =>
      let isAbsolute := Ascii.eqb c slash in
      let trailingSeparator := Js.startsL [slash] (rev p) in
      let q := normalizeString p (negb isAbsolute) in
      match q with
      | [] =>
          if isAbsolute then [slash]
          else if trailingSeparator then [dot; slash] else [dot]
      | _ =>
          let q' := if trailingSeparator then q ++ [slash] else q in
          if isAbsolute then slash :: q' else q'
      end
  end.

(** [path.join(...parts)]. *)
Definition join (parts : list string) : string :=
  let used := List.filter (fun p => negb (String.eqb p "")) parts in
  match used with
  | [] => "."
  | _ => Js.str (normalize (joinSegments (map Js.chars used)))
  end.

(** [path.extname], the right-to-left scan of the POSIX implementation. *)
Record ExtScan := {
  startDot : option nat;
  startPart : nat;
  endIx : option nat;
  matchedSlash : bool;
  preDotState : option bool;   (* None: 0, Some true: 1, Some false: -1 *)
  stopped : bool
}.

Definition extStep (st : ExtScan) (ic : nat * ascii) : ExtScan :=
  let '(i, c) := ic in
  if stopped st then st
  else if Ascii.eqb c slash then
    if negb (matchedSlash st)
    then {| startDot := startDot st; startPart := i + 1; endIx := endIx st;
            matchedSlash := matchedSlash st; preDotState := preDotState st;
            stopped := true |}
    else st
  else
    let st1 :=
      match endIx st with
      | None => {| startDot := startDot st; startPart := startPart st;
                   endIx := Some (i + 1); matchedSlash := false;
                   preDotState := preDotState st; stopped := false |}
      | Some _ => st
      end in
    if Ascii.eqb c dot then
      match startDot st1 with
      | None => {| startDot := Some i; startPart := startPart st1;
                   endIx := endIx st1; matchedSlash := matchedSlash st1;
                   preDotState := preDotState st1; stopped := false |}
      | Some _ => {| startDot := startDot st1; startPart := startPart st1;
                     endIx := endIx st1; matchedSlash := matchedSlash st1;
                     preDotState := Some true; stopped := false |}
      end
    else
      match startDot st1 with
      | Some _ => {| startDot := startDot st1; startPart := startPart st1;
                     endIx := endIx st1; matchedSlash := matchedSlash st1;
                     preDotState := Some false; stopped := false |}
      | None => st1
      end.

Fixpoint indexed (i : nat) (l : list ascii) : list (nat * ascii) :=
  match l with
  | [] => []
  | c :: l' => (i, c) :: indexed (S i) l'
  end.

Definition extname (p : string) : string :=
  let cs := Js.chars p in
  let st := fold_left extStep (rev (indexed 0 cs))
              {| startDot := None; startPart := 0; endIx := None;
                 matchedSlash := true; preDotState := None; stopped := false |} in
  match startDot st, endIx st with
  | Some sd, Some e =>
      match preDotState st with
      | None => ""
      | Some one =>
          if one && (sd =? e - 1) && (sd =? startPart st + 1) then ""
          else Js.str (firstn (e - sd) (skipn sd cs))
      end
  | _, _ => ""
  end.

End Path.

(** ** [Buffer.from(s, 'base64')]

    Node's decoder is lenient: it reads sextets up to the first padding
    character, never throws, and a group left incomplete at the end yields
    the bytes its complete octets hold (two characters one byte, three
    characters two bytes, one character none). *)

Module Base64.

Definition sextet (c : ascii) : option nat :=
  let n := Js.code c in
  if Js.isUpper c then Some (n - 65)
  else if Js.isLower c then Some (n - 97 + 26)
  else if Js.isDigit c then Some (n - 48 + 52)
  else if Ascii.eqb c "+" then Some 62
  else if Ascii.eqb c "/" then Some 63
  else None.

Definition isPad (c : ascii) : bool := Ascii.eqb c "=".

(** The character class [[A-Za-z0-9+/=]] of the extractor's pattern. *)
Definition inClass (c : ascii) : bool :=
  match sextet c with
  | Some _ => true
  | None => isPad c
  end.

(** Sextets of the legal characters before the first padding character;
    a character outside the alphabet is skipped. *)
Fixpoint sextets (s : list ascii) : list nat :=
  match s with
  | [] => []
  | c :: s' =>
      if isPad c then []
      else match sextet c with
           | Some v => v :: sextets s'
           | None => sextets s'
           end
  end.

Definition octet (n : nat) : byte :=
  match Byte.of_nat (n mod 256) with
  | Some b => b
  | None => x00
  end.

Fixpoint octets (v : list nat) : list byte :=
  match v with
  | a :: b :: c :: d :: rest =>
      octet (a * 4 + b / 16) :: octet ((b mod 16) * 16 + c / 4)
        :: octet ((c mod 4) * 64 + d) :: octets rest
  | [a; b; c] => [octet (a * 4 + b / 16); octet ((b mod 16) * 16 + c / 4)]
  | [a; b] => [octet (a * 4 + b / 16)]
  | _ => []
  end.

Definition decode (s : string) : list byte := octets (sextets (Js.chars s)).

End Base64.

(** ** The WHATWG [URL] class, as far as the crawler reads it

    [new URL(href)] without a base, after the URL Standard: the basic URL
    parser (scheme, authority with its credentials, host and port, path
    segments with their dot segments and their percent-encoding, opaque paths,
    the quirks of [file:]), the host parser (domains, IPv4 and IPv6 addresses,
    opaque hosts) and the getters [hostname], [pathname] and [origin].  The
    query and the fragment are cut off, the crawler does not read them.  Two
    things are not written out: the Unicode part of "domain to ASCII", so that
    a host with a character above 0x7F or with a label in [xn--] is only
    lower-cased, and the UTF-8 encoding of a character above 0x7F, which is
    percent-encoded as the one byte it is here. *)

Module Url.

(** The three getters the crawler reads. *)
Record t := { hostname : string; pathname : string; origin : string }.

Fixpoint span (p : ascii -> bool) (s : list ascii) : list ascii * list ascii :=
  match s with
  | [] => ([], [])
  | c :: s' =>
      if p c then let '(a, b) := span p s' in (c :: a, b) else ([], s)
  end.

Fixpoint dropWhile (p : ascii -> bool) (s : list ascii) : list ascii :=
  match s with
  | [] => []
  | c :: s' => if p c then dropWhile p s' else s
  end.

Definition oneOf (cs : list ascii) (c : ascii) : bool := existsb (Ascii.eqb c) cs.
Definition notOneOf (stops : list ascii) (c : ascii) : bool := negb (oneOf stops c).

Definition isLetter (c : ascii) : bool := Js.isUpper c || Js.isLower c.

Definition isSchemeChar (c : ascii) : bool :=
  isLetter c || Js.isDigit c || oneOf ["+"; "-"; "."]%char c.

Definition isEmpty {A} (s : list A) : bool :=
  match s with
  | [] => true
  | _ => false
  end.

Definition sameText (a b : list ascii) : bool := String.eqb (Js.str a) (Js.str b).

(** Strict splitting: a separator at either end gives an empty part. *)
Fixpoint splitOn (sep : ascii) (s cur : list ascii) : list (list ascii) :=
  match s with
  | [] => [rev cur]
  | c :: s' =>
      if Ascii.eqb c sep then rev cur :: splitOn sep s' [] else splitOn sep s' (c :: cur)
  end.

Fixpoint joinWith (sep : list ascii) (parts : list (list ascii)) : list ascii :=
  match parts with
  | [] => []
  | [p] => p
  | p :: rest => p ++ sep ++ joinWith sep rest
  end.

(** *** The input: leading and trailing C0 controls and spaces are
    removed, then every tab and newline. *)

Definition isC0OrSpace (c : ascii) : bool := Js.code c <=? 32.

Definition isTabOrNewline (c : ascii) : bool :=
  (Js.code c =? 9) || (Js.code c =? 10) || (Js.code c =? 13).

Definition strip (s : list ascii) : list ascii :=
  List.filter (fun c => negb (isTabOrNewline c))
    (rev (dropWhile isC0OrSpace (rev (dropWhile isC0OrSpace s)))).

(** *** Numbers and percent-encoding *)

Definition hexValue (c : ascii) : option N :=
  if Js.isDigit c then Some (N.of_nat (Js.code c - 48))
  else if Js.between 97 102 c then Some (N.of_nat (Js.code c - 87))
  else if Js.between 65 70 c then Some (N.of_nat (Js.code c - 55))
  else None.

Definition isHexDigit (c : ascii) : bool :=
  match hexValue c with
  | Some _ => true
  | None => false
  end.

(** The value of a run of digits in a radix; [None] on a character that
    is not a digit of that radix. *)
Definition number (radix : N) (s : list ascii) : option N :=
  fold_left
    (fun acc c =>
       match acc, hexValue c with
       | Some n, Some d => if (d <? radix)%N then Some (n * radix + d)%N else None
       | _, _ => None
       end)
    s (Some 0%N).

Fixpoint digitsOf (radix : N) (digits : list ascii) (fuel : nat) (n : N)
    (acc : list ascii) : list ascii :=
  let d := nth (N.to_nat (n mod radix)) digits "0"%char in
  match fuel with
  | 0 => d :: acc
  | S fuel' =>
      if (n <? radix)%N then d :: acc
      else digitsOf radix digits fuel' (n / radix) (d :: acc)
  end.

Definition decimal (n : N) : list ascii :=
  digitsOf 10 (Js.chars "0123456789") 40 n [].

Definition lowerHex (n : N) : list ascii :=
  digitsOf 16 (Js.chars "0123456789abcdef") 40 n [].

Definition percentEncode (c : ascii) : list ascii :=
  let upper := Js.chars "0123456789ABCDEF" in
  ["%"%char; nth (Js.code c / 16) upper "0"%char; nth (Js.code c mod 16) upper "0"%char].

Definition encode (set : ascii -> bool) (s : list ascii) : list ascii :=
  flat_map (fun c => if set c then percentEncode c else [c]) s.

Fixpoint percentDecode (s : list ascii) : list ascii :=
  match s with
  | [] => []
  | c :: s' =>
      match s' with
      | a :: b :: rest =>
          match Ascii.eqb c "%", hexValue a, hexValue b with
          | true, Some x, Some y => ascii_of_N (16 * x + y) :: percentDecode rest
          | _, _, _ => c :: percentDecode s'
          end
      | _ => c :: percentDecode s'
      end
  end.

Definition doubleQuote : ascii := ascii_of_nat 34.

(** The C0 control percent-encode set and the path percent-encode set. *)
Definition inC0ControlSet (c : ascii) : bool := (Js.code c <? 32) || (126 <? Js.code c).

Definition inPathSet (c : ascii) : bool :=
  inC0ControlSet c
  || oneOf [" "; doubleQuote; "#"; "<"; ">"; "?"; "^"; "`"; "{"; "}"]%char c.

(** *** Hosts *)

Definition isForbiddenHost (c : ascii) : bool :=
  (Js.code c =? 0) || isTabOrNewline c
  || oneOf [" "; "#"; "/"; ":"; "<"; ">"; "?"; "@"; "["; "\"; "]"; "^"; "|"]%char c.

Definition isForbiddenDomain (c : ascii) : bool :=
  isForbiddenHost c || (Js.code c <=? 31) || Ascii.eqb c "%" || (Js.code c =? 127).

(** The IPv4 number parser: [0x] announces hexadecimal, a leading [0]
    octal. *)
Definition ipv4Number (s : list ascii) : option N :=
  match s with
  | [] => None
  | c :: rest =>
      match rest with
      | [] => number 10 s
      | x :: digits =>
          if Ascii.eqb c "0" && (Ascii.eqb x "x" || Ascii.eqb x "X") then number 16 digits
          else if Ascii.eqb c "0" then number 8 rest
          else number 10 s
      end
  end.

(** The parts of a host between dots, a single trailing empty part left
    out. *)
Definition dottedParts (host : list ascii) : list (list ascii) :=
  let parts := splitOn "." host [] in
  match rev parts with
  | [] :: before => rev before
  | _ => parts
  end.

Definition endsInNumber (host : list ascii) : bool :=
  match rev (dottedParts host) with
  | [] => false
  | last :: _ =>
      (negb (isEmpty last) && forallb Js.isDigit last)
      || match ipv4Number last with
         | Some _ => true
         | None => false
         end
  end.

Fixpoint allSome {A} (l : list (option A)) : option (list A) :=
  match l with
  | [] => Some []
  | None :: _ => None
  | Some a :: l' =>
      match allSome l' with
      | Some r => Some (a :: r)
      | None => None
      end
  end.

Fixpoint weighted (numbers : list N) (power : nat) : N :=
  match numbers with
  | [] => 0
  | n :: rest => (n * 256 ^ N.of_nat power + weighted rest (power - 1))%N
  end.

(** The IPv4 parser and serialiser. *)
Definition ipv4 (host : list ascii) : option (list ascii) :=
  let parts := dottedParts host in
  if 4 <? length parts then None
  else
    match allSome (map ipv4Number parts) with
    | None => None
    | Some numbers =>
        match rev numbers with
        | [] => None
        | last :: before =>
            if existsb (fun n => (255 <? n)%N) before then None
            else if (256 ^ N.of_nat (5 - length numbers) <=? last)%N then None
            else
              let v := (last + weighted (rev before) 3)%N in
              Some (joinWith ["."%char]
                      (map (fun k => decimal ((v / 256 ^ k) mod 256)%N) [3; 2; 1; 0]%N))
        end
    end.

(** The dotted tail of an IPv6 address: four decimal numbers up to 255,
    none with a leading zero, as two pieces. *)
Definition ipv4Piece (s : list ascii) : option N :=
  match s with
  | [] => None
  | c :: rest =>
      if Ascii.eqb c "0" && negb (isEmpty rest) then None
      else
        match number 10 s with
        | Some n => if (255 <? n)%N then None else Some n
        | None => None
        end
  end.

Definition ipv4Tail (s : list ascii) : option (list N) :=
  match allSome (map ipv4Piece (splitOn "." s [])) with
  | Some [a; b; c; d] => Some [a * 256 + b; c * 256 + d]%N
  | _ => None
  end.

(** At most four hexadecimal digits. *)
Fixpoint hexRun (limit : nat) (s : list ascii) : list ascii * list ascii :=
  match limit, s with
  | S k, c :: s' =>
      if isHexDigit c then let '(a, b) := hexRun k s' in (c :: a, b) else ([], s)
  | _, _ => ([], s)
  end.

(** The loop of the IPv6 parser: the pieces read so far, and the number
    of pieces before the [::] when there is one. *)
Fixpoint ipv6Pieces (fuel : nat) (s : list ascii) (pieces : list N)
    (compress : option nat) : option (list N * option nat) :=
  match s with
  | [] => Some (pieces, compress)
  | c :: s' =>
      match fuel with
      | 0 => None
      | S fuel' =>
          if length pieces =? 8 then None
          else if Ascii.eqb c ":" then
            match compress with
            | Some _ => None
            | None => ipv6Pieces fuel' s' (pieces ++ [0%N]) (Some (S (length pieces)))
            end
          else
            let '(digits, rest) := hexRun 4 s in
            match rest with
            | [] =>
                match number 16 digits with
                | Some v => Some (pieces ++ [v], compress)
                | None => None
                end
            | d :: rest' =>
                if Ascii.eqb d "." then
                  if isEmpty digits || (6 <? length pieces) then None
                  else
                    match ipv4Tail s with
                    | Some two => Some (pieces ++ two, compress)
                    | None => None
                    end
                else if Ascii.eqb d ":" && negb (isEmpty digits) && negb (isEmpty rest') then
                  match number 16 digits with
                  | Some v => ipv6Pieces fuel' rest' (pieces ++ [v]) compress
                  | None => None
                  end
                else None
            end
      end
  end.

Definition ipv6Address (s : list ascii) : option (list N) :=
  let start :=
    match s with
    | c :: rest =>
        if Ascii.eqb c ":" then
          match rest with
          | c2 :: rest2 =>
              if Ascii.eqb c2 ":" then Some (rest2, [0%N], Some 1) else None
          | [] => None
          end
        else Some (s, [], None)
    | [] => Some (s, [], None)
    end in
  match start with
  | None => None
  | Some (s0, pieces0, compress0) =>
      match ipv6Pieces (S (length s0)) s0 pieces0 compress0 with
      | None => None
      | Some (pieces, Some k) =>
          if 8 <? length pieces then None
          else Some (firstn k pieces ++ repeat 0%N (8 - length pieces) ++ skipn k pieces)
      | Some (pieces, None) => if length pieces =? 8 then Some pieces else None
      end
  end.

(** The first longest run of at least two zero pieces: where it starts
    and how long it is. *)
Fixpoint zeroRun (pieces : list N) : nat :=
  match pieces with
  | 0%N :: rest => S (zeroRun rest)
  | _ => 0
  end.

Fixpoint longestZeroRun (pieces : list N) (index : nat) (best : nat * nat) : nat * nat :=
  match pieces with
  | [] => best
  | _ :: rest =>
      let run := zeroRun pieces in
      longestZeroRun rest (S index) (if snd best <? run then (index, run) else best)
  end.

Definition ipv6Text (pieces : list N) : list ascii :=
  let '(start, run) := longestZeroRun pieces 0 (0, 1) in
  if run <? 2 then joinWith [":"%char] (map lowerHex pieces)
  else
    joinWith [":"%char] (map lowerHex (firstn start pieces))
    ++ Js.chars "::"
    ++ joinWith [":"%char] (map lowerHex (skipn (start + run) pieces)).

(** The host parser: a bracketed IPv6 address; an opaque host, for a
    scheme that is not special; a domain or an IPv4 address.  Of the "domain to
    ASCII" step, which leaves a domain of ASCII letters, digits, hyphens and
    dots as it is but for the case of the letters, only that much is written
    out: nothing is done to a label in [xn--] or to a character above 0x7F. *)
Definition parseHost (special : bool) (input : list ascii) : option (list ascii) :=
  match input with
  | c :: rest =>
      if Ascii.eqb c "[" then
        match rev rest with
        | close :: inner =>
            if Ascii.eqb close "]" then
              match ipv6Address (rev inner) with
              | Some pieces => Some ("["%char :: ipv6Text pieces ++ ["]"%char])
              | None => None
              end
            else None
        | [] => None
        end
      else if negb special then
        if existsb isForbiddenHost input then None
        else Some (encode inC0ControlSet input)
      else
        let domain := map Js.lowerChar (percentDecode input) in
        if isEmpty domain || existsb isForbiddenDomain domain then None
        else if endsInNumber domain then ipv4 domain
        else Some domain
  | [] => if special then None else Some []
  end.

(** *** Paths *)

Definition isSingleDot (segment : list ascii) : bool :=
  let s := Js.toLowerCase (Js.str segment) in
  String.eqb s "." || String.eqb s "%2e".

Definition isDoubleDot (segment : list ascii) : bool :=
  let s := Js.toLowerCase (Js.str segment) in
  String.eqb s ".." || String.eqb s ".%2e" || String.eqb s "%2e." || String.eqb s "%2e%2e".

Definition isDriveLetter (segment : list ascii) : bool :=
  match segment with
  | [a; b] => isLetter a && (Ascii.eqb b ":" || Ascii.eqb b "|")
  | _ => false
  end.

Definition isNormalizedDriveLetter (segment : list ascii) : bool :=
  match segment with
  | [a; b] => isLetter a && Ascii.eqb b ":"
  | _ => false
  end.

Definition shorten (file : bool) (path : list (list ascii)) : list (list ascii) :=
  match path with
  | [only] => if file && isNormalizedDriveLetter only then path else []
  | _ => removelast path
  end.

(** What the path state does when a segment ends, at a slash or at the
    end of the path. *)
Definition endSegment (file : bool) (path : list (list ascii)) (buffer : list ascii)
    (atSlash : bool) : list (list ascii) :=
  if isDoubleDot buffer then
    if atSlash then shorten file path else shorten file path ++ [[]]
  else if isSingleDot buffer then
    if atSlash then path else path ++ [[]]
  else if file && isEmpty path && isDriveLetter buffer then
    [firstn 1 buffer ++ [":"%char]]
  else path ++ [buffer].

(** The path state, on the input up to the query or the fragment. *)
Fixpoint pathState (special file : bool) (path : list (list ascii))
    (buffer s : list ascii) : list (list ascii) :=
  match s with
  | [] => endSegment file path buffer false
  | c :: s' =>
      if Ascii.eqb c "/" || (special && Ascii.eqb c "\") then
        pathState special file (endSegment file path buffer true) [] s'
      else pathState special file path (buffer ++ encode inPathSet [c]) s'
  end.

Definition pathText (path : list (list ascii)) : list ascii :=
  flat_map (fun segment => "/"%char :: segment) path.

(** The path start state, after the host. *)
Definition pathStart (special file : bool) (s : list ascii) : list (list ascii) :=
  match s with
  | c :: s' =>
      if Ascii.eqb c "/" || (special && Ascii.eqb c "\") then pathState special file [] [] s'
      else pathState special file [] [] s
  | [] => if special then pathState special file [] [] [] else []
  end.

(** *** The parser *)

Definition isSpecial (scheme : string) : bool :=
  existsb (String.eqb scheme) ["http"; "https"; "ws"; "wss"; "ftp"; "file"].

Definition defaultPort (scheme : string) : option N :=
  if String.eqb scheme "http" || String.eqb scheme "ws" then Some 80%N
  else if String.eqb scheme "https" || String.eqb scheme "wss" then Some 443%N
  else if String.eqb scheme "ftp" then Some 21%N
  else None.

(** What follows the last [@] of an authority, and whether there is one. *)
Fixpoint afterUserinfo (s : list ascii) : list ascii :=
  match s with
  | [] => []
  | c :: s' =>
      if existsb (Ascii.eqb "@") s' then afterUserinfo s'
      else if Ascii.eqb c "@" then s' else s
  end.

(** The host state: the host ends at the first colon outside brackets. *)
Fixpoint hostAndPort (inside : bool) (s host : list ascii) : list ascii * option (list ascii) :=
  match s with
  | [] => (rev host, None)
  | c :: s' =>
      if Ascii.eqb c ":" && negb inside then (rev host, Some s')
      else
        hostAndPort (if Ascii.eqb c "[" then true
                     else if Ascii.eqb c "]" then false else inside)
          s' (c :: host)
  end.

(** A URL record, as far as the getters need it. *)
Record record := {
  scheme : string;
  host : list ascii;
  port : option N;
  path : list ascii
}.

(** The authority state, the host state and the port state. *)
Definition parseAuthority (sch : string) (authority : list ascii)
  : option (list ascii * option N) :=
  let special := isSpecial sch in
  let hasAt := existsb (Ascii.eqb "@") authority in
  let hostport := if hasAt then afterUserinfo authority else authority in
  if hasAt && isEmpty hostport then None
  else
    let '(name, portText) := hostAndPort false hostport [] in
    match portText with
    | Some digits =>
        if isEmpty name then None
        else
          match parseHost special name, number 10 digits with
          | Some h, Some p =>
              if (65535 <? p)%N then None
              else if isEmpty digits then Some (h, None)
              else if match defaultPort sch with
                      | Some d => (p =? d)%N
                      | None => false
                      end
              then Some (h, None)
              else Some (h, Some p)
          | _, _ => None
          end
    | None =>
        match parseHost special name with
        | Some h => Some (h, None)
        | None => None
        end
    end.

(** The states that follow the scheme, for an input without a base URL. *)
Definition parseRecord (href : string) : option record :=
  let input := strip (Js.chars href) in
  let '(name, rest) := span isSchemeChar input in
  match name, rest with
  | first :: _, colon :: body =>
      if isLetter first && Ascii.eqb colon ":" then
        let sch := Js.toLowerCase (Js.str name) in
        let special := isSpecial sch in
        let isSlash := fun c => Ascii.eqb c "/" || (special && Ascii.eqb c "\") in
        let beforeQuery := fst (span (notOneOf ["?"; "#"]%char) body) in
        if String.eqb sch "file" then
          match beforeQuery with
          | c1 :: after1 =>
              if isSlash c1 then
                match after1 with
                | c2 :: after2 =>
                    if isSlash c2 then
                      let '(name, tail) := span (fun c => negb (isSlash c)) after2 in
                      if isDriveLetter name then
                        Some {| scheme := sch; host := []; port := None;
                                path := pathText (pathState true true [] name tail) |}
                      else if isEmpty name then
                        Some {| scheme := sch; host := []; port := None;
                                path := pathText (pathStart true true tail) |}
                      else
                        match parseHost true name with
                        | Some h =>
                            Some {| scheme := sch;
                                    host := if sameText h (Js.chars "localhost") then [] else h;
                                    port := None;
                                    path := pathText (pathStart true true tail) |}
                        | None => None
                        end
                    else
                      Some {| scheme := sch; host := []; port := None;
                              path := pathText (pathState true true [] [] after1) |}
                | [] =>
                    Some {| scheme := sch; host := []; port := None;
                            path := pathText (pathState true true [] [] []) |}
                end
              else
                Some {| scheme := sch; host := []; port := None;
                        path := pathText (pathState true true [] [] beforeQuery) |}
          | [] =>
              Some {| scheme := sch; host := []; port := None;
                      path := pathText (pathState true true [] [] []) |}
          end
        else if special then
          let afterSlashes := dropWhile isSlash beforeQuery in
          let '(authority, tail) := span (fun c => negb (isSlash c)) afterSlashes in
          match parseAuthority sch authority with
          | Some (h, p) =>
              Some {| scheme := sch; host := h; port := p;
                      path := pathText (pathStart true false tail) |}
          | None => None
          end
        else
          match beforeQuery with
          | c1 :: after1 =>
              if Ascii.eqb c1 "/" then
                match after1 with
                | c2 :: after2 =>
                    if Ascii.eqb c2 "/" then
                      let '(authority, tail) := span (notOneOf ["/"%char]) after2 in
                      match parseAuthority sch authority with
                      | Some (h, p) =>
                          Some {| scheme := sch; host := h; port := p;
                                  path := pathText (pathStart false false tail) |}
                      | None => None
                      end
                    else
                      Some {| scheme := sch; host := []; port := None;
                              path := pathText (pathState false false [] [] after1) |}
                | [] =>
                    Some {| scheme := sch; host := []; port := None;
                            path := pathText (pathState false false [] [] []) |}
                end
              else
                Some {| scheme := sch; host := []; port := None;
                        path := encode inC0ControlSet beforeQuery |}
          | [] => Some {| scheme := sch; host := []; port := None; path := [] |}
          end
      else None
  | _, _ => None
  end.

(** The serialisation of a tuple origin. *)
Definition tupleOrigin (r : record) : string :=
  Js.str (Js.chars (scheme r) ++ Js.chars "://" ++ host r
          ++ match port r with
             | Some p => ":"%char :: decimal p
             | None => []
             end).

(** The [origin] getter: a tuple for [http], [https], [ws], [wss] and
    [ftp]; for [blob], the origin of the URL in its path when that is an
    [http] or [https] URL; the opaque origin, which serialises as [null],
    otherwise. *)
Definition originOf (r : record) : string :=
  if existsb (String.eqb (scheme r)) ["http"; "https"; "ws"; "wss"; "ftp"] then tupleOrigin r
  else if String.eqb (scheme r) "blob" then
    match parseRecord (Js.str (path r)) with
    | Some inner =>
        if String.eqb (scheme inner) "http" || String.eqb (scheme inner) "https"
        then tupleOrigin inner
        else "null"
    | None => "null"
    end
  else "null".

(** [new URL(href)], without a base: [None] when the constructor throws. *)
Definition parse (href : string) : option t :=
  match parseRecord href with
  | Some r =>
      Some {| hostname := Js.str (host r); pathname := Js.str (path r);
              origin := originOf r |}
  | None => None
  end.

End Url.

(** ** Pure helpers of crawler.js *)

Definition Buffer := list byte.

(** [sanitizeFilename] (lines 9-12): [url.replace(/[^a-zA-Z0-9-_./]/g, '_')]
    one character at a time, then the cut at 200 characters. *)
Definition isSafeChar (c : ascii) : bool :=
  Js.isLower c || Js.isUpper c || Js.isDigit c ||
  Ascii.eqb c "-" || Ascii.eqb c "_" || Ascii.eqb c "." || Ascii.eqb c "/".

Definition underscore : ascii := "_".

Definition cleanChar (c : ascii) : ascii :=
  if isSafeChar c then c else underscore.

Definition sanitizeFilename (url : string) : string :=
  let clean := map cleanChar (Js.chars url) in
  if 200 <? length clean then Js.str (firstn 200 clean) else Js.str clean.

(** Lines 14-20. *)
Definition guessExtFromContentType (ct : option string) : option string :=
  if negb (Js.truthy ct) then None
  else if Js.lowerIncludes ct "application/wasm" then Some ".wasm"
  else if Js.lowerIncludes ct "javascript" || Js.lowerIncludes ct "ecmascript"
          || Js.lowerIncludes ct "text/js" then Some ".js"
  else None.

(** Lines 22-25: 00 61 73 6d *)
Definition isWasmByMagic (bytes : Buffer) : bool :=
  match bytes with
  | x00 :: x61 :: x73 :: x6d :: _ => true
  | _ => false
  end.

(** The heuristics (lines 27-56).  A case-insensitive pattern is tested on
    the lower-cased URL. *)
Definition urlHas (url lit : string) : bool :=
  Js.includes (Js.toLowerCase url) lit.

Definition isLikelyJsByHeuristics (ct : option string) (url : string) : bool :=
  if Js.lowerIncludes ct "javascript" then true
  else if Js.litThenEnd (Js.chars ".js") (Js.chars (Js.toLowerCase url))
          || Js.litThenEnd (Js.chars ".mjs") (Js.chars (Js.toLowerCase url)) then true
  else if urlHas url "/js/" then true
  else if urlHas url "/javascript/" then true
  else if urlHas url "/scripts/" then true
  else if urlHas url ".min.js" then true
  else if urlHas url ".bundle.js" then true
  else if urlHas url ".chunk.js" then true
  else false.

Definition isLikelyWasmByHeuristics (ct : option string) (url : string) : bool :=
  if Js.lowerIncludes ct "application/wasm" then true
  else if Js.litThenEnd (Js.chars ".wasm") (Js.chars (Js.toLowerCase url)) then true
  else if Js.startsWith (Js.toLowerCase url) "data:application/wasm;"
          || Js.startsWith (Js.toLowerCase url) "data:application/wasm," then true
  else if urlHas url "/wasm/" then true
  else if urlHas url "/webassembly/" then true
  else if urlHas url "/canvas/" then true
  else if urlHas url "/canvas2d/" then true
  else if urlHas url "/webgl/" then true
  else if urlHas url "/flutter/" then true
  else if urlHas url "/canvaskit/" then true
  else if urlHas url "/emscripten/" then true
  else if urlHas url "/unity/" then true
  else if urlHas url "/unreal/" then true
  else false.

(** The [fileType] bucket of [targetPathFor] (lines 64-74). *)
Definition fileTypeFor (defaultExt contentType : option string) : string :=
  if Js.eqOpt defaultExt ".js" || Js.lowerIncludes contentType "javascript" then "js"
  else if Js.eqOpt defaultExt ".wasm" || Js.lowerIncludes contentType "application/wasm"
  then "wasm"
  else if Js.truthy contentType then
    if Js.lowerIncludes contentType "css" then "css"
    else if Js.lowerIncludes contentType "image" then "images"
    else if Js.lowerIncludes contentType "font" then "fonts"
    else if Js.lowerIncludes contentType "json" then "data"
    else "other"
  else "other".

(** The file name of [targetPathFor] (lines 77-82):
    [pathname.replace(/^\//, '').replace(/\//g, '_')], then the [index] and
    extension steps. *)
Definition slashToUnderscore (c : ascii) : ascii :=
  if Ascii.eqb c "/" then underscore else c.

Definition baseNameFor (pathname : string) : string :=
  let stripped :=
    match Js.chars pathname with
    | "/"%char :: rest => rest
    | cs => cs
    end in
  let fileName := Js.str (map slashToUnderscore stripped) in
  if String.eqb fileName "" || Js.endsWith fileName "_"
  then fileName +:+ "index" else fileName.

Definition fileNameFor (pathname : string) (defaultExt contentType : option string)
  : string :=
  let fileName := baseNameFor pathname in
  let ext :=
    Js.or_else (Js.or_else (Js.or_else (Some (Path.extname fileName)) defaultExt)
                  (guessExtFromContentType contentType)) (Some "") in
  if String.eqb (Path.extname fileName) ""
  then fileName +:+ default "" (Js.or_else ext (Some ""))
  else fileName.

(** ** Session state, browser events and the execution monad *)

(** What [response.body()] does when the response handler awaits it. *)
Inductive BodyRead :=
| BodyOk (body : Buffer)
| BodyThrows (message : string).

(** What [response.body()] does when the drain awaits it: the time, in
    milliseconds, after which the promise settles, and how. *)
Record LateRead := {
  settlesAfter : N;
  settlesTo : BodyRead
}.

(** A Playwright response handle: [url()], [request().resourceType()],
    [headers()] and the two moments at which [body()] may be awaited. *)
Record Response := {
  r_url : string;
  r_resourceType : string;
  r_headers : gmap string string;
  r_body : BodyRead;
  r_bodyLater : LateRead
}.

(** A [route] of the request router: the request URL, what [route.fetch()]
    gives, and whether [route.fulfill] throws. *)
Inductive FetchResult :=
| Fetched (ok : bool) (body : BodyRead)
| FetchThrows (message : string).

Record Route := {
  q_url : string;
  q_fetch : FetchResult;
  q_fulfillThrows : option string
}.

Inductive Event :=
| DirEnsured (dir : string)
| NewPage (url : string)
| Goto (url : string) (attempt : nat)
| WaitForTimeout (ms : nat)
| ConsoleError (kind : string) (url : string)
| PendingStart (size : nat)
| PendingDropped (url : string) (message : string)
| PageClosed
| ContextClosed
| BrowserClosed.

Record Session := {
  toVisit : list string;
  visited : gset string;
  saved : gset string;
  pendingResponses : list (string * Response);
  files : list (string * Buffer);
  trace : list Event;
  draws : nat
}.

Inductive outcome (A : Type) :=
| Done (a : A)
| Thrown (message : string).
Arguments Done {A} a.
Arguments Thrown {A} message.

Definition Exec (A : Type) : Type := Session -> Session * outcome A.

Definition ret {A} (a : A) : Exec A := fun s => (s, Done a).
Definition throw {A} (message : string) : Exec A := fun s => (s, Thrown message).

Definition bind {A B} (m : Exec A) (k : A -> Exec B) : Exec B :=
  fun s =>
    match m s with
    | (s', Done a) => k a s'
    | (s', Thrown e) => (s', Thrown e)
    end.

(** [try { m } catch (e) { h e }] *)
Definition tryCatch {A} (m : Exec A) (h : string -> Exec A) : Exec A :=
  fun s =>
    match m s with
    | (s', Thrown e) => h e s'
    | r => r
    end.

(** [try { m } finally { f }], for an [f] that does not throw. *)
Definition tryFinally {A} (m : Exec A) (f : Session -> Session) : Exec A :=
  fun s => let '(s', r) := m s in (f s', r).

Definition lift {A} (r : outcome A) : Exec A := fun s => (s, r).
Definition get : Exec Session := fun s => (s, Done s).
Definition modify (f : Session -> Session) : Exec unit := fun s => (f s, Done tt).

Declare Scope exec_scope.
Delimit Scope exec_scope with exec.
Notation "x <- m ;; k" := (bind m (fun x => k))
  (at level 90, m at next level, right associativity) : exec_scope.
Notation "m ;;; k" := (bind m (fun _ => k))
  (at level 90, right associativity) : exec_scope.
Local Open Scope exec_scope.

Fixpoint forEach {A} (l : list A) (f : A -> Exec unit) : Exec unit :=
  match l with
  | [] => ret tt
  | a :: l' => f a ;;; forEach l' f
  end.

Definition setToVisit (q : list string) (s : Session) : Session :=
  {| toVisit := q; visited := visited s; saved := saved s;
     pendingResponses := pendingResponses s; files := files s;
     trace := trace s; draws := draws s |}.

Definition addVisited (url : string) (s : Session) : Session :=
  {| toVisit := toVisit s; visited := {[url]} ∪ visited s; saved := saved s;
     pendingResponses := pendingResponses s; files := files s;
     trace := trace s; draws := draws s |}.

Definition addSaved (url : string) (s : Session) : Session :=
  {| toVisit := toVisit s; visited := visited s; saved := {[url]} ∪ saved s;
     pendingResponses := pendingResponses s; files := files s;
     trace := trace s; draws := draws s |}.

Definition setPending (m : list (string * Response)) (s : Session) : Session :=
  {| toVisit := toVisit s; visited := visited s; saved := saved s;
     pendingResponses := m; files := files s;
     trace := trace s; draws := draws s |}.

Definition addFile (path : string) (buffer : Buffer) (s : Session) : Session :=
  {| toVisit := toVisit s; visited := visited s; saved := saved s;
     pendingResponses := pendingResponses s; files := files s ++ [(path, buffer)];
     trace := trace s; draws := draws s |}.

Definition addEvent (e : Event) (s : Session) : Session :=
  {| toVisit := toVisit s; visited := visited s; saved := saved s;
     pendingResponses := pendingResponses s; files := files s;
     trace := trace s ++ [e]; draws := draws s |}.

Definition addDraw (s : Session) : Session :=
  {| toVisit := toVisit s; visited := visited s; saved := saved s;
     pendingResponses := pendingResponses s; files := files s;
     trace := trace s; draws := S (draws s) |}.

Definition emit (e : Event) : Exec unit := modify (addEvent e).

(** [Map.prototype.set]: a known key keeps its place in iteration order. *)
Fixpoint mapSet (k : string) (v : Response) (m : list (string * Response))
  : list (string * Response) :=
  match m with
  | [] => [(k, v)]
  | (k', v') :: m' =>
      if String.eqb k k' then (k, v) :: m' else (k', v') :: mapSet k v m'
  end.

Definition has (set : gset string) (url : string) : bool := bool_decide (url ∈ set).

(** The literal part of [/data:application\/wasm;base64,([A-Za-z0-9+/=]+)/g]. *)
Definition dataUrlPrefix : list ascii := Js.chars "data:application/wasm;base64,".

(** The scan of that pattern by repeated [exec]: the payloads of the
    successive matches, each the longest run of class characters after the
    literal.  [skip] is the distance to [lastIndex]. *)
Fixpoint scanDataUrls (skip : nat) (text : list ascii) : list (list ascii) :=
  match text with
  | [] => []
  | _ :: text' =>
      match skip with
      | S k => scanDataUrls k text'
      | 0 =>
          if Js.startsL dataUrlPrefix text then
            match fst (Url.span Base64.inClass (skipn (length dataUrlPrefix) text)) with
            | [] => scanDataUrls 0 text'
            | payload =>
                payload
                  :: scanDataUrls (length dataUrlPrefix + length payload - 1) text'
            end
          else scanDataUrls 0 text'
      end
  end.

Definition readBody (b : BodyRead) : outcome Buffer :=
  match b with
  | BodyOk body => Done body
  | BodyThrows message => Thrown message
  end.

(** [setTimeout(() => reject(new Error('Timeout')), 10000)] *)
Definition pendingTimeout : N := 10000.

(** [Promise.race([bodyPromise, timeoutPromise])]: the body read wins when
    it settles before the timer fires. *)
Definition raceBody (b : LateRead) : outcome Buffer :=
  if (settlesAfter b <? pendingTimeout)%N then readBody (settlesTo b)
  else Thrown "Timeout".

(** [headers['content-type'] || headers['Content-Type']] *)
Definition contentTypeOf (response : Response) : option string :=
  Js.or_else (r_headers response !! "content-type")
             (r_headers response !! "Content-Type").

(** Lines 171-177. *)
Definition isJsByContentTypeOf (contentType : option string) : bool :=
  Js.lowerIncludes contentType "javascript" ||
  Js.lowerIncludes contentType "ecmascript" ||
  Js.lowerIncludes contentType "text/js" ||
  Js.lowerIncludes contentType "application/javascript" ||
  Js.lowerIncludes contentType "application/x-javascript".

(** The content sniffing of lines 238-247. *)
Definition jsTokens : list string :=
  ["function"; "var"; "let"; "const"; "=>"; "import"; "export"; "class";
   "async"; "await"; "console."; "document."; "window."].

Definition isJsByContentOf (body : Buffer) (isWasmMagic : bool) : bool :=
  if (0 <? length body) && negb isWasmMagic then
    let text := string_of_list_byte (firstn (Nat.min 1000 (length body)) body) in
    existsb (Js.includes text) jsTokens
  else false.

(** The final classification (lines 255-264). *)
Definition defaultExtOf (isWasmHeur isWasmMagic isJsHeur isScriptResource
    isJsByContentType isJsByContent : bool) (resourceType : string)
  : option string :=
  if isWasmHeur || isWasmMagic then Some ".wasm"
  else if isJsHeur || isScriptResource || isJsByContentType || isJsByContent
  then Some ".js"
  else if String.eqb resourceType "script" then Some ".js"
  else None.

(** [shouldProcess] (line 185). *)
Definition shouldProcessOf (response : Response) : bool :=
  let contentType := contentTypeOf response in
  let resourceType := r_resourceType response in
  isLikelyWasmByHeuristics contentType (r_url response) ||
  isLikelyJsByHeuristics contentType (r_url response) ||
  String.eqb resourceType "script" ||
  isJsByContentTypeOf contentType ||
  String.eqb resourceType "script".

(** The branches of the [catch] of the page loop (lines 441-456). *)
Definition errorKind (message : string) : string :=
  if Js.includes message "ERR_CONNECTION_RESET" then "connection-reset"
  else if Js.includes message "ERR_TIMED_OUT" then "timeout"
  else if Js.includes message "ERR_NAME_NOT_RESOLVED" then "dns-failure"
  else if Js.includes message "ERR_SSL" then "tls-failure"
  else "other".

(** What the browser does while one page is visited: whether each
    [page.goto] fails, the anchors of the page, and the responses whose handler
    runs while the page loads ([arrivedEarly]), while the drain of the visit
    awaits the body of its k-th entry ([arrivedInDrain], one batch per
    iteration) and between that drain and [page.close] ([arrivedLate]). *)
Record PageScript := {
  gotoFails : nat -> option string;
  arrivedEarly : list Response;
  arrivedInDrain : list (list Response);
  arrivedLate : list Response;
  anchors : outcome (list string)
}.

(** What the browser does once the page loop is over: the responses whose
    handler runs while the last drain awaits the body of its k-th entry, and
    those whose handler runs after that drain, while the context closes. *)
Record Closing := {
  arrivedInLastDrain : list (list Response);
  arrivedAtClose : list Response
}.

Section Platform.

(** [new URL(...)]: [None] when the constructor throws. *)
Variable parseURL : string -> option Url.t.
(** The text of [Date.now()] and [Math.random().toString(36).slice(2)],
    joined by an underscore, at the n-th synthetic name of the session. *)
Variable stamp : nat -> string.
(** The file paths at which [saveBuffer] throws, in its [ensureDir] or in
    its [writeFile]. *)
Variable fsRejects : string -> bool.
(** The browser: what happens when the page at a URL is opened, and what
    happens after the last page. *)
Variable site : string -> PageScript.
Variable closing : Closing.
(** The directories at which the [ensureDir] of line 103 throws. *)
Variable dirRejects : string -> bool.

(** Lines 58-95; the bucket and the file name are [fileTypeFor] and
    [fileNameFor] above. *)
Definition targetPathFor (url baseDir : string)
    (defaultExt contentType mainSiteHostname : option string) : outcome string :=
  match parseURL url with
  | None => Thrown "Invalid URL"
  | Some urlObj =>
      let hostname := Url.hostname urlObj in
      let pathname := Url.pathname urlObj in
      let fileType := fileTypeFor defaultExt contentType in
      let fileName := fileNameFor pathname defaultExt contentType in
      let thirdParty :=
        Js.truthy mainSiteHostname && negb (Js.eqOpt mainSiteHostname hostname) in
      let targetHostname :=
        if thirdParty then default "" mainSiteHostname else hostname in
      let fileName :=
        if thirdParty then sanitizeFilename hostname +:+ "_" +:+ fileName
        else fileName in
      Done (Path.join [baseDir; sanitizeFilename targetHostname; fileType;
                       sanitizeFilename fileName])
  end.

(** Lines 97-100. *)
Definition saveBuffer (filePath : string) (buffer : Buffer) : Exec unit :=
  fun s =>
    if fsRejects filePath then (s, Thrown "EACCES")
    else (addFile filePath buffer s, Done tt).

Definition freshStamp : Exec string :=
  fun s => (addDraw s, Done (stamp (draws s))).

Section Session.

Variable outDir : string.
Variable mainSiteHostname : string.
Variable maxPages : nat.

Definition inlinePath (name : string) : string :=
  Path.join [outDir; "inline/embedded_" +:+ name +:+ ".wasm"].

(** The inline extraction (lines 283-300): the body of its [while] loop,
    then the loop in its [try]. *)
Definition extractOne (base64 : list ascii) : Exec unit :=
  let wasmBuf := Base64.decode (Js.str base64) in
  if (0 <? length wasmBuf) && isWasmByMagic wasmBuf then
    name <- freshStamp ;;
    saveBuffer (inlinePath name) wasmBuf
  else ret tt.

Definition extractInlineWasm (body : Buffer) : Exec unit :=
  tryCatch
    (let text := string_of_list_byte body in
     forEach (scanDataUrls 0 (Js.chars text)) extractOne)
    (fun _ => ret tt).

(** The [try] block of the immediate WASM branch (lines 196-209), which
    the router repeats (lines 352-363). *)
Definition saveWasmNow (url : string) (body : BodyRead) : Exec unit :=
  body <- lift (readBody body) ;;
  if 0 <? length body then
    filePath <- lift (targetPathFor url outDir (Some ".wasm")
                        (Some "application/wasm") (Some mainSiteHostname)) ;;
    saveBuffer filePath body ;;;
    modify (addSaved url)
  else ret tt.

(** [context.on('response', async (response) => { ... })], lines 150-304. *)
Definition onResponse (response : Response) : Exec unit :=
  tryCatch
    (let url := r_url response in
     s <- get ;;
     if String.eqb url "" || has (saved s) url then ret tt else
     let resourceType := r_resourceType response in
     let contentType := contentTypeOf response in
     let isWasmHeur := isLikelyWasmByHeuristics contentType url in
     let isJsHeur := isLikelyJsByHeuristics contentType url in
     let isScriptResource := String.eqb resourceType "script" in
     let isJsByContentType := isJsByContentTypeOf contentType in
     if negb (shouldProcessOf response) then ret tt else
     if isWasmHeur then
       tryCatch
         (saveWasmNow url (r_body response))
         (fun _ =>
            modify (fun s => setPending (mapSet url response (pendingResponses s)) s))
     else
       match r_body response with
       | BodyThrows _ => ret tt
       | BodyOk body =>
           if length body =? 0 then ret tt else
           let isWasmMagic := isWasmByMagic body in
           let isJsByContent := isJsByContentOf body isWasmMagic in
           let defaultExt :=
             defaultExtOf isWasmHeur isWasmMagic isJsHeur isScriptResource
               isJsByContentType isJsByContent resourceType in
           filePath <-
             (if Js.startsWith url "data:" then
                name <- freshStamp ;;
                ret (Path.join [outDir; "inline/" +:+ name +:+ default "" defaultExt])
              else
                lift (targetPathFor url outDir defaultExt contentType
                        (Some mainSiteHostname))) ;;
           saveBuffer filePath body ;;;
           modify (addSaved url) ;;;
           if (Js.eqOpt defaultExt ".js" || isJsHeur) && (0 <? length body)
           then extractInlineWasm body
           else ret tt
       end)
    (fun _ => ret tt).

(** [processPendingResponses] (lines 307-338): the body of its [for] loop,
    where [targetPathFor] is called without the main site's hostname, then the
    loop and the [clear].

    The [for ... of] iterates the map itself, not a copy of it: the iterator
    reads the entry at its position when it is advanced (line 309), and the
    handlers that run while the body of that entry is awaited (line 319) may
    [set] entries.  An entry set at a new key is appended and met later in the
    same drain; one set at a key the iterator has passed is not met again and
    goes with the [clear].  [arrivals] gives, for each iteration, the responses
    whose handler runs during its await; when no batch is left the map does not
    change any more, and the rest of the loop is the iteration of what the map
    holds from the position reached. *)
Definition drainOne (entry : string * Response) : Exec unit :=
  let '(url, response) := entry in
  tryCatch
    (body <- lift (raceBody (r_bodyLater response)) ;;
     if 0 <? length body then
       filePath <- lift (targetPathFor url outDir (Some ".wasm")
                           (Some "application/wasm") None) ;;
       saveBuffer filePath body ;;;
       modify (addSaved url)
     else ret tt)
    (fun e => emit (PendingDropped url e)).

Fixpoint drainFrom (arrivals : list (list Response)) (position : nat) : Exec unit :=
  s <- get ;;
  match arrivals with
  | [] => forEach (skipn position (pendingResponses s)) drainOne
  | batch :: later =>
      match nth_error (pendingResponses s) position with
      | None => ret tt
      | Some entry =>
          forEach batch onResponse ;;;
          drainOne entry ;;;
          drainFrom later (S position)
      end
  end.

Definition processPendingResponses (arrivals : list (list Response)) : Exec unit :=
  s <- get ;;
  emit (PendingStart (length (pendingResponses s))) ;;;
  drainFrom arrivals 0 ;;;
  modify (setPending []).

(** [context.route('**/*', async (route) => { ... })], lines 341-375. *)
Definition onRoute (route : Route) : Exec unit :=
  let url := q_url route in
  if Js.includes url "compile" && Js.includes url "wasi"
     && Js.includes url "target=arduino" then
    match q_fetch route with
    | FetchThrows message => throw message
    | Fetched ok body =>
        (if ok then tryCatch (saveWasmNow url body) (fun _ => ret tt)
         else ret tt) ;;;
        match q_fulfillThrows route with
        | Some message => throw message
        | None => ret tt
        end
    end
  else ret tt.

(** [navigateWithRetry] (lines 390-414): [remaining] counts the iterations
    the [for] loop still has, [attempt] is its loop variable. *)
Fixpoint retryFrom (page : PageScript) (url : string)
    (maxRetries remaining attempt : nat) : Exec unit :=
  match remaining with
  | 0 => ret tt
  | S k =>
      emit (Goto url attempt) ;;;
      match gotoFails page attempt with
      | None => ret tt
      | Some message =>
          if attempt =? maxRetries then throw message
          else
            emit (WaitForTimeout (attempt * 2000)) ;;;
            retryFrom page url maxRetries k (S attempt)
      end
  end.

Definition navigateWithRetry (page : PageScript) (url : string)
    (maxRetries : nat) : Exec unit :=
  retryFrom page url maxRetries maxRetries 1.

(** The link harvest (lines 432-439). *)
Definition pushToVisit (href : string) (s : Session) : Session :=
  setToVisit (toVisit s ++ [href]) s.

Definition harvestLinks (url : string) (links : list string) : Exec unit :=
  origin <- lift (match parseURL url with
                  | Some u => Done (Url.origin u)
                  | None => Thrown "Invalid URL"
                  end) ;;
  forEach links (fun href =>
    tryCatch
      (h <- lift (match parseURL href with
                  | Some u => Done (Url.origin u)
                  | None => Thrown "Invalid URL"
                  end) ;;
       s <- get ;;
       if String.eqb h origin && negb (has (visited s) href)
       then modify (pushToVisit href)
       else ret tt)
      (fun _ => ret tt)).

Definition loopCond (s : Session) : bool :=
  negb (length (toVisit s) =? 0) && (size (visited s) <? maxPages).

(** One iteration of [while (toVisit.length && visited.size < maxPages)]
    (lines 377-460).  The handlers of the page's responses run while the page
    loads ([arrivedEarly]), during the drain ([arrivedInDrain]) or after it
    ([arrivedLate]). *)
Definition loopBody : Exec unit :=
  s <- get ;;
  match toVisit s with
  | [] => ret tt
  | url :: rest =>
      modify (setToVisit rest) ;;;
      if String.eqb url "" || has (visited s) url then ret tt
      else
        modify (addVisited url) ;;;
        emit (NewPage url) ;;;
        let page := site url in
        tryFinally
          (forEach (arrivedEarly page) onResponse ;;;
           tryCatch
             (navigateWithRetry page url 3 ;;;
              emit (WaitForTimeout 5000) ;;;
              emit (WaitForTimeout 2000) ;;;
              processPendingResponses (arrivedInDrain page) ;;;
              s1 <- get ;;
              if size (visited s1) <? maxPages then
                hrefs <- lift (anchors page) ;;
                harvestLinks url (List.filter (fun h => negb (String.eqb h "")) hrefs)
              else ret tt)
             (fun e => emit (ConsoleError (errorKind e) url)) ;;;
           forEach (arrivedLate page) onResponse)
          (addEvent PageClosed)
  end.

Fixpoint pageLoop (fuel : nat) (s : Session) : option (Session * outcome unit) :=
  if negb (loopCond s) then Some (s, Done tt)
  else
    match fuel with
    | 0 => None
    | S fuel' =>
        match loopBody s with
        | (s', Done _) => pageLoop fuel' s'
        | (s', Thrown e) => Some (s', Thrown e)
        end
    end.

(** Lines 462-466.  Nothing waits for the handlers that are still running:
    those of [arrivedAtClose] run after the last drain. *)
Definition teardown (closing : Closing) : Exec unit :=
  processPendingResponses (arrivedInLastDrain closing) ;;;
  forEach (arrivedAtClose closing) onResponse ;;;
  emit ContextClosed ;;;
  emit BrowserClosed.

End Session.

Definition initialSession (startUrl : string) : Session :=
  {| toVisit := [startUrl]; visited := ∅; saved := ∅; pendingResponses := [];
     files := []; trace := []; draws := 0 |}.

(** [ensureDir] (lines 5-7) as [crawl] calls it first, at line 103: it
    throws, or it returns and the directory is there.  Its other call, inside
    [saveBuffer], is part of what [fsRejects] decides. *)
Definition ensureDir (dir : string) : Exec unit :=
  fun s =>
    if dirRejects dir then (s, Thrown "EACCES")
    else (addEvent (DirEnsured dir) s, Done tt).

(** [crawl(startUrl, outDir, { maxPages })] (lines 102-467); [None] when
    the fuel runs out before the page loop ends. *)
Definition crawl (startUrl outDir : string) (maxPages fuel : nat)
  : option (Session * outcome unit) :=
  match ensureDir outDir (initialSession startUrl) with
  | (s0, Thrown e) => Some (s0, Thrown e)
  | (s0, Done _) =>
      match parseURL startUrl with
      | None => Some (s0, Thrown "Invalid URL")
      | Some u =>
          let mainSiteHostname := Url.hostname u in
          match pageLoop outDir mainSiteHostname maxPages fuel s0 with
          | Some (s, Done _) => Some (teardown outDir mainSiteHostname closing s)
          | r => r
          end
      end
  end.

End Platform.

(** ** Vocabulary of the properties *)

Definition grows (P : string * Buffer -> Prop) (s s' : Session) : Prop :=
  exists new, files s' = files s ++ new /\ Forall P new.

(** The fields a response never touches. *)
Definition course (s : Session) : list string * gset string * list Event :=
  (toVisit s, visited s, trace s).

Fixpoint stampFiles (name : nat -> string) (n : nat) (buffers : list Buffer)
  : list (string * Buffer) :=
  match buffers with
  | [] => []
  | b :: rest => (name n, b) :: stampFiles name (S n) rest
  end.

Definition keepsWasm (b : Buffer) : bool := (0 <? length b) && isWasmByMagic b.

(** A relation between the state before and after a command that every
    command of a sequence respects is respected by the sequence. *)
Definition respects {A} (Q : Session -> Session -> Prop) (m : Exec A) : Prop :=
  forall s, Q s (fst (m s)).

(** The queue only receives, at its end, URLs that are not visited; the
    visited set and the saved set do not shrink. *)
Definition queues (s s' : Session) : Prop :=
  visited s' = visited s /\ saved s ⊆ saved s' /\
  exists new, toVisit s' = toVisit s ++ new /\ Forall (fun h => h ∉ visited s) new.

Definition buckets : list string :=
  ["js"; "wasm"; "css"; "images"; "fonts"; "data"; "other"].

Definition isThirdParty (hostname : string) (main : option string) : bool :=
  Js.truthy main && negb (Js.eqOpt main hostname).

Definition targetHostnameFor (u : Url.t) (main : option string) : string :=
  if isThirdParty (Url.hostname u) main then default "" main else Url.hostname u.

Definition targetFileNameFor (u : Url.t) (defaultExt contentType main : option string)
  : string :=
  if isThirdParty (Url.hostname u) main
  then sanitizeFilename (Url.hostname u) +:+ "_"
         +:+ fileNameFor (Url.pathname u) defaultExt contentType
  else fileNameFor (Url.pathname u) defaultExt contentType.

(** The spec's reading of [sanitize]: strip, then truncate. *)
Definition stripUnsafe (s : string) : string :=
  Js.str (firstn 200 (List.filter isSafeChar (Js.chars s))).

(** Where the handlers put a WASM-classified body. *)
Definition wasmPathFor (outDir : string) (u : Url.t) (main : option string) : string :=
  Path.join [outDir; sanitizeFilename (targetHostnameFor u main); "wasm";
             sanitizeFilename
               (targetFileNameFor u (Some ".wasm") (Some "application/wasm") main)].

Definition thirdPartyFile (outDir main : string) (u : Url.t)
    (pb : string * Buffer) : Prop :=
  exists ext ct,
    fst pb =
    Path.join [outDir; sanitizeFilename main; fileTypeFor ext ct;
               sanitizeFilename
                 (sanitizeFilename (Url.hostname u) +:+ "_"
                    +:+ fileNameFor (Url.pathname u) ext ct)].

Definition joinedFile (outDir : string) (u : Url.t) (main : option string)
    (pb : string * Buffer) : Prop :=
  exists ext ct,
    fst pb =
    Path.join [outDir; sanitizeFilename (targetHostnameFor u main);
               fileTypeFor ext ct;
               sanitizeFilename (targetFileNameFor u ext ct main)].

Definition magicPayload : list ascii := Js.chars "AGFzbQEAAAA=".

(** The text before an occurrence ends in the pattern's literal prefix
    followed by base64 characters only: the match that starts there runs over
    the occurrence. *)
Definition openMatch (pre : list ascii) : bool :=
  Js.startsL (rev dataUrlPrefix) (snd (Url.span Base64.inClass (rev pre))).

Definition decodeMatch (m : list ascii) : Buffer := Base64.decode (Js.str m).

(** Padded groups of four, the padding at the very end only. *)
Definition wellFormedBase64 (s : string) : bool :=
  let cs := Js.chars s in
  let body := fst (Url.span (fun c => negb (Base64.isPad c)) cs) in
  let pad := snd (Url.span (fun c => negb (Base64.isPad c)) cs) in
  (length cs mod 4 =? 0) && (length pad <=? 2) && forallb Base64.isPad pad
  && forallb (fun c => match Base64.sextet c with Some _ => true | None => false end) body.

Definition neverOpen (pre : list ascii) : Prop :=
  forall a run, pre = a ++ dataUrlPrefix ++ run ->
                Forall (fun c => Base64.inClass c = true) run -> False.

Section Vocabulary.

Variable parseURL : string -> option Url.t.
Variable stamp : nat -> string.
Variable fsRejects : string -> bool.
Variable site : string -> PageScript.
Variable outDir mainSiteHostname : string.
Variable maxPages : nat.

Definition embeddedFile (pb : string * Buffer) : Prop :=
  (exists name, fst pb = inlinePath outDir name) /\ isWasmByMagic (snd pb) = true.

Definition resolvedFile (url : string) (main : option string)
    (pb : string * Buffer) : Prop :=
  exists ext ct, targetPathFor parseURL url outDir ext ct main = Done (fst pb).

Definition syntheticFile (url : string) (pb : string * Buffer) : Prop :=
  Js.startsWith url "data:" = true /\
  exists name ext, fst pb = Path.join [outDir; "inline/" +:+ name +:+ ext].

Definition responseFile (url : string) (pb : string * Buffer) : Prop :=
  embeddedFile pb \/ syntheticFile url pb
  \/ resolvedFile url (Some mainSiteHostname) pb.

(** The one file and the one console line a pending entry can give. *)
Definition drainedFile (entry : string * Response) : list (string * Buffer) :=
  match raceBody (r_bodyLater (snd entry)) with
  | Done body =>
      if 0 <? length body then
        match targetPathFor parseURL (fst entry) outDir (Some ".wasm")
                (Some "application/wasm") None with
        | Done filePath => if fsRejects filePath then [] else [(filePath, body)]
        | Thrown _ => []
        end
      else []
  | Thrown _ => []
  end.

Definition drainedEvent (entry : string * Response) : list Event :=
  match raceBody (r_bodyLater (snd entry)) with
  | Done body =>
      if 0 <? length body then
        match targetPathFor parseURL (fst entry) outDir (Some ".wasm")
                (Some "application/wasm") None with
        | Done filePath =>
            if fsRejects filePath then [PendingDropped (fst entry) "EACCES"] else []
        | Thrown e => [PendingDropped (fst entry) e]
        end
      else []
  | Thrown e => [PendingDropped (fst entry) e]
  end.

Definition drainedUrl (entry : string * Response) : gset string :=
  match drainedFile entry with
  | [] => ∅
  | _ => {[fst entry]}
  end.

(** The steps of a session: the creation of the output directory, a
    response event, a routed request, one iteration of the page loop, the
    teardown after it. *)
Inductive Step : Session -> Session -> Prop :=
| StepEnsureDir (s : Session) :
    Step s (addEvent (DirEnsured outDir) s)
| StepResponse (r : Response) (s : Session) :
    Step s (fst (onResponse parseURL stamp fsRejects outDir mainSiteHostname r s))
| StepRoute (q : Route) (s : Session) :
    Step s (fst (onRoute parseURL fsRejects outDir mainSiteHostname q s))
| StepLoop (s : Session) :
    loopCond maxPages s = true ->
    Step s (fst (loopBody parseURL stamp fsRejects site outDir mainSiteHostname
                   maxPages s))
| StepTeardown (closing : Closing) (s : Session) :
    loopCond maxPages s = false ->
    Step s (fst (teardown parseURL stamp fsRejects outDir mainSiteHostname closing s)).

Definition Reachable (startUrl : string) (s : Session) : Prop :=
  rtc Step (initialSession startUrl) s.


Definition embeddedName (n : nat) : string := inlinePath outDir (stamp n).

Definition embeddedFiles (k : nat) (body : Buffer) : list (string * Buffer) :=
  stampFiles embeddedName k
    (List.filter keepsWasm
       (map decodeMatch (scanDataUrls 0 (Js.chars (string_of_list_byte body))))).

End Vocabulary.

(** ** A concrete platform for the examples *)

Module Demo.

Definition stamp (n : nat) : string :=
  "1700000000000_k" +:+ String (ascii_of_nat (97 + n mod 26)) "".

Definition accept (p : string) : bool := false.

Definition wasmBytes : Buffer := [x00; x61; x73; x6d; x01; x00; x00; x00].

Definition response (url resourceType contentType : string) (body : Buffer)
  : Response :=
  {| r_url := url; r_resourceType := resourceType;
     r_headers := {[ "content-type" := contentType ]};
     r_body := BodyOk body;
     r_bodyLater := {| settlesAfter := 40; settlesTo := BodyOk body |} |}.

Definition start : Session := initialSession "https://a.com/".

(** A script served by a third-party host. *)
Definition cdnScript : Response :=
  response "https://cdn.b.com/x.js" "script" "application/javascript"
    (list_byte_of_string "var x = 1;").

Definition cdnUrl : Url.t :=
  {| Url.hostname := "cdn.b.com"; Url.pathname := "/x.js";
     Url.origin := "https://cdn.b.com" |}.

Definition cdnRoute : Route :=
  {| q_url := "https://cdn.b.com/x.js"; q_fetch := Fetched true (BodyOk wasmBytes);
     q_fulfillThrows := None |}.

(** A WebAssembly module served as [text/html] from a path without hints. *)
Definition htmlWasm : Response :=
  response "https://a.com/mod" "fetch" "text/html" wasmBytes.

(** The same bytes and header, requested by a [script] element. *)
Definition htmlWasmScript : Response :=
  response "https://a.com/mod" "script" "text/html; charset=utf-8" wasmBytes.

Definition modUrl : Url.t :=
  {| Url.hostname := "a.com"; Url.pathname := "/mod"; Url.origin := "https://a.com" |}.

(** A [data:] URL that carries a module. *)
Definition dataWasm : Response :=
  response "data:application/wasm;base64,AGFzbQEAAAA=" "fetch" "application/wasm"
    wasmBytes.

(** An HTML error page answered for a [.wasm] URL. *)
Definition notWasm : Response :=
  response "https://cdn.b.com/lib/mod.wasm" "fetch" "text/html"
    (list_byte_of_string "<html>404</html>").

Definition libUrl : Url.t :=
  {| Url.hostname := "cdn.b.com"; Url.pathname := "/lib/mod.wasm";
     Url.origin := "https://cdn.b.com" |}.

(** A site that cannot be reached. *)
Definition offline (url : string) : PageScript :=
  {| gotoFails := fun _ => Some "net::ERR_NAME_NOT_RESOLVED";
     arrivedEarly := []; arrivedInDrain := []; arrivedLate := []; anchors := Done [] |}.

(** A home page with the same link twice. *)
Definition twoLinks (url : string) : PageScript :=
  {| gotoFails := fun _ => None; arrivedEarly := []; arrivedInDrain := []; arrivedLate := [];
     anchors :=
       if String.eqb url "https://a.com/"
       then Done ["https://a.com/b"; "https://a.com/b"]
       else Done [] |}.

(** A module whose body cannot be read when the response event fires. *)
Definition lateWasm : Response :=
  {| r_url := "https://a.com/m.wasm"; r_resourceType := "fetch";
     r_headers := {[ "content-type" := "application/wasm" ]};
     r_body := BodyThrows "No resource with given identifier found";
     r_bodyLater := {| settlesAfter := 60000; settlesTo := BodyOk wasmBytes |} |}.

(** A module whose body cannot be read when the response event fires and
    is there 300 ms after the drain asks for it. *)
Definition slowWasm : Response :=
  {| r_url := "https://a.com/slow.wasm"; r_resourceType := "fetch";
     r_headers := {[ "content-type" := "application/wasm" ]};
     r_body := BodyThrows "No resource with given identifier found";
     r_bodyLater := {| settlesAfter := 300; settlesTo := BodyOk wasmBytes |} |}.

(** A page that requests the two modules while it loads. *)
Definition twoModules (url : string) : PageScript :=
  {| gotoFails := fun _ => None; arrivedEarly := [slowWasm; lateWasm];
     arrivedInDrain := []; arrivedLate := []; anchors := Done [] |}.

(** A module requested so late that the handler of its response runs while
    the context closes, when the body cannot be read any more. *)
Definition closingWasm : Response :=
  {| r_url := "https://a.com/last.wasm"; r_resourceType := "fetch";
     r_headers := {[ "content-type" := "application/wasm" ]};
     r_body := BodyThrows "Target page, context or browser has been closed";
     r_bodyLater := {| settlesAfter := 0;
                       settlesTo := BodyThrows "Target page, context or browser has been closed" |} |}.

Definition lateClose : Closing :=
  {| arrivedInLastDrain := []; arrivedAtClose := [closingWasm] |}.


(** A local page with a mail link, a link to a web site and a [data:]
    link. *)
Definition localPage (url : string) : PageScript :=
  {| gotoFails := fun _ => None; arrivedEarly := []; arrivedInDrain := [];
     arrivedLate := [];
     anchors := Done ["mailto:me@a.com"; "https://a.com/"; "data:text/html,hello"] |}.

(** Nothing arrives once the page loop is over. *)
Definition quietClose : Closing :=
  {| arrivedInLastDrain := []; arrivedAtClose := [] |}.

(** A script that embeds a module as a data URL. *)
Definition loaderBody : Buffer :=
  list_byte_of_string "var m = 'data:application/wasm;base64,AGFzbQEAAAA=';".

Definition loader : Response :=
  response "https://a.com/app.js" "script" "application/javascript" loaderBody.

(** The same, with a payload that is not base64: nine characters. *)
Definition oddLoader : Response :=
  response "https://a.com/app.js" "script" "application/javascript"
    (list_byte_of_string "var m = 'data:application/wasm;base64,AGFzbQEAA';").

(** The data URL directly after the pattern's own prefix. *)
Definition shadowedLoader : Response :=
  response "https://a.com/app.js" "script" "application/javascript"
    (list_byte_of_string
       "data:application/wasm;base64,data:application/wasm;base64,AGFzbQEAAAA=").

Definition appUrl : Url.t :=
  {| Url.hostname := "a.com"; Url.pathname := "/app.js"; Url.origin := "https://a.com" |}.

(** Three requests to the compiler service that the router intercepts:
    the body of the response cannot be read; the request cannot be fetched;
    the response cannot be relayed to the page. *)
Definition brokenRoute : Route :=
  {| q_url := "https://x.org/compile?wasi&target=arduino";
     q_fetch := Fetched true (BodyThrows "Response body is unavailable");
     q_fulfillThrows := None |}.

Definition unreachableRoute : Route :=
  {| q_url := "https://x.org/compile?wasi&target=arduino";
     q_fetch := FetchThrows "net::ERR_FAILED"; q_fulfillThrows := None |}.

Definition unrelayedRoute : Route :=
  {| q_url := "https://x.org/compile?wasi&target=arduino";
     q_fetch := Fetched true (BodyOk wasmBytes);
     q_fulfillThrows := Some "Route is already handled!" |}.

End Demo.

Definition afterHome : Session :=
  fst (loopBody Url.parse Demo.stamp Demo.accept Demo.twoLinks "out" "a.com" 3
         Demo.start).

Definition afterLink : Session :=
  fst (loopBody Url.parse Demo.stamp Demo.accept Demo.twoLinks "out" "a.com" 3
         afterHome).

(** A crawl of one page that requests two modules, and a third one so
    late that its handler runs after the last drain. *)
Definition lateCrawl : option (Session * outcome unit) :=
  crawl Url.parse Demo.stamp Demo.accept Demo.twoModules Demo.lateClose Demo.accept
    "https://a.com/" "out" 1 2.

(** ** Vocabulary of the further properties *)

(** A path component that [path.normalize] keeps as it is: not empty,
    without a separator, and neither [.] nor [..]. *)
Definition notSlash (c : ascii) : bool := negb (Ascii.eqb c Path.slash).

Definition isDots (seg : list ascii) : bool :=
  match seg with
  | [d] => Ascii.eqb d Path.dot
  | [d1; d2] => Ascii.eqb d1 Path.dot && Ascii.eqb d2 Path.dot
  | _ => false
  end.

Definition plainChars (seg : list ascii) : bool :=
  negb (length seg =? 0) && forallb notSlash seg && negb (isDots seg).

Definition plainSegment (seg : string) : bool := plainChars (Js.chars seg).

(** A component under a directory, the directory being left out when it
    is the empty string, as [path.join] does. *)
Definition under (dir seg : list ascii) : list ascii :=
  match dir with
  | [] => seg
  | _ => dir ++ Path.slash :: seg
  end.

(** What may follow the extension in the patterns [\.(?:wasm)(?:\?|#|$)]
    and [\.(?:m?js)(?:\?|#|$)]: nothing, a query or a fragment. *)
Definition endsExtension (tail : list ascii) : bool :=
  match tail with
  | [] => true
  | c :: _ => Ascii.eqb c "?" || Ascii.eqb c "#"
  end.

(** The two extensions the handlers classify a body with. *)
Definition isClassExt (ext : string) : Prop := ext = ".js" \/ ext = ".wasm".

Definition classifiedSynthetic (outDir url : string) (pb : string * Buffer) : Prop :=
  Js.startsWith url "data:" = true /\
  exists name ext,
    isClassExt ext /\ fst pb = Path.join [outDir; "inline/" +:+ name +:+ ext].

Definition classifiedResolved (parseURL : string -> option Url.t)
    (outDir url : string) (main : option string) (pb : string * Buffer) : Prop :=
  exists ext ct,
    isClassExt ext
    /\ targetPathFor parseURL url outDir (Some ext) ct main = Done (fst pb).

Definition classifiedFile (outDir : string) (u : Url.t) (main : option string)
    (pb : string * Buffer) : Prop :=
  exists ext bucket,
    isClassExt ext /\ (bucket = "js" \/ bucket = "wasm")
    /\ fst pb =
       Path.join [outDir; sanitizeFilename (targetHostnameFor u main); bucket;
                  sanitizeFilename (targetFileNameFor u (Some ext) None main)].

(** The router's test of line 345. *)
Definition isCompileRequest (url : string) : bool :=
  Js.includes url "compile" && Js.includes url "wasi"
  && Js.includes url "target=arduino".

(** An occurrence of the extractor's pattern in a text: the literal, then
    a run of class characters that is not empty and cannot be extended. *)
Definition matchAt (text a m b : list ascii) : Prop :=
  text = a ++ dataUrlPrefix ++ m ++ b
  /\ m <> [] /\ Forall (fun c => Base64.inClass c = true) m
  /\ match b with
     | [] => True
     | c :: _ => Base64.inClass c = false
     end.

(** An inline module extracted from a text: its bytes are the lenient
    decoding of a payload of the pattern in the text and begin with the magic
    number, and it is written under [inline/embedded_]. *)
Definition extractedFrom (stamp : nat -> string) (outDir : string)
    (text : list ascii) (pb : string * Buffer) : Prop :=
  exists a m b n,
    matchAt text a m b
    /\ snd pb = Base64.decode (Js.str m)
    /\ isWasmByMagic (snd pb) = true
    /\ fst pb = Path.join [outDir; "inline/embedded_" +:+ stamp n +:+ ".wasm"].

(** The navigations and the waits of [k] attempts, the first of them
    numbered [attempt]: no wait follows the last one. *)
Fixpoint attempts (url : string) (k attempt : nat) : list Event :=
  match k with
  | 0 => []
  | S k' =>
      Goto url attempt ::
      match k' with
      | 0 => []
      | S _ => WaitForTimeout (attempt * 2000) :: attempts url k' (S attempt)
      end
  end.

Definition addEvents (es : list Event) (s : Session) : Session :=
  fold_left (fun st e => addEvent e st) es s.

Definition waited (es : list Event) : nat :=
  list_sum (map (fun e => match e with WaitForTimeout ms => ms | _ => 0 end) es).

Definition navigations (es : list Event) : nat :=
  length (List.filter (fun e => match e with Goto _ _ => true | _ => false end) es).

(** An invariant of the session that a command keeps. *)
Definition keeps (I : Session -> Prop) (s s' : Session) : Prop := I s -> I s'.

(** The [pendingResponses] map holds one entry per URL, each the response
    of that URL, taken for WASM by the heuristics. *)
Definition pendingEntry (entry : string * Response) : Prop :=
  r_url (snd entry) = fst entry /\ fst entry <> ""
  /\ isLikelyWasmByHeuristics (contentTypeOf (snd entry)) (fst entry) = true.

Definition pendingWellFormed (s : Session) : Prop :=
  NoDup (map fst (pendingResponses s)) /\ Forall pendingEntry (pendingResponses s).


(** The events that open and close a page. *)
Definition isPageEvent (e : Event) : bool :=
  match e with
  | NewPage _ | PageClosed => true
  | _ => false
  end.

Definition openedUrls (t : list Event) : list string :=
  flat_map (fun e => match e with NewPage url => [url] | _ => [] end) t.

Definition closedPages (t : list Event) : nat :=
  length (List.filter (fun e => match e with PageClosed => true | _ => false end) t).


(** Every field but the queue is left as it was. *)
Definition sameButQueue (s s' : Session) : Prop :=
  visited s' = visited s /\ saved s' = saved s
  /\ pendingResponses s' = pendingResponses s /\ files s' = files s
  /\ trace s' = trace s /\ draws s' = draws s.

(** No page is opened or closed, and no URL is marked visited. *)
Definition quiet (s s' : Session) : Prop :=
  visited s' = visited s
  /\ exists mid, trace s' = trace s ++ mid
                 /\ Forall (fun e => isPageEvent e = false) mid.

(** Every page that was opened is closed, each URL was opened once, and
    the URLs opened are the visited ones. *)
Definition pagesAccounted (s : Session) : Prop :=
  NoDup (openedUrls (trace s))
  /\ (forall url, In url (openedUrls (trace s)) <-> url ∈ visited s)
  /\ closedPages (trace s) = length (openedUrls (trace s)).

(** Once [maxPages] pages are visited the queue is left alone. *)
Definition budgetSpent (maxPages : nat) (s s' : Session) : Prop :=
  visited s' = visited s
  /\ (maxPages <= size (visited s) -> toVisit s' = toVisit s).

Section Visit.

Variable parseURL : string -> option Url.t.
Variable stamp : nat -> string.
Variable fsRejects : string -> bool.
Variable outDir mainSiteHostname : string.
Variable maxPages : nat.

(** The body of the [try] of one page visit (lines 416-440) with the
    responses that reach the handler before and after it: the part of
    [loopBody] between the opening and the closing of the page. *)
Definition visitPage (page : PageScript) (url : string) : Exec unit :=
  forEach (arrivedEarly page)
    (onResponse parseURL stamp fsRejects outDir mainSiteHostname) ;;;
  tryCatch
    (navigateWithRetry page url 3 ;;;
     emit (WaitForTimeout 5000) ;;;
     emit (WaitForTimeout 2000) ;;;
     processPendingResponses parseURL stamp fsRejects outDir mainSiteHostname
       (arrivedInDrain page) ;;;
     s1 <- get ;;
     if size (visited s1) <? maxPages then
       hrefs <- lift (anchors page) ;;
       harvestLinks parseURL url (List.filter (fun h => negb (String.eqb h "")) hrefs)
     else ret tt)
    (fun e => emit (ConsoleError (errorKind e) url)) ;;;
  forEach (arrivedLate page)
    (onResponse parseURL stamp fsRejects outDir mainSiteHostname).

(** [new URL(a).origin === new URL(b).origin], both constructors
    returning: the two origins are compared as they are serialised. *)
Definition sameOriginText (a b : string) : Prop :=
  exists ua ub, parseURL a = Some ua /\ parseURL b = Some ub
                /\ Url.origin ub = Url.origin ua.

(** The queue only receives URLs whose origin reads as that of [url]. *)
Definition queuesFrom (url : string) (s s' : Session) : Prop :=
  visited s' = visited s
  /\ exists new, toVisit s' = toVisit s ++ new /\ Forall (sameOriginText url) new.

(** The origin of every URL queued or visited reads as that of the start
    URL. *)
Definition onOrigin (startUrl : string) (s : Session) : Prop :=
  Forall (sameOriginText startUrl) (toVisit s)
  /\ forall url, url ∈ visited s -> sameOriginText startUrl url.

(** A file written for a URL: its synthetic [inline/] file, or the file
    at a path resolved from the URL. *)
Definition writtenFor (url : string) (pb : string * Buffer) : Prop :=
  classifiedSynthetic outDir url pb
  \/ exists main, classifiedResolved parseURL outDir url main pb.

Definition savedAreWritten (s : Session) : Prop :=
  forall url, url ∈ saved s -> exists pb, In pb (files s) /\ writtenFor url pb.

(** Files are only added, and a URL is marked saved along with a file
    written for it. *)
Definition marks (s s' : Session) : Prop :=
  exists new,
    files s' = files s ++ new
    /\ forall url, url ∈ saved s' ->
         url ∈ saved s \/ exists pb, In pb new /\ writtenFor url pb.

End Visit.

(** ** Further inputs for the examples *)

(** A page that loads at the second attempt. *)
Definition flaky (url : string) : PageScript :=
  {| gotoFails := fun attempt => if attempt =? 1 then Some "net::ERR_TIMED_OUT" else None;
     arrivedEarly := []; arrivedInDrain := []; arrivedLate := []; anchors := Done [] |}.

(** A request to the compiler service, fetched and relayed. *)
Definition compileRoute : Route :=
  {| q_url := "https://x.org/compile?wasi&target=arduino";
     q_fetch := Fetched true (BodyOk Demo.wasmBytes);
     q_fulfillThrows := None |}.

Definition compileUrl : Url.t :=
  {| Url.hostname := "x.org"; Url.pathname := "/compile";
     Url.origin := "https://x.org" |}.

(** The session after the third-party script of the examples was saved. *)
Definition afterScript : Session :=
  fst (onResponse Url.parse Demo.stamp Demo.accept "out" "a.com" Demo.cdnScript
         Demo.start).

(** The session after a WASM response whose body could not be read. *)
Definition afterLate : Session :=
  fst (onResponse Url.parse Demo.stamp Demo.accept "out" "a.com" Demo.lateWasm
         Demo.start).

(** The session after the visit of the local page, started from its
    [file:] URL with a budget of two pages. *)
Definition afterLocal : Session :=
  fst (loopBody Url.parse Demo.stamp Demo.accept Demo.localPage "out" "" 2
         (initialSession "file:///srv/index.html")).


(** The session of the examples with a budget of one page, after the home
    page, which holds two links, was visited. *)
Definition afterOnlyPage : Session :=
  fst (loopBody Url.parse Demo.stamp Demo.accept Demo.twoLinks "out" "a.com" 1
         Demo.start).

(** * Properties *)

Set Default Proof Using "Type".

(** ** The platform models on examples *)

Example extname_of_script : Path.extname "x.js" = ".js".
Proof. reflexivity. Qed.

Example extname_of_dotfile : Path.extname ".index" = "".
Proof. reflexivity. Qed.

Example extname_of_last_dot : Path.extname ".index.md" = ".md".
Proof. reflexivity. Qed.

Example extname_of_dots : Path.extname ".." = "" /\ Path.extname "index." = ".".
Proof. split; reflexivity. Qed.

Example join_of_segments :
  Path.join ["out"; "a.com"; "js"; "x.js"] = "out/a.com/js/x.js".
Proof. reflexivity. Qed.

Example join_normalizes :
  Path.join ["/out/"; ""; "js"; ".."] = "/out"
  /\ Path.join ["./out"; "a//b"] = "out/a/b"
  /\ Path.join ["../x"; "../../y/"] = "../../y/".
Proof. repeat split; reflexivity. Qed.

Example decode_of_magic :
  Base64.decode "AGFzbQEAAAA=" = [x00; x61; x73; x6d; x01; x00; x00; x00].
Proof. reflexivity. Qed.

Example decode_stops_at_padding :
  Base64.decode "SGVsbG8=V29ybGQ=" = list_byte_of_string "Hello".
Proof. reflexivity. Qed.

Example base64_well_formed :
  wellFormedBase64 "AGFzbQEAAAA=" = true /\ wellFormedBase64 "AGFzbQEAAAA" = false
  /\ wellFormedBase64 "AGFz=QEA" = false.
Proof. repeat split; reflexivity. Qed.

Example decode_of_incomplete_group :
  Base64.decode "AGFzbQEAA" = [x00; x61; x73; x6d; x01; x00].
Proof. reflexivity. Qed.

Example parse_of_https :
  Url.parse "https://user:pw@CDN.b.com:8080/p/q/?x=1#f"
  = Some {| Url.hostname := "cdn.b.com"; Url.pathname := "/p/q/";
            Url.origin := "https://cdn.b.com:8080" |}.
Proof. reflexivity. Qed.

Example parse_of_data_url :
  Url.parse "data:application/wasm;base64,AGFzbQEAAAA="
  = Some {| Url.hostname := ""; Url.pathname := "application/wasm;base64,AGFzbQEAAAA=";
            Url.origin := "null" |}.
Proof. reflexivity. Qed.

Example parse_of_relative : Url.parse "/about.html" = None.
Proof. reflexivity. Qed.

Example heuristics_on_urls :
  isLikelyWasmByHeuristics None "https://a.com/pkg/app.WASM?v=2" = true
  /\ isLikelyWasmByHeuristics None "https://a.com/wasmer.html" = false
  /\ isLikelyJsByHeuristics None "https://a.com/app.mjs#x" = true
  /\ isLikelyJsByHeuristics None "https://a.com/app.json" = false
  /\ isLikelyJsByHeuristics (Some "Text/JavaScript") "https://a.com/x" = true.
Proof. repeat split; reflexivity. Qed.

Example file_names :
  fileNameFor "/p/q/" (Some ".js") None = "p_q_index.js"
  /\ fileNameFor "/" None (Some "application/wasm") = "index.wasm"
  /\ fileNameFor "/lib/mod.wasm" (Some ".js") None = "lib_mod.wasm"
  /\ fileNameFor "/mod" None (Some "text/html") = "mod".
Proof. repeat split; reflexivity. Qed.

Lemma chars_str (l : list ascii) : Js.chars (Js.str l) = l.
Proof. apply list_ascii_of_string_of_list_ascii. Qed.

Lemma str_chars (s : string) : Js.str (Js.chars s) = s.
Proof. apply string_of_list_ascii_of_string. Qed.

(** ** Strings and lists *)

Lemma startsL_app (p x : list ascii) : Js.startsL p (p ++ x) = true.
Proof.
  induction p as [|c p IH]; simpl; [reflexivity|].
  rewrite Ascii.eqb_refl. exact IH.
Qed.

Lemma startsL_inv (p s : list ascii) :
  Js.startsL p s = true -> exists x, s = p ++ x.
Proof.
  revert s. induction p as [|c p IH]; intros s H.
  - exists s. reflexivity.
  - destruct s as [|d s]; simpl in H; [discriminate|].
    apply andb_true_iff in H as [Hc Hs].
    apply Ascii.eqb_eq in Hc. subst d.
    destruct (IH _ Hs) as [x ->]. exists x. reflexivity.
Qed.

Lemma span_app (p : ascii -> bool) (l : list ascii) :
  l = fst (Url.span p l) ++ snd (Url.span p l).
Proof.
  induction l as [|c l IH]; simpl; [reflexivity|].
  destruct (p c); [|reflexivity].
  destruct (Url.span p l) as [a b]. simpl in *. congruence.
Qed.

Lemma span_fst_all (p : ascii -> bool) (l : list ascii) :
  Forall (fun c => p c = true) (fst (Url.span p l)).
Proof.
  induction l as [|c l IH]; simpl; [constructor|].
  destruct (p c) eqn:E; [|constructor].
  destruct (Url.span p l) as [a b]. simpl in *. constructor; assumption.
Qed.

Lemma span_all_app (p : ascii -> bool) (a b : list ascii) :
  Forall (fun c => p c = true) a ->
  Url.span p (a ++ b) = (a ++ fst (Url.span p b), snd (Url.span p b)).
Proof.
  induction 1 as [|c a Hc _ IH]; simpl.
  - destruct (Url.span p b); reflexivity.
  - rewrite Hc, IH. reflexivity.
Qed.

Lemma chars_of_bytes (b : Buffer) :
  Js.chars (string_of_list_byte b) = map ascii_of_byte b.
Proof.
  unfold Js.chars, string_of_list_byte.
  apply list_ascii_of_string_of_list_ascii.
Qed.

Lemma chars_append (a b : string) : Js.chars (a +:+ b) = Js.chars a ++ Js.chars b.
Proof.
  unfold Js.chars. induction a as [|c a IH]; simpl; [reflexivity|].
  rewrite IH. reflexivity.
Qed.

Lemma chars_length (s : string) : length (Js.chars s) = String.length s.
Proof.
  unfold Js.chars. induction s as [|c s IH]; simpl; [reflexivity|].
  rewrite IH. reflexivity.
Qed.

(** ** sanitizeFilename *)

Lemma cleanChar_safe (c : ascii) : isSafeChar (cleanChar c) = true.
Proof.
  unfold cleanChar. destruct (isSafeChar c) eqn:E; [exact E | reflexivity].
Qed.

Lemma cleanChar_fixes_safe (c : ascii) : isSafeChar c = true -> cleanChar c = c.
Proof. unfold cleanChar. intros ->. reflexivity. Qed.

Lemma sanitize_chars (s : string) :
  Js.chars (sanitizeFilename s) = firstn 200 (map cleanChar (Js.chars s)).
Proof.
  unfold sanitizeFilename.
  destruct (200 <? length (map cleanChar (Js.chars s))) eqn:E;
    rewrite chars_str; [reflexivity|].
  apply Nat.ltb_ge in E. symmetry. apply firstn_all2. exact E.
Qed.

Lemma sanitize_length (s : string) : String.length (sanitizeFilename s) <= 200.
Proof.
  rewrite <- chars_length, sanitize_chars. apply firstn_le_length.
Qed.

Lemma sanitize_safe (s : string) :
  Forall (fun c => isSafeChar c = true) (Js.chars (sanitizeFilename s)).
Proof.
  rewrite sanitize_chars. apply Forall_take.
  apply Forall_map. apply Forall_forall. intros c _. apply cleanChar_safe.
Qed.

Lemma cleanChar_on_safe (l : list ascii) :
  Forall (fun c => isSafeChar c = true) l -> map cleanChar l = l.
Proof.
  induction 1 as [|c l Hc _ IH]; simpl; [reflexivity|].
  rewrite IH, (cleanChar_fixes_safe _ Hc). reflexivity.
Qed.

Lemma sanitize_idempotent (s : string) :
  sanitizeFilename (sanitizeFilename s) = sanitizeFilename s.
Proof.
  rewrite <- (str_chars (sanitizeFilename (sanitizeFilename s))).
  rewrite sanitize_chars, (cleanChar_on_safe _ (sanitize_safe s)).
  rewrite firstn_all2.
  - apply str_chars.
  - rewrite chars_length. apply sanitize_length.
Qed.

Lemma sanitize_prefix_kept (h rest : string) :
  Js.startsWith (sanitizeFilename (sanitizeFilename h +:+ rest)) (sanitizeFilename h) = true.
Proof.
  unfold Js.startsWith. rewrite (sanitize_chars (_ +:+ _)), chars_append, map_app.
  rewrite firstn_app.
  assert (E : firstn 200 (map cleanChar (Js.chars (sanitizeFilename h)))
              = Js.chars (sanitizeFilename h)).
  { rewrite firstn_all2.
    - apply cleanChar_on_safe, sanitize_safe.
    - rewrite length_map, chars_length. apply sanitize_length. }
  rewrite E. apply startsL_app.
Qed.

(** ** The handlers, step by step *)

Lemma grows_refl P s : grows P s s.
Proof. exists []. split; [symmetry; apply app_nil_r | constructor]. Qed.

Lemma grows_trans P s1 s2 s3 : grows P s1 s2 -> grows P s2 s3 -> grows P s1 s3.
Proof.
  intros [n1 [E1 F1]] [n2 [E2 F2]]. exists (n1 ++ n2). split.
  - rewrite E2, E1. symmetry. apply app_assoc.
  - apply Forall_app. split; assumption.
Qed.

Lemma grows_weaken (P Q : string * Buffer -> Prop) s s' :
  (forall pb, P pb -> Q pb) -> grows P s s' -> grows Q s s'.
Proof.
  intros HPQ [n [E F]]. exists n. split; [exact E|].
  eapply Forall_impl; [exact F | exact HPQ].
Qed.

Lemma grows_one (P : string * Buffer -> Prop) s path buffer :
  P (path, buffer) -> grows P s (addFile path buffer s).
Proof. intros H. exists [(path, buffer)]. split; [reflexivity | repeat constructor; exact H]. Qed.

Lemma queues_refl s : queues s s.
Proof.
  split; [reflexivity|]. split; [reflexivity|].
  exists []. split; [symmetry; apply app_nil_r | constructor].
Qed.

Lemma queues_trans s1 s2 s3 : queues s1 s2 -> queues s2 s3 -> queues s1 s3.
Proof.
  intros (V1 & S1 & n1 & E1 & F1) (V2 & S2 & n2 & E2 & F2).
  split; [congruence|]. split; [etrans; eassumption|].
  exists (n1 ++ n2). split.
  - rewrite E2, E1. symmetry. apply app_assoc.
  - apply Forall_app. split; [exact F1|]. rewrite <- V1. exact F2.
Qed.

Section Respects.

Variable Q : Session -> Session -> Prop.
Hypothesis Q_refl : forall s, Q s s.
Hypothesis Q_trans : forall s1 s2 s3, Q s1 s2 -> Q s2 s3 -> Q s1 s3.

Lemma respects_ret {A} (a : A) : respects Q (ret a).
Proof using Q_refl. intros s. apply Q_refl. Qed.

Lemma respects_throw {A} (e : string) : respects Q (@throw A e).
Proof using Q_refl. intros s. apply Q_refl. Qed.

Lemma respects_lift {A} (r : outcome A) : respects Q (lift r).
Proof using Q_refl. intros s. apply Q_refl. Qed.

Lemma respects_get : respects Q get.
Proof using Q_refl. intros s. apply Q_refl. Qed.

Lemma respects_modify (f : Session -> Session) :
  (forall s, Q s (f s)) -> respects Q (modify f).
Proof using Type. intros H s. apply H. Qed.

Lemma respects_bind {A B} (m : Exec A) (k : A -> Exec B) :
  respects Q m -> (forall a, respects Q (k a)) -> respects Q (bind m k).
Proof using Q_trans.
  intros Hm Hk s. unfold bind. specialize (Hm s).
  destruct (m s) as [s1 [a|e]]; simpl in *; [|exact Hm].
  eapply Q_trans; [exact Hm | apply Hk].
Qed.

Lemma respects_tryCatch {A} (m : Exec A) (h : string -> Exec A) :
  respects Q m -> (forall e, respects Q (h e)) -> respects Q (tryCatch m h).
Proof using Q_trans.
  intros Hm Hh s. unfold tryCatch. specialize (Hm s).
  destruct (m s) as [s1 [a|e]]; simpl in *; [exact Hm|].
  eapply Q_trans; [exact Hm | apply Hh].
Qed.

Lemma respects_tryFinally {A} (m : Exec A) (f : Session -> Session) :
  respects Q m -> (forall s, Q s (f s)) -> respects Q (tryFinally m f).
Proof using Q_trans.
  intros Hm Hf s. unfold tryFinally. specialize (Hm s).
  destruct (m s) as [s1 r]; simpl in *.
  eapply Q_trans; [exact Hm | apply Hf].
Qed.

Lemma respects_forEach {A} (l : list A) (f : A -> Exec unit) :
  (forall a, respects Q (f a)) -> respects Q (forEach l f).
Proof using Q_refl Q_trans.
  intros Hf. induction l as [|a l IH]; simpl.
  - apply respects_ret.
  - apply respects_bind; [apply Hf | intros _; exact IH].
Qed.

(** A drain respects what the handler, the body of its loop, its first
    console line and the [clear] respect. *)
Section Drain.

Variable parseURL : string -> option Url.t.
Variable stamp : nat -> string.
Variable fsRejects : string -> bool.
Variable outDir mainSiteHostname : string.

Hypothesis Q_handler :
  forall r, respects Q (onResponse parseURL stamp fsRejects outDir mainSiteHostname r).
Hypothesis Q_drainOne : forall entry, respects Q (drainOne parseURL fsRejects outDir entry).

Lemma respects_drainFrom (arrivals : list (list Response)) (position : nat) :
  respects Q (drainFrom parseURL stamp fsRejects outDir mainSiteHostname arrivals position).
Proof using Q_refl Q_trans Q_handler Q_drainOne.
  revert position. induction arrivals as [|batch later IH]; intros position.
  - intros s. apply (respects_forEach _ _ Q_drainOne s).
  - intros s. simpl. unfold bind at 1, get at 1.
    destruct (nth_error (pendingResponses s) position) as [entry|]; [|apply Q_refl].
    revert s. apply respects_bind; [apply respects_forEach, Q_handler|]. intros _.
    apply respects_bind; [apply Q_drainOne|]. intros _. apply IH.
Qed.

Lemma respects_drain (arrivals : list (list Response)) :
  (forall n, respects Q (emit (PendingStart n))) ->
  (forall s, Q s (setPending [] s)) ->
  respects Q (processPendingResponses parseURL stamp fsRejects outDir mainSiteHostname
                arrivals).
Proof using Q_refl Q_trans Q_handler Q_drainOne.
  intros Hstart Hclear. unfold processPendingResponses.
  apply respects_bind; [apply respects_get|]. intros s0.
  apply respects_bind; [apply Hstart|]. intros _.
  apply respects_bind; [apply respects_drainFrom|]. intros _.
  apply respects_modify, Hclear.
Qed.

End Drain.

End Respects.

Section Facts.

Variable parseURL : string -> option Url.t.
Variable stamp : nat -> string.
Variable fsRejects : string -> bool.
Variable site : string -> PageScript.
Variable outDir mainSiteHostname : string.
Variable maxPages : nat.

Lemma forEach_cons {A} (a : A) (l : list A) (f : A -> Exec unit) (s : Session) :
  forEach (a :: l) f s =
  match f a s with
  | (s', Done _) => forEach l f s'
  | (s', Thrown e) => (s', Thrown e)
  end.
Proof. reflexivity. Qed.

Lemma extractOne_run (m : list ascii) (s : Session) :
  let s' := fst (extractOne stamp fsRejects outDir m s) in
  grows (embeddedFile outDir) s s' /\ course s' = course s /\ saved s' = saved s
  /\ pendingResponses s' = pendingResponses s.
Proof.
  unfold extractOne. cbv zeta.
  destruct ((0 <? length (Base64.decode (Js.str m)))
            && isWasmByMagic (Base64.decode (Js.str m))) eqn:K.
  - unfold bind, freshStamp, saveBuffer.
    destruct (fsRejects (inlinePath outDir (stamp (draws s)))) eqn:R; simpl.
    + split; [exists []; split; [symmetry; apply app_nil_r | constructor] | auto].
    + split; [|auto].
      exists [(inlinePath outDir (stamp (draws s)), Base64.decode (Js.str m))].
      split; [reflexivity|]. repeat constructor; simpl.
      * eexists. reflexivity.
      * apply andb_true_iff in K. apply K.
  - simpl. split; [apply grows_refl | auto].
Qed.

Lemma extract_each (matches : list (list ascii)) (s : Session) :
  let s' := fst (forEach matches (extractOne stamp fsRejects outDir) s) in
  grows (embeddedFile outDir) s s' /\ course s' = course s /\ saved s' = saved s
  /\ pendingResponses s' = pendingResponses s.
Proof.
  cbv zeta. revert s. induction matches as [|m ms IH]; intros s.
  - simpl. split; [apply grows_refl | auto].
  - rewrite forEach_cons.
    pose proof (extractOne_run m s) as H1. cbv zeta in H1.
    destruct (extractOne stamp fsRejects outDir m s) as [s1 [[]|e]]; simpl in H1.
    + destruct H1 as (G1 & C1 & S1 & P1). destruct (IH s1) as (G & C & S & Pn).
      split; [eapply grows_trans; eassumption|].
      rewrite C, S, Pn. auto.
    + exact H1.
Qed.

Lemma extract_run (body : Buffer) (s : Session) :
  exists s', extractInlineWasm stamp fsRejects outDir body s = (s', Done tt)
    /\ grows (embeddedFile outDir) s s' /\ course s' = course s /\ saved s' = saved s
    /\ pendingResponses s' = pendingResponses s.
Proof.
  unfold extractInlineWasm, tryCatch.
  pose proof (extract_each (scanDataUrls 0 (Js.chars (string_of_list_byte body))) s) as H.
  cbv zeta in H.
  destruct (forEach _ _ s) as [s' [[]|e]]; simpl in H; exists s'; split; try reflexivity; exact H.
Qed.

Lemma saveWasmNow_run (url : string) (body : BodyRead) (s : Session) :
  let s' := fst (saveWasmNow parseURL fsRejects outDir mainSiteHostname url body s) in
  grows ((resolvedFile parseURL outDir) url (Some mainSiteHostname)) s s' /\ course s' = course s
  /\ saved s ⊆ saved s' /\ pendingResponses s' = pendingResponses s.
Proof.
  unfold saveWasmNow, bind, lift, modify. cbv zeta.
  destruct (readBody body) as [b|e]; simpl; [|split; [apply grows_refl | auto]].
  destruct (0 <? length b); simpl; [|split; [apply grows_refl | auto]].
  destruct (targetPathFor parseURL url outDir (Some ".wasm") (Some "application/wasm")
              (Some mainSiteHostname)) as [filePath|e] eqn:T; simpl;
    [|split; [apply grows_refl | auto]].
  unfold saveBuffer. destruct (fsRejects filePath); simpl;
    [split; [apply grows_refl | auto]|].
  split; [|split; [reflexivity | split; [apply union_subseteq_r | reflexivity]]].
  apply grows_one. exists (Some ".wasm"), (Some "application/wasm"). exact T.
Qed.

Lemma onResponse_run (r : Response) (s : Session) :
  exists s',
    onResponse parseURL stamp fsRejects outDir mainSiteHostname r s = (s', Done tt)
    /\ grows ((responseFile parseURL outDir mainSiteHostname) (r_url r)) s s' /\ course s' = course s
    /\ saved s ⊆ saved s'.
Proof.
  unfold onResponse. unfold tryCatch at 1. unfold bind at 1. unfold get at 1.
  destruct (String.eqb (r_url r) "" || has (saved s) (r_url r));
    [exists s; split; [reflexivity | split; [apply grows_refl | auto]]|].
  destruct (negb (shouldProcessOf r));
    [exists s; split; [reflexivity | split; [apply grows_refl | auto]]|].
  destruct (isLikelyWasmByHeuristics (contentTypeOf r) (r_url r)).
  - unfold tryCatch.
    pose proof (saveWasmNow_run (r_url r) (r_body r) s) as H. cbv zeta in H.
    destruct (saveWasmNow _ _ _ _ _ _ s) as [s1 [[]|e]]; simpl in H;
      destruct H as (G & C & S & Pn).
    + exists s1. split; [reflexivity|]. split; [|auto].
      eapply grows_weaken; [|exact G]. intros pb Hpb. right. right. exact Hpb.
    + eexists. split; [reflexivity|]. split; [|split; [exact C | exact S]].
      destruct G as [new [E F]]. exists new. split; [exact E|].
      eapply Forall_impl; [exact F|]. intros pb Hpb. right. right. exact Hpb.
  - destruct (r_body r) as [body|e];
      [|exists s; split; [reflexivity | split; [apply grows_refl | auto]]].
    destruct (length body =? 0);
      [exists s; split; [reflexivity | split; [apply grows_refl | auto]]|].
    set (defaultExt := defaultExtOf _ _ _ _ _ _ _).
    unfold bind at 1.
    destruct (Js.startsWith (r_url r) "data:") eqn:D.
    + unfold bind at 1, freshStamp, ret at 1. unfold bind at 1, saveBuffer at 1.
      destruct (fsRejects _) eqn:R.
      * eexists. split; [reflexivity|]. split; [|auto].
        exists []. split; [symmetry; apply app_nil_r | constructor].
      * unfold bind at 1, modify at 1.
        match goal with
        | |- context [if ?c then extractInlineWasm _ _ _ _ else _] => destruct c
        end.
        -- match goal with
           | |- context [extractInlineWasm _ _ _ ?b ?st] =>
               destruct (extract_run b st) as (s2 & E2 & G2 & C2 & S2 & _)
           end.
           rewrite E2. exists s2. split; [reflexivity|].
           split; [|split; [rewrite C2; reflexivity | rewrite S2; simpl; apply union_subseteq_r]].
           eapply grows_trans;
             [|eapply grows_weaken; [|exact G2]; intros pb Hpb; left; exact Hpb].
           exists [(Path.join [outDir; "inline/" +:+ stamp (draws s) +:+ default "" defaultExt],
                    body)].
           split; [reflexivity|]. constructor; [|constructor]. right. left.
           split; [exact D|].
           exists (stamp (draws s)), (default "" defaultExt). reflexivity.
        -- eexists. split; [reflexivity|].
           split; [|split; [reflexivity | simpl; apply union_subseteq_r]].
           exists [(Path.join [outDir; "inline/" +:+ stamp (draws s) +:+ default "" defaultExt],
                    body)].
           split; [reflexivity|]. constructor; [|constructor]. right. left.
           split; [exact D|].
           exists (stamp (draws s)), (default "" defaultExt). reflexivity.
    + unfold lift at 1.
      destruct (targetPathFor parseURL (r_url r) outDir defaultExt (contentTypeOf r)
                  (Some mainSiteHostname)) as [filePath|e] eqn:T;
        [|exists s; split; [reflexivity | split; [apply grows_refl | auto]]].
      unfold bind at 1, saveBuffer at 1.
      destruct (fsRejects filePath) eqn:R;
        [exists s; split; [reflexivity | split; [apply grows_refl | auto]]|].
      unfold bind at 1, modify at 1.
      match goal with
      | |- context [if ?c then extractInlineWasm _ _ _ _ else _] => destruct c
      end.
      * match goal with
        | |- context [extractInlineWasm _ _ _ ?b ?st] =>
            destruct (extract_run b st) as (s2 & E2 & G2 & C2 & S2 & _)
        end.
        rewrite E2. exists s2. split; [reflexivity|].
        split; [|split; [rewrite C2; reflexivity | rewrite S2; simpl; apply union_subseteq_r]].
        eapply grows_trans;
          [|eapply grows_weaken; [|exact G2]; intros pb Hpb; left; exact Hpb].
        exists [(filePath, body)]. split; [reflexivity|]. constructor; [|constructor].
        right. right. exists defaultExt, (contentTypeOf r). exact T.
      * eexists. split; [reflexivity|].
        split; [|split; [reflexivity | simpl; apply union_subseteq_r]].
        exists [(filePath, body)]. split; [reflexivity|]. constructor; [|constructor].
        right. right. exists defaultExt, (contentTypeOf r). exact T.
Qed.

Lemma responses_run (rs : list Response) (s : Session) :
  exists s',
    forEach rs (onResponse parseURL stamp fsRejects outDir mainSiteHostname) s
      = (s', Done tt)
    /\ grows (fun pb => exists r, In r rs /\ (responseFile parseURL outDir mainSiteHostname) (r_url r) pb) s s'
    /\ course s' = course s /\ saved s ⊆ saved s'.
Proof.
  revert s. induction rs as [|r rs IH]; intros s.
  - exists s. split; [reflexivity|]. split; [apply grows_refl | auto].
  - rewrite forEach_cons.
    destruct (onResponse_run r s) as (s1 & E1 & G1 & C1 & S1). rewrite E1.
    destruct (IH s1) as (s2 & E2 & G2 & C2 & S2). exists s2.
    split; [exact E2|]. split; [|split; [congruence | etrans; eassumption]].
    eapply grows_trans.
    + eapply grows_weaken; [|exact G1]. intros pb H. exists r. split; [left; reflexivity | exact H].
    + eapply grows_weaken; [|exact G2]. intros pb (r' & Hin & H).
      exists r'. split; [right; exact Hin | exact H].
Qed.

Lemma drainOne_run (entry : string * Response) (s : Session) :
  exists s', drainOne parseURL fsRejects outDir entry s = (s', Done tt)
    /\ files s' = files s ++ (drainedFile parseURL fsRejects outDir) entry
    /\ trace s' = trace s ++ (drainedEvent parseURL fsRejects outDir) entry
    /\ saved s' = (drainedUrl parseURL fsRejects outDir) entry ∪ saved s
    /\ toVisit s' = toVisit s /\ visited s' = visited s
    /\ pendingResponses s' = pendingResponses s.
Proof.
  destruct entry as [url r].
  unfold drainOne, drainedFile, drainedEvent, drainedUrl, drainedFile, tryCatch, bind, lift.
  simpl fst. simpl snd.
  destruct (raceBody (r_bodyLater r)) as [body|e].
  - destruct (0 <? length body).
    + destruct (targetPathFor parseURL url outDir (Some ".wasm") (Some "application/wasm") None)
        as [filePath|e].
      * unfold saveBuffer. destruct (fsRejects filePath).
        -- eexists. split; [reflexivity|]. simpl.
           rewrite app_nil_r, union_empty_l_L. auto 10.
        -- eexists. split; [reflexivity|]. simpl. rewrite app_nil_r. auto 10.
      * eexists. split; [reflexivity|]. simpl.
        rewrite app_nil_r, union_empty_l_L. auto 10.
    + eexists. split; [reflexivity|]. simpl.
      rewrite !app_nil_r, union_empty_l_L. auto 10.
  - eexists. split; [reflexivity|]. simpl.
    rewrite app_nil_r, union_empty_l_L. auto 10.
Qed.

Lemma drainedFile_at_most_one (entry : string * Response) :
  length ((drainedFile parseURL fsRejects outDir) entry) <= 1.
Proof.
  unfold drainedFile. destruct (raceBody _); [|simpl; lia].
  destruct (0 <? _); [|simpl; lia].
  destruct (targetPathFor _ _ _ _ _ _); [|simpl; lia].
  destruct (fsRejects _); simpl; lia.
Qed.

Lemma drainAll_run (entries : list (string * Response)) (s : Session) :
  exists s', forEach entries (drainOne parseURL fsRejects outDir) s = (s', Done tt)
    /\ files s' = files s ++ flat_map (drainedFile parseURL fsRejects outDir) entries
    /\ trace s' = trace s ++ flat_map (drainedEvent parseURL fsRejects outDir) entries
    /\ saved s ⊆ saved s'
    /\ toVisit s' = toVisit s /\ visited s' = visited s
    /\ pendingResponses s' = pendingResponses s.
Proof.
  revert s. induction entries as [|e es IH]; intros s.
  - exists s. split; [reflexivity|]. simpl. rewrite !app_nil_r. auto 10.
  - rewrite forEach_cons.
    destruct (drainOne_run e s) as (s1 & E1 & F1 & T1 & S1 & V1 & W1 & P1). rewrite E1.
    destruct (IH s1) as (s2 & E2 & F2 & T2 & S2 & V2 & W2 & P2). exists s2.
    split; [exact E2|]. simpl.
    rewrite F2, F1, T2, T1, V2, V1, W2, W1, P2, P1, !app_assoc.
    repeat split; try reflexivity.
    etrans; [|exact S2]. rewrite S1. apply union_subseteq_r.
Qed.

Lemma drainFrom_done (arrivals : list (list Response)) (position : nat) (s : Session) :
  exists s',
    drainFrom parseURL stamp fsRejects outDir mainSiteHostname arrivals position s
    = (s', Done tt).
Proof.
  revert position s. induction arrivals as [|batch later IH]; intros position s.
  - destruct (drainAll_run (skipn position (pendingResponses s)) s) as (s' & E & _).
    exists s'. exact E.
  - simpl. unfold bind at 1, get at 1.
    destruct (nth_error (pendingResponses s) position) as [entry|];
      [|exists s; reflexivity].
    destruct (responses_run batch s) as (s1 & E1 & _). unfold bind at 1. rewrite E1.
    destruct (drainOne_run entry s1) as (s2 & E2 & _). unfold bind at 1. rewrite E2.
    apply IH.
Qed.

Lemma processPending_done (arrivals : list (list Response)) (s : Session) :
  exists s',
    processPendingResponses parseURL stamp fsRejects outDir mainSiteHostname arrivals s
    = (s', Done tt)
    /\ pendingResponses s' = [].
Proof.
  unfold processPendingResponses. unfold bind at 1, get at 1.
  unfold bind at 1, emit at 1, modify at 1.
  destruct (drainFrom_done arrivals 0
              (addEvent (PendingStart (length (pendingResponses s))) s)) as (s1 & E1).
  unfold bind at 1. rewrite E1. unfold modify.
  eexists. split; reflexivity.
Qed.

Lemma processPending_run (s : Session) :
  exists s',
    processPendingResponses parseURL stamp fsRejects outDir mainSiteHostname [] s
    = (s', Done tt)
    /\ pendingResponses s' = []
    /\ files s' = files s ++ flat_map (drainedFile parseURL fsRejects outDir) (pendingResponses s)
    /\ trace s' = trace s ++ PendingStart (length (pendingResponses s))
                    :: flat_map (drainedEvent parseURL fsRejects outDir) (pendingResponses s)
    /\ saved s ⊆ saved s'
    /\ toVisit s' = toVisit s /\ visited s' = visited s.
Proof.
  unfold processPendingResponses. unfold bind at 1, get at 1.
  unfold bind at 1, emit at 1, modify at 1.
  destruct (drainAll_run (pendingResponses s)
              (addEvent (PendingStart (length (pendingResponses s))) s))
    as (s1 & E1 & F1 & T1 & S1 & V1 & W1 & P1).
  unfold bind at 1. unfold drainFrom, bind at 1, get at 1.
  change (skipn 0 (pendingResponses (addEvent (PendingStart (length (pendingResponses s))) s)))
    with (pendingResponses s).
  rewrite E1. unfold modify.
  eexists. split; [reflexivity|]. simpl.
  rewrite F1, T1, V1, W1. simpl. rewrite <- app_assoc. simpl.
  repeat split; try reflexivity. exact S1.
Qed.

Lemma onRoute_run (q : Route) (s : Session) :
  let s' := fst (onRoute parseURL fsRejects outDir mainSiteHostname q s) in
  grows ((resolvedFile parseURL outDir) (q_url q) (Some mainSiteHostname)) s s'
  /\ course s' = course s /\ saved s ⊆ saved s'
  /\ pendingResponses s' = pendingResponses s
  /\ (forall ok body, q_fetch q = Fetched ok body -> q_fulfillThrows q = None ->
      snd (onRoute parseURL fsRejects outDir mainSiteHostname q s) = Done tt).
Proof.
  unfold onRoute. cbv zeta.
  destruct (Js.includes (q_url q) "compile" && Js.includes (q_url q) "wasi"
            && Js.includes (q_url q) "target=arduino").
  2:{ simpl. split; [apply grows_refl | auto 10]. }
  destruct (q_fetch q) as [ok body|e].
  2:{ simpl. split; [apply grows_refl|]. repeat split; try reflexivity.
      intros ? ? H. discriminate H. }
  unfold bind, tryCatch, ret, throw. destruct ok.
  - pose proof (saveWasmNow_run (q_url q) body s) as H. cbv zeta in H.
    destruct (saveWasmNow _ _ _ _ _ _ s) as [s1 [[]|e]]; simpl in H;
      destruct H as (G & C & S & Pn);
      destruct (q_fulfillThrows q); simpl;
      (split; [exact G|]); (split; [exact C|]); (split; [exact S|]);
      (split; [exact Pn|]); intros ? ? _ Hf; first [discriminate Hf | reflexivity].
  - destruct (q_fulfillThrows q); simpl; (split; [apply grows_refl|]);
      repeat (split; [reflexivity|]);
      intros ? ? _ Hf; first [discriminate Hf | reflexivity].
Qed.

Lemma queues_of_course (s s' : Session) :
  course s' = course s -> saved s ⊆ saved s' -> queues s s'.
Proof.
  unfold course. intros C S. injection C as Ct Cv _.
  split; [exact Cv|]. split; [exact S|].
  exists []. rewrite app_nil_r. split; [exact Ct | constructor].
Qed.

Lemma onResponse_queues (r : Response) :
  respects queues (onResponse parseURL stamp fsRejects outDir mainSiteHostname r).
Proof.
  intros s. destruct (onResponse_run r s) as (s' & E & _ & C & S). rewrite E.
  apply queues_of_course; assumption.
Qed.

Lemma emit_queues (e : Event) : respects queues (emit e).
Proof.
  intros s. simpl. split; [reflexivity|]. split; [reflexivity|].
  exists []. split; [symmetry; apply app_nil_r | constructor].
Qed.

Lemma retryFrom_queues (page : PageScript) (url : string) (maxRetries remaining attempt : nat) :
  respects queues (retryFrom page url maxRetries remaining attempt).
Proof.
  revert attempt. induction remaining as [|k IH]; intros attempt; simpl.
  - apply respects_ret, queues_refl.
  - apply respects_bind; [apply queues_trans | apply emit_queues |]. intros _.
    destruct (gotoFails page attempt); [|apply respects_ret, queues_refl].
    destruct (attempt =? maxRetries); [apply respects_throw, queues_refl|].
    apply respects_bind; [apply queues_trans | apply emit_queues |]. intros _. apply IH.
Qed.

Lemma drainOne_queues (entry : string * Response) :
  respects queues (drainOne parseURL fsRejects outDir entry).
Proof.
  intros s. destruct (drainOne_run entry s) as (s' & E & _ & _ & S & T & V & _). rewrite E.
  simpl. split; [exact V|]. split; [rewrite S; apply union_subseteq_r|].
  exists []. rewrite app_nil_r. split; [exact T | constructor].
Qed.

Lemma processPending_queues (arrivals : list (list Response)) :
  respects queues
    (processPendingResponses parseURL stamp fsRejects outDir mainSiteHostname arrivals).
Proof.
  apply respects_drain;
    [apply queues_refl | apply queues_trans | apply onResponse_queues
    | apply drainOne_queues | intros n; apply emit_queues |].
  intros s. split; [reflexivity|]. split; [reflexivity|].
  exists []. split; [symmetry; apply app_nil_r | constructor].
Qed.

Lemma harvestLinks_queues (url : string) (links : list string) :
  respects queues (harvestLinks parseURL url links).
Proof.
  unfold harvestLinks.
  apply respects_bind; [apply queues_trans | apply respects_lift, queues_refl |].
  intros origin. apply respects_forEach; [apply queues_refl | apply queues_trans |].
  intros href. apply respects_tryCatch;
    [apply queues_trans | | intros; apply respects_ret, queues_refl].
  apply respects_bind; [apply queues_trans | apply respects_lift, queues_refl |].
  intros h s. unfold bind, get.
  destruct (String.eqb h origin && negb (has (visited s) href)) eqn:K;
    [|apply queues_refl].
  simpl. split; [reflexivity|]. split; [reflexivity|].
  exists [href]. split; [reflexivity|]. constructor; [|constructor].
  apply andb_true_iff in K as [_ K]. apply negb_true_iff in K.
  unfold has in K. apply bool_decide_eq_false in K. exact K.
Qed.

Lemma visit_queues (page : PageScript) (url : string) :
  respects queues
    (forEach (arrivedEarly page)
       (onResponse parseURL stamp fsRejects outDir mainSiteHostname) ;;;
     tryCatch
       (navigateWithRetry page url 3 ;;;
        emit (WaitForTimeout 5000) ;;;
        emit (WaitForTimeout 2000) ;;;
        processPendingResponses parseURL stamp fsRejects outDir mainSiteHostname
          (arrivedInDrain page) ;;;
        s1 <- get ;;
        if size (visited s1) <? maxPages then
          hrefs <- lift (anchors page) ;;
          harvestLinks parseURL url (List.filter (fun h => negb (String.eqb h "")) hrefs)
        else ret tt)
       (fun e => emit (ConsoleError (errorKind e) url)) ;;;
     forEach (arrivedLate page)
       (onResponse parseURL stamp fsRejects outDir mainSiteHostname)).
Proof.
  apply respects_bind; [apply queues_trans | |intros _].
  { apply respects_forEach; [apply queues_refl | apply queues_trans | apply onResponse_queues]. }
  apply respects_bind; [apply queues_trans | |intros _].
  2:{ apply respects_forEach; [apply queues_refl | apply queues_trans | apply onResponse_queues]. }
  apply respects_tryCatch; [apply queues_trans | | intros e; apply emit_queues].
  apply respects_bind; [apply queues_trans | apply retryFrom_queues | intros _].
  apply respects_bind; [apply queues_trans | apply emit_queues | intros _].
  apply respects_bind; [apply queues_trans | apply emit_queues | intros _].
  apply respects_bind; [apply queues_trans | apply processPending_queues | intros _].
  apply respects_bind; [apply queues_trans | apply respects_get, queues_refl | intros s1].
  destruct (size (visited s1) <? maxPages); [|apply respects_ret, queues_refl].
  apply respects_bind; [apply queues_trans | apply respects_lift, queues_refl | intros hrefs].
  apply harvestLinks_queues.
Qed.

(** The same sequence never throws. *)
Lemma visit_done (page : PageScript) (url : string) (s : Session) :
  snd ((forEach (arrivedEarly page)
          (onResponse parseURL stamp fsRejects outDir mainSiteHostname) ;;;
        tryCatch
          (navigateWithRetry page url 3 ;;;
           emit (WaitForTimeout 5000) ;;;
           emit (WaitForTimeout 2000) ;;;
           processPendingResponses parseURL stamp fsRejects outDir mainSiteHostname
             (arrivedInDrain page) ;;;
           s1 <- get ;;
           if size (visited s1) <? maxPages then
             hrefs <- lift (anchors page) ;;
             harvestLinks parseURL url (List.filter (fun h => negb (String.eqb h "")) hrefs)
           else ret tt)
          (fun e => emit (ConsoleError (errorKind e) url)) ;;;
        forEach (arrivedLate page)
          (onResponse parseURL stamp fsRejects outDir mainSiteHostname)) s) = Done tt.
Proof.
  unfold bind at 1.
  destruct (responses_run (arrivedEarly page) s) as (s1 & E1 & _). rewrite E1.
  unfold bind at 1.
  match goal with
  | |- context [tryCatch ?m ?h s1] =>
      assert (H : exists s2, tryCatch m h s1 = (s2, Done tt))
  end.
  { unfold tryCatch. match goal with |- context [?m s1] =>
      destruct (m s1) as [s2 [[]|e]] end; eexists; reflexivity. }
  destruct H as [s2 E2]. rewrite E2.
  destruct (responses_run (arrivedLate page) s2) as (s3 & E3 & _). rewrite E3.
  reflexivity.
Qed.

Lemma loopBody_empty (s : Session) : toVisit s = [] -> loopBody parseURL stamp fsRejects site outDir mainSiteHostname maxPages s = (s, Done tt).
Proof. intros H. unfold loopBody, bind, get. rewrite H. reflexivity. Qed.

Lemma loopBody_skip (s : Session) (url : string) (rest : list string) :
  toVisit s = url :: rest ->
  String.eqb url "" || has (visited s) url = true ->
  loopBody parseURL stamp fsRejects site outDir mainSiteHostname maxPages s = (setToVisit rest s, Done tt).
Proof.
  intros H K. unfold loopBody. unfold bind at 1, get at 1. rewrite H.
  unfold bind at 1, modify at 1. rewrite K. reflexivity.
Qed.

Lemma loopBody_visit (s : Session) (url : string) (rest : list string) :
  toVisit s = url :: rest ->
  String.eqb url "" || has (visited s) url = false ->
  exists s', loopBody parseURL stamp fsRejects site outDir mainSiteHostname maxPages s = (s', Done tt)
    /\ visited s' = {[url]} ∪ visited s /\ saved s ⊆ saved s'
    /\ exists new, toVisit s' = rest ++ new /\ Forall (fun h => h ∉ visited s') new.
Proof.
  intros H K. unfold loopBody. unfold bind at 1, get at 1. rewrite H.
  unfold bind at 1, modify at 1. rewrite K.
  unfold bind at 1, modify at 1. unfold bind at 1, emit at 1, modify at 1.
  unfold tryFinally.
  set (s0 := addEvent (NewPage url) (addVisited url (setToVisit rest s))).
  pose proof (visit_queues (site url) url s0) as HQ.
  pose proof (visit_done (site url) url s0) as HD.
  match goal with
  | |- context [let '(_, _) := ?m s0 in _] => destruct (m s0) as [s1 r]
  end.
  simpl in HQ, HD. subst r. destruct HQ as (V & S & new & E & F).
  eexists. split; [reflexivity|]. simpl.
  split; [exact V|]. split; [exact S|].
  exists new. split; [exact E|]. rewrite V. exact F.
Qed.

Lemma loopBody_done (s : Session) : exists s', loopBody parseURL stamp fsRejects site outDir mainSiteHostname maxPages s = (s', Done tt).
Proof.
  destruct (toVisit s) as [|url rest] eqn:H.
  - exists s. apply loopBody_empty, H.
  - destruct (String.eqb url "" || has (visited s) url) eqn:K.
    + eexists. eapply loopBody_skip; eassumption.
    + destruct (loopBody_visit s url rest H K) as (s' & E & _). exists s'. exact E.
Qed.

Lemma pageLoop_more_fuel (n : nat) (s : Session) (r : Session * outcome unit) :
  pageLoop parseURL stamp fsRejects site outDir mainSiteHostname maxPages n s = Some r -> forall m, n <= m -> pageLoop parseURL stamp fsRejects site outDir mainSiteHostname maxPages m s = Some r.
Proof.
  revert s. induction n as [|n IH]; intros s H m Hm.
  - destruct m; simpl in *; destruct (negb (loopCond maxPages s)); congruence.
  - destruct m as [|m]; [lia|]. simpl in *.
    destruct (negb (loopCond maxPages s)); [exact H|].
    destruct (loopBody parseURL stamp fsRejects site outDir mainSiteHostname maxPages s) as [s1 [[]|e]]; [|exact H].
    apply IH; [exact H | lia].
Qed.

(** The page loop ends: each iteration either visits a new page, of which
    there are at most [maxPages], or shortens the queue. *)
Lemma pageLoop_terminates (s : Session) :
  exists n s', pageLoop parseURL stamp fsRejects site outDir mainSiteHostname maxPages n s = Some (s', Done tt) /\ loopCond maxPages s' = false.
Proof.
  remember (maxPages - size (visited s)) as budget eqn:Hb.
  assert (Hle : maxPages - size (visited s) <= budget) by lia. clear Hb.
  revert s Hle. induction budget as [|b IHb]; intros s Hle.
  - exists 0, s. assert (C : loopCond maxPages s = false).
    { unfold loopCond. apply andb_false_iff. right. apply Nat.ltb_ge. lia. }
    simpl. rewrite C. auto.
  - remember (toVisit s) as q eqn:Hq. revert s Hle Hq.
    induction q as [|url rest IHq]; intros s Hle Hq.
    + exists 0, s. assert (C : loopCond maxPages s = false).
      { unfold loopCond. rewrite <- Hq. reflexivity. }
      simpl. rewrite C. auto.
    + destruct (loopCond maxPages s) eqn:C.
      2:{ exists 0, s. simpl. rewrite C. auto. }
      destruct (String.eqb url "" || has (visited s) url) eqn:K.
      * destruct (IHq (setToVisit rest s)) as (n & s' & E & C'); [exact Hle | reflexivity |].
        exists (S n), s'. split; [|exact C']. simpl. rewrite C. simpl.
        rewrite (loopBody_skip s url rest (eq_sym Hq) K). exact E.
      * destruct (loopBody_visit s url rest (eq_sym Hq) K) as (s1 & E1 & V1 & _).
        destruct (IHb s1) as (n & s' & E & C').
        { rewrite V1. rewrite size_union.
          - rewrite size_singleton. lia.
          - apply orb_false_iff in K as [_ K]. unfold has in K.
            apply bool_decide_eq_false in K.
            apply disjoint_singleton_l. exact K. }
        exists (S n), s'. split; [|exact C']. simpl. rewrite C. simpl.
        rewrite E1. exact E.
Qed.

End Facts.

(** ** Path resolution *)

Lemma fileTypeFor_bucket (ext ct : option string) : In (fileTypeFor ext ct) buckets.
Proof.
  unfold fileTypeFor, buckets.
  repeat match goal with
         | |- context [if ?c then _ else _] => destruct c
         end; simpl; auto 10.
Qed.

Lemma targetPathFor_resolved (parseURL : string -> option Url.t)
    (url baseDir : string) (ext ct main : option string) (u : Url.t) :
  parseURL url = Some u ->
  targetPathFor parseURL url baseDir ext ct main =
  Done (Path.join [baseDir; sanitizeFilename (targetHostnameFor u main);
                   fileTypeFor ext ct;
                   sanitizeFilename (targetFileNameFor u ext ct main)]).
Proof.
  intros H. unfold targetPathFor, targetHostnameFor, targetFileNameFor, isThirdParty.
  rewrite H. reflexivity.
Qed.

Lemma isThirdParty_main (hostname main : string) :
  main <> "" -> hostname <> main -> isThirdParty hostname (Some main) = true.
Proof.
  intros Hm Hh. unfold isThirdParty. simpl.
  destruct (String.eqb_spec main ""); [contradiction|].
  destruct (String.eqb_spec main hostname); [subst; contradiction | reflexivity].
Qed.

Lemma fileTypeFor_wasm (ct : string) :
  Js.lowerIncludes (Some ct) "javascript" = false ->
  fileTypeFor (Some ".wasm") (Some ct) = "wasm".
Proof. intros H. unfold fileTypeFor. rewrite H. reflexivity. Qed.

Lemma fileNameFor_ext (pathname ext : string) (ct ct' : option string) :
  ext <> "" ->
  fileNameFor pathname (Some ext) ct = fileNameFor pathname (Some ext) ct'.
Proof.
  intros He. unfold fileNameFor. cbv zeta.
  destruct (String.eqb_spec (Path.extname (baseNameFor pathname)) "") as [E|E];
    [|reflexivity].
  rewrite E. unfold Js.or_else.
  assert (N : String.eqb ext "" = false) by (apply String.eqb_neq; exact He).
  simpl. rewrite N. simpl. rewrite N. reflexivity.
Qed.

Lemma targetPathFor_wasm (parseURL : string -> option Url.t)
    (url baseDir ct : string) (main : option string) (u : Url.t) :
  parseURL url = Some u ->
  Js.lowerIncludes (Some ct) "javascript" = false ->
  targetPathFor parseURL url baseDir (Some ".wasm") (Some ct) main
  = Done (wasmPathFor baseDir u main).
Proof.
  intros H J. rewrite (targetPathFor_resolved _ _ _ _ _ _ u H).
  unfold wasmPathFor, targetFileNameFor. rewrite (fileTypeFor_wasm ct J).
  rewrite (fileNameFor_ext (Url.pathname u) ".wasm" (Some ct) (Some "application/wasm"));
    [reflexivity | discriminate].
Qed.

Lemma targetPathFor_third (parseURL : string -> option Url.t)
    (url outDir main path : string) (ext ct : option string) (u : Url.t) :
  parseURL url = Some u -> main <> "" -> Url.hostname u <> main ->
  targetPathFor parseURL url outDir ext ct (Some main) = Done path ->
  exists ext' ct',
    path = Path.join [outDir; sanitizeFilename main; fileTypeFor ext' ct';
                      sanitizeFilename
                        (sanitizeFilename (Url.hostname u) +:+ "_"
                           +:+ fileNameFor (Url.pathname u) ext' ct')].
Proof.
  intros H Hm Hh T. rewrite (targetPathFor_resolved _ _ _ _ _ _ u H) in T.
  injection T as <-. exists ext, ct.
  unfold targetHostnameFor, targetFileNameFor.
  rewrite (isThirdParty_main _ _ Hm Hh). reflexivity.
Qed.

Section Saves.

Variable parseURL : string -> option Url.t.
Variable stamp : nat -> string.
Variable fsRejects : string -> bool.
Variable outDir mainSiteHostname : string.

Hypothesis fs_accepts : forall p, fsRejects p = false.

Lemma nonempty_length (b : Buffer) : b <> [] -> (0 <? length b) = true.
Proof. destruct b; [congruence | reflexivity]. Qed.

Lemma saveWasmNow_ok (url : string) (u : Url.t) (body : Buffer) (s : Session) :
  parseURL url = Some u -> body <> [] ->
  saveWasmNow parseURL fsRejects outDir mainSiteHostname url (BodyOk body) s
  = (addSaved url (addFile (wasmPathFor outDir u (Some mainSiteHostname)) body s), Done tt).
Proof using fs_accepts.
  intros H Hb. unfold saveWasmNow, bind, lift, modify. simpl readBody. cbv beta iota.
  rewrite (nonempty_length body Hb).
  rewrite (targetPathFor_wasm parseURL url outDir "application/wasm" _ u H eq_refl).
  unfold saveBuffer. rewrite fs_accepts. reflexivity.
Qed.

Lemma wasm_branch_ok (r : Response) (u : Url.t) (body : Buffer) (s : Session) :
  String.eqb (r_url r) "" || has (saved s) (r_url r) = false ->
  isLikelyWasmByHeuristics (contentTypeOf r) (r_url r) = true ->
  r_body r = BodyOk body -> body <> [] -> parseURL (r_url r) = Some u ->
  onResponse parseURL stamp fsRejects outDir mainSiteHostname r s
  = (addSaved (r_url r)
       (addFile (wasmPathFor outDir u (Some mainSiteHostname)) body s), Done tt).
Proof using fs_accepts.
  intros G W B Hb H. unfold onResponse. unfold tryCatch at 1, bind at 1, get at 1.
  assert (P : shouldProcessOf r = true) by (unfold shouldProcessOf; rewrite W; reflexivity).
  rewrite G, P, W. cbn [negb]. cbv beta iota.
  unfold tryCatch. rewrite B, (saveWasmNow_ok _ u _ _ H Hb). reflexivity.
Qed.


Lemma magic_nonempty (b : Buffer) : isWasmByMagic b = true -> b <> [].
Proof. destruct b; [discriminate | congruence]. Qed.

Lemma second_pass_wasm (r : Response) (u : Url.t) (ct : string) (body : Buffer)
    (s : Session) :
  String.eqb (r_url r) "" || has (saved s) (r_url r) = false ->
  shouldProcessOf r = true ->
  contentTypeOf r = Some ct ->
  Js.lowerIncludes (Some ct) "javascript" = false ->
  r_body r = BodyOk body -> isWasmByMagic body = true ->
  Js.startsWith (r_url r) "data:" = false ->
  parseURL (r_url r) = Some u ->
  exists s' extra,
    onResponse parseURL stamp fsRejects outDir mainSiteHostname r s = (s', Done tt)
    /\ files s' = files s ++ (wasmPathFor outDir u (Some mainSiteHostname), body) :: extra
    /\ Forall (embeddedFile outDir) extra
    /\ r_url r ∈ saved s'.
Proof using fs_accepts.
  intros G P C J B M D H.
  destruct (isLikelyWasmByHeuristics (contentTypeOf r) (r_url r)) eqn:W.
  - rewrite (wasm_branch_ok r u body s G W B (magic_nonempty _ M) H).
    eexists. exists []. split; [reflexivity|]. simpl.
    split; [reflexivity|]. split; [constructor|]. apply elem_of_union_l, elem_of_singleton. reflexivity.
  - unfold onResponse. unfold tryCatch at 1, bind at 1, get at 1.
    rewrite G, P, W, B. cbn [negb]. cbv beta iota.
    assert (L : (length body =? 0) = false).
    { destruct body; [discriminate M | reflexivity]. }
    rewrite L, M, D. simpl defaultExtOf.
    unfold bind at 1, lift at 1.
    rewrite C, (targetPathFor_wasm parseURL _ outDir ct _ u H J).
    unfold bind at 1, saveBuffer at 1. rewrite fs_accepts.
    unfold bind at 1, modify at 1.
    match goal with
    | |- context [if ?c then extractInlineWasm _ _ _ _ else _] => destruct c
    end.
    + match goal with
      | |- context [extractInlineWasm _ _ _ ?b ?st] =>
          destruct (extract_run stamp fsRejects outDir b st) as (s2 & E2 & G2 & C2 & S2 & _)
      end.
      rewrite E2. destruct G2 as [extra [F2 A2]]. exists s2, extra.
      split; [reflexivity|]. split; [|split; [exact A2|]].
      * rewrite F2. simpl. rewrite <- app_assoc. reflexivity.
      * rewrite S2. simpl. apply elem_of_union_l, elem_of_singleton. reflexivity.
    + eexists. exists []. split; [reflexivity|]. simpl.
      split; [reflexivity|]. split; [constructor|].
      apply elem_of_union_l, elem_of_singleton. reflexivity.
Qed.

End Saves.

(** ** Claims on path resolution and classification *)

Lemma resolved_joined (parseURL : string -> option Url.t) (outDir url : string)
    (main : option string) (u : Url.t) (pb : string * Buffer) :
  parseURL url = Some u ->
  resolvedFile parseURL outDir url main pb -> joinedFile outDir u main pb.
Proof.
  intros H (ext & ct & T). rewrite (targetPathFor_resolved _ _ _ _ _ _ u H) in T.
  injection T as T. exists ext, ct. symmetry. exact T.
Qed.

Lemma drainedFile_resolved (parseURL : string -> option Url.t)
    (fsRejects : string -> bool) (outDir : string) (entry : string * Response) :
  Forall (resolvedFile parseURL outDir (fst entry) None)
    (drainedFile parseURL fsRejects outDir entry).
Proof.
  unfold drainedFile. destruct (raceBody _) as [body|]; [|constructor].
  destruct (0 <? length body); [|constructor].
  destruct (targetPathFor _ _ _ _ _ _) as [filePath|] eqn:T; [|constructor].
  destruct (fsRejects filePath); constructor; [|constructor].
  exists (Some ".wasm"), (Some "application/wasm"). exact T.
Qed.

(** C4, as the code has it: [sanitizeFilename] replaces every character
    outside [A-Za-z0-9-_./] by an underscore (it does not strip it) and keeps
    the first 200 characters; [targetPathFor] returns
    [outDir / sanitize(targetHostname) / bucket / sanitize(fileName)] with the
    bucket one of the seven; and every file the response handler, the router
    or the drain writes for a URL is an extracted inline module, the
    synthetic [inline/] file of a [data:] URL, or a file at such a path. *)
Theorem C4_sanitize_replaces_and_paths_are_joined :
  forall (parseURL : string -> option Url.t) (stamp : nat -> string)
    (fsRejects : string -> bool) (outDir mainSiteHostname text url baseDir : string)
    (ext ct main : option string) (u : Url.t) (s : Session)
    (r r' : Response) (q : Route),
    parseURL url = Some u -> r_url r = url -> q_url q = url ->
    Js.chars (sanitizeFilename text) = firstn 200 (map cleanChar (Js.chars text))
    /\ String.length (sanitizeFilename text) <= 200
    /\ Forall (fun c => isSafeChar c = true) (Js.chars (sanitizeFilename text))
    /\ targetPathFor parseURL url baseDir ext ct main
       = Done (Path.join [baseDir; sanitizeFilename (targetHostnameFor u main);
                          fileTypeFor ext ct;
                          sanitizeFilename (targetFileNameFor u ext ct main)])
    /\ In (fileTypeFor ext ct) buckets
    /\ grows (fun pb => embeddedFile outDir pb \/ syntheticFile outDir url pb
                        \/ joinedFile outDir u (Some mainSiteHostname) pb)
         s (fst (onResponse parseURL stamp fsRejects outDir mainSiteHostname r s))
    /\ grows (joinedFile outDir u (Some mainSiteHostname))
         s (fst (onRoute parseURL fsRejects outDir mainSiteHostname q s))
    /\ grows (joinedFile outDir u None)
         s (fst (drainOne parseURL fsRejects outDir (url, r') s)).
Proof.
  intros parseURL stamp fsRejects outDir mainSiteHostname text url baseDir ext ct
    main u s r r' q H Hr Hq.
  split; [apply sanitize_chars|]. split; [apply sanitize_length|].
  split; [apply sanitize_safe|]. split; [apply targetPathFor_resolved, H|].
  split; [apply fileTypeFor_bucket|]. split; [|split].
  - destruct (onResponse_run parseURL stamp fsRejects outDir mainSiteHostname r s)
      as (s' & E & G & _).
    rewrite E. simpl. rewrite Hr in G. eapply grows_weaken; [|exact G].
    intros pb [Hp|[Hp|Hp]]; [left; exact Hp | right; left; exact Hp |].
    right. right. eapply resolved_joined; eassumption.
  - destruct (onRoute_run parseURL fsRejects outDir mainSiteHostname q s) as (G & _).
    rewrite Hq in G. eapply grows_weaken; [|exact G].
    intros pb Hp. eapply resolved_joined; eassumption.
  - destruct (drainOne_run parseURL fsRejects outDir (url, r') s) as (s' & E & F & _).
    rewrite E. simpl. exists (drainedFile parseURL fsRejects outDir (url, r')).
    split; [exact F|].
    eapply Forall_impl; [apply drainedFile_resolved|].
    intros pb Hp. eapply resolved_joined; eassumption.
Qed.

Lemma C4_witness :
  sanitizeFilename "a b?c" = "a_b_c"
  /\ targetPathFor Url.parse "https://cdn.b.com/x.js" "out" (Some ".js")
       (Some "application/javascript") (Some "a.com")
     = Done "out/a.com/js/cdn.b.com_x.js".
Proof.
  destruct (C4_sanitize_replaces_and_paths_are_joined Url.parse Demo.stamp Demo.accept
              "out" "a.com" "a b?c" "https://cdn.b.com/x.js" "out" (Some ".js")
              (Some "application/javascript") (Some "a.com") Demo.cdnUrl Demo.start
              Demo.cdnScript Demo.cdnScript Demo.cdnRoute
              eq_refl eq_refl eq_refl) as (Hc & _ & _ & Ht & _).
  split.
  - rewrite <- (str_chars (sanitizeFilename "a b?c")), Hc. reflexivity.
  - rewrite Ht. reflexivity.
Defined.

(** C4 as stated fails: the unsafe characters are not stripped. *)
Lemma C4_counterexample :
  sanitizeFilename "a b" = "a_b" /\ stripUnsafe "a b" = "ab"
  /\ sanitizeFilename "a b" <> stripUnsafe "a b".
Proof. split; [reflexivity|]. split; [reflexivity | discriminate]. Qed.

(** C1, as the code has it: when the response handler or the request
    router saves a response whose hostname differs from the (non-empty) main
    hostname, the file goes under [sanitize(mainHostname)] and its name is
    [sanitize(hostname)], an underscore and the file name, so the name begins
    with the whole sanitized hostname of the origin: for [a.com] and
    [cdn.b.com/x.js] the path is [outputRoot/a.com/js/cdn.b.com_x.js]. *)
Theorem C1_third_party_files_under_main_hostname :
  forall (parseURL : string -> option Url.t) (stamp : nat -> string)
    (fsRejects : string -> bool) (outDir main : string) (s : Session)
    (r : Response) (q : Route) (u : Url.t),
    main <> "" -> parseURL (r_url r) = Some u -> Url.hostname u <> main ->
    q_url q = r_url r ->
    grows (fun pb => embeddedFile outDir pb \/ syntheticFile outDir (r_url r) pb
                     \/ thirdPartyFile outDir main u pb)
      s (fst (onResponse parseURL stamp fsRejects outDir main r s))
    /\ grows (thirdPartyFile outDir main u)
         s (fst (onRoute parseURL fsRejects outDir main q s))
    /\ forall rest,
         Js.startsWith
           (sanitizeFilename (sanitizeFilename (Url.hostname u) +:+ rest))
           (sanitizeFilename (Url.hostname u)) = true.
Proof.
  intros parseURL stamp fsRejects outDir main s r q u Hm H Hh Hq.
  split; [|split].
  - destruct (onResponse_run parseURL stamp fsRejects outDir main r s)
      as (s' & E & G & _).
    rewrite E. simpl. eapply grows_weaken; [|exact G].
    intros pb [Hp|[Hp|(ext & ct & T)]]; [left; exact Hp | right; left; exact Hp |].
    right. right. eapply targetPathFor_third; eassumption.
  - destruct (onRoute_run parseURL fsRejects outDir main q s) as (G & _).
    rewrite Hq in G. eapply grows_weaken; [|exact G].
    intros pb (ext & ct & T). eapply targetPathFor_third; eassumption.
  - intros rest. apply sanitize_prefix_kept.
Qed.

Lemma C1_witness :
  grows (fun pb => embeddedFile "outputRoot" pb
                   \/ syntheticFile "outputRoot" "https://cdn.b.com/x.js" pb
                   \/ thirdPartyFile "outputRoot" "a.com" Demo.cdnUrl pb)
    Demo.start
    (fst (onResponse Url.parse Demo.stamp Demo.accept "outputRoot" "a.com"
            Demo.cdnScript Demo.start)).
Proof.
  apply (C1_third_party_files_under_main_hostname Url.parse Demo.stamp Demo.accept
           "outputRoot" "a.com" Demo.start Demo.cdnScript Demo.cdnRoute Demo.cdnUrl).
  - discriminate.
  - reflexivity.
  - discriminate.
  - reflexivity.
Defined.

(** C1 as stated fails on its own example: the prefix is the whole
    hostname [cdn.b.com], not [b.com]. *)
Lemma C1_counterexample :
  files (fst (onResponse Url.parse Demo.stamp Demo.accept "outputRoot" "a.com"
                Demo.cdnScript Demo.start))
  = [("outputRoot/a.com/js/cdn.b.com_x.js", list_byte_of_string "var x = 1;")]
  /\ "outputRoot/a.com/js/cdn.b.com_x.js" <> "outputRoot/a.com/js/b.com_x.js".
Proof. split; [vm_compute; reflexivity | discriminate]. Qed.

(** The drain calls [targetPathFor] without the main hostname: a pending
    third-party module is filed under its own host. *)
Lemma drain_files_under_own_hostname :
  files (fst (processPendingResponses Url.parse Demo.stamp Demo.accept "outputRoot"
                "a.com" []
                (setPending [("https://cdn.b.com/lib/mod.wasm", Demo.notWasm)]
                   Demo.start)))
  = [("outputRoot/cdn.b.com/wasm/lib_mod.wasm", list_byte_of_string "<html>404</html>")].
Proof. vm_compute. reflexivity. Qed.

(** C2, as the code has it: a response declared [text/html] whose body
    begins with the magic number is saved into the [wasm] bucket when it passes
    the handler's [shouldProcess] gate (a WASM or JavaScript hint in the URL, or
    a script request); the gate is decided before any body is read. *)
Theorem C2_magic_overrides_html_once_past_the_gate :
  forall (parseURL : string -> option Url.t) (stamp : nat -> string)
    (fsRejects : string -> bool) (outDir main ct : string) (s : Session)
    (r : Response) (u : Url.t) (body : Buffer),
    (forall p, fsRejects p = false) ->
    String.eqb (r_url r) "" || has (saved s) (r_url r) = false ->
    shouldProcessOf r = true ->
    contentTypeOf r = Some ct ->
    Js.includes (Js.toLowerCase ct) "text/html" = true ->
    Js.includes (Js.toLowerCase ct) "javascript" = false ->
    r_body r = BodyOk body -> isWasmByMagic body = true ->
    Js.startsWith (r_url r) "data:" = false ->
    parseURL (r_url r) = Some u ->
    exists s' extra,
      onResponse parseURL stamp fsRejects outDir main r s = (s', Done tt)
      /\ files s' =
         files s ++
         (Path.join [outDir; sanitizeFilename (targetHostnameFor u (Some main)); "wasm";
                     sanitizeFilename
                       (targetFileNameFor u (Some ".wasm") (Some "application/wasm")
                          (Some main))], body) :: extra
      /\ Forall (embeddedFile outDir) extra
      /\ r_url r ∈ saved s'.
Proof.
  intros parseURL stamp fsRejects outDir main ct s r u body Hfs G P C _ J B M D H.
  assert (J' : Js.lowerIncludes (Some ct) "javascript" = false).
  { unfold Js.lowerIncludes. rewrite J. apply andb_false_r. }
  exact (second_pass_wasm parseURL stamp fsRejects outDir main Hfs r u ct body s
           G P C J' B M D H).
Qed.

Lemma C2_witness :
  exists s' extra,
    onResponse Url.parse Demo.stamp Demo.accept "out" "a.com" Demo.htmlWasmScript
      Demo.start = (s', Done tt)
    /\ files s' = files Demo.start ++ ("out/a.com/wasm/mod.wasm", Demo.wasmBytes) :: extra
    /\ Forall (embeddedFile "out") extra
    /\ r_url Demo.htmlWasmScript ∈ saved s'.
Proof.
  apply (C2_magic_overrides_html_once_past_the_gate Url.parse Demo.stamp Demo.accept
           "out" "a.com" "text/html; charset=utf-8" Demo.start Demo.htmlWasmScript
           Demo.modUrl Demo.wasmBytes);
    first [intros p; reflexivity | vm_compute; reflexivity].
Defined.

(** C2 as stated fails: a [text/html] response with the magic number, from
    a URL without hints and not requested as a script, is skipped before its
    body is read; nothing is written and nothing is marked saved. *)
Lemma C2_counterexample :
  contentTypeOf Demo.htmlWasm = Some "text/html"
  /\ r_body Demo.htmlWasm = BodyOk Demo.wasmBytes
  /\ isWasmByMagic Demo.wasmBytes = true
  /\ onResponse Url.parse Demo.stamp Demo.accept "out" "a.com" Demo.htmlWasm Demo.start
     = (Demo.start, Done tt)
  /\ files Demo.start = [].
Proof. repeat split; vm_compute; reflexivity. Qed.

(** C3 at the failing input: a [data:application/wasm] URL takes the
    immediate WASM branch, whose path comes from [targetPathFor]: the file lands
    in the main site's [wasm] bucket under a name made of the URL's payload, not
    under [inline/]. *)
Theorem C3_data_wasm_url_is_resolved_by_hostname_and_bucket :
  onResponse Url.parse Demo.stamp Demo.accept "out" "a.com" Demo.dataWasm Demo.start
  = (addSaved "data:application/wasm;base64,AGFzbQEAAAA="
       (addFile "out/a.com/wasm/_application_wasm_base64_AGFzbQEAAAA_.wasm"
          Demo.wasmBytes Demo.start), Done tt)
  /\ Js.startsWith "data:application/wasm;base64,AGFzbQEAAAA=" "data:" = true
  /\ targetPathFor Url.parse "data:application/wasm;base64,AGFzbQEAAAA=" "out"
       (Some ".wasm") (Some "application/wasm") (Some "a.com")
     = Done "out/a.com/wasm/_application_wasm_base64_AGFzbQEAAAA_.wasm".
Proof. repeat split; vm_compute; reflexivity. Qed.

(** Every [data:application/wasm] URL is taken for WASM by the heuristics,
    so that branch is the only one such a response can take. *)
Lemma data_wasm_urls_are_wasm_by_heuristics (ct : option string) (url : string) :
  Js.startsWith (Js.toLowerCase url) "data:application/wasm;" = true
  \/ Js.startsWith (Js.toLowerCase url) "data:application/wasm," = true ->
  isLikelyWasmByHeuristics ct url = true.
Proof.
  intros H. unfold isLikelyWasmByHeuristics.
  destruct (Js.lowerIncludes ct "application/wasm"); [reflexivity|].
  destruct (Js.litThenEnd _ _); [reflexivity|].
  destruct H as [H|H]; rewrite H; [reflexivity | rewrite orb_true_r; reflexivity].
Qed.

(** The second-pass branch does give a [data:] URL its synthetic name. *)
Lemma data_script_url_is_written_inline :
  map fst
    (files (fst (onResponse Url.parse Demo.stamp Demo.accept "out" "a.com"
                   (Demo.response "data:text/javascript,var x = 1;" "script"
                      "text/javascript" (list_byte_of_string "var x = 1;"))
                   Demo.start)))
  = ["out/inline/1700000000000_ka.js"].
Proof. vm_compute. reflexivity. Qed.



(** ** The page loop *)

Section Machine.

Variable parseURL : string -> option Url.t.
Variable stamp : nat -> string.
Variable fsRejects : string -> bool.
Variable site : string -> PageScript.
Variable outDir mainSiteHostname : string.
Variable maxPages : nat.



Lemma onRoute_queues (q : Route) :
  respects queues (onRoute parseURL fsRejects outDir mainSiteHostname q).
Proof using Type.
  intros s.
  destruct (onRoute_run parseURL fsRejects outDir mainSiteHostname q s) as (_ & C & S & _).
  apply queues_of_course; assumption.
Qed.

Lemma teardown_queues (closing : Closing) :
  respects queues (teardown parseURL stamp fsRejects outDir mainSiteHostname closing).
Proof using Type.
  unfold teardown.
  apply respects_bind; [apply queues_trans | apply processPending_queues | intros _].
  apply respects_bind; [apply queues_trans | | intros _].
  { apply respects_forEach; [apply queues_refl | apply queues_trans|].
    apply onResponse_queues. }
  apply respects_bind; [apply queues_trans | apply emit_queues | intros _].
  apply emit_queues.
Qed.

(** What one step does to the queue and to the visited set. *)
Lemma step_queue (s s' : Session) :
  (Step parseURL stamp fsRejects site outDir mainSiteHostname maxPages) s s' ->
  visited s ⊆ visited s' /\
  exists new,
    (toVisit s' = toVisit s ++ new \/ toVisit s' = tl (toVisit s) ++ new)
    /\ Forall (fun h => h ∉ visited s') new.
Proof using Type.
  assert (Q : forall a b, queues a b ->
    visited a ⊆ visited b /\
    exists new, (toVisit b = toVisit a ++ new \/ toVisit b = tl (toVisit a) ++ new)
                /\ Forall (fun h => h ∉ visited b) new).
  { intros a b (V & _ & new & E & F). rewrite V. split; [reflexivity|].
    exists new. split; [left; exact E | exact F]. }
  intros [s0|r s0|q s0|s0 C|closing s0 C].
  - apply Q, (emit_queues (DirEnsured outDir) s0).
  - apply Q, onResponse_queues.
  - apply Q, onRoute_queues.
  - destruct (toVisit s0) as [|url rest] eqn:H.
    + unfold loopCond in C. rewrite H in C. discriminate C.
    + destruct (String.eqb url "" || has (visited s0) url) eqn:K.
      * rewrite (loopBody_skip parseURL stamp fsRejects site outDir mainSiteHostname
                   maxPages s0 url rest H K). simpl.
        split; [reflexivity|]. exists []. split; [right; symmetry; apply app_nil_r | constructor].
      * destruct (loopBody_visit parseURL stamp fsRejects site outDir mainSiteHostname
                    maxPages s0 url rest H K) as (s1 & E & V & _ & new & T & F).
        rewrite E. simpl. rewrite V. split; [apply union_subseteq_r|].
        exists new. split; [right; exact T|]. rewrite <- V. exact F.
  - apply Q, teardown_queues.
Qed.

Lemma steps_visited (s s' : Session) : rtc (Step parseURL stamp fsRejects site outDir mainSiteHostname maxPages) s s' -> visited s ⊆ visited s'.
Proof using Type.
  induction 1 as [|a b c H _ IH]; [reflexivity|].
  etrans; [apply (step_queue a b H) | exact IH].
Qed.

End Machine.

Section Runs.

Variable parseURL : string -> option Url.t.
Variable stamp : nat -> string.
Variable fsRejects : string -> bool.
Variable site : string -> PageScript.
Variable outDir mainSiteHostname : string.
Variable maxPages : nat.

Lemma pageLoop_done (fuel : nat) (s s' : Session) (o : outcome unit) :
  pageLoop parseURL stamp fsRejects site outDir mainSiteHostname maxPages fuel s
  = Some (s', o) -> o = Done tt.
Proof using Type.
  revert s. induction fuel as [|fuel IH]; intros s; simpl.
  - destruct (negb (loopCond maxPages s)); [|discriminate].
    intros H. injection H as _ <-. reflexivity.
  - destruct (negb (loopCond maxPages s)).
    + intros H. injection H as _ <-. reflexivity.
    + destruct (loopBody_done parseURL stamp fsRejects site outDir mainSiteHostname
                  maxPages s) as [s1 E].
      rewrite E. apply IH.
Qed.

Lemma teardown_run (closing : Closing) (s : Session) :
  exists s1 s2,
    processPendingResponses parseURL stamp fsRejects outDir mainSiteHostname
      (arrivedInLastDrain closing) s = (s1, Done tt)
    /\ pendingResponses s1 = []
    /\ forEach (arrivedAtClose closing)
         (onResponse parseURL stamp fsRejects outDir mainSiteHostname) s1 = (s2, Done tt)
    /\ teardown parseURL stamp fsRejects outDir mainSiteHostname closing s
       = (addEvent BrowserClosed (addEvent ContextClosed s2), Done tt).
Proof using Type.
  destruct (processPending_done parseURL stamp fsRejects outDir mainSiteHostname
              (arrivedInLastDrain closing) s) as (s1 & E & P).
  destruct (responses_run parseURL stamp fsRejects outDir mainSiteHostname
              (arrivedAtClose closing) s1) as (s2 & E2 & _).
  exists s1, s2. split; [exact E|]. split; [exact P|]. split; [exact E2|].
  unfold teardown. unfold bind at 1. rewrite E. unfold bind at 1. rewrite E2.
  reflexivity.
Qed.

End Runs.

Lemma crawl_run (parseURL : string -> option Url.t) (stamp : nat -> string)
    (fsRejects : string -> bool) (site : string -> PageScript) (closing : Closing)
    (dirRejects : string -> bool)
    (startUrl outDir : string) (maxPages fuel : nat) (u : Url.t)
    (sfin : Session) (o : outcome unit) :
  dirRejects outDir = false ->
  parseURL startUrl = Some u ->
  crawl parseURL stamp fsRejects site closing dirRejects startUrl outDir maxPages fuel
  = Some (sfin, o) ->
  exists s1 s2 s3,
    pageLoop parseURL stamp fsRejects site outDir (Url.hostname u) maxPages fuel
      (addEvent (DirEnsured outDir) (initialSession startUrl)) = Some (s1, Done tt)
    /\ processPendingResponses parseURL stamp fsRejects outDir (Url.hostname u)
         (arrivedInLastDrain closing) s1 = (s2, Done tt)
    /\ pendingResponses s2 = []
    /\ forEach (arrivedAtClose closing)
         (onResponse parseURL stamp fsRejects outDir (Url.hostname u)) s2 = (s3, Done tt)
    /\ sfin = addEvent BrowserClosed (addEvent ContextClosed s3)
    /\ o = Done tt.
Proof.
  intros D H. unfold crawl, ensureDir. rewrite D, H.
  destruct (pageLoop _ _ _ _ _ _ _ fuel _) as [[s1 o1]|] eqn:L; [|discriminate].
  pose proof (pageLoop_done _ _ _ _ _ _ _ _ _ _ _ L) as ->.
  destruct (teardown_run parseURL stamp fsRejects outDir (Url.hostname u) closing s1)
    as (s2 & s3 & E & P & E3 & T).
  rewrite T. intros K. injection K as <- <-.
  exists s1, s2, s3. auto 10.
Qed.

Lemma crawl_ends (parseURL : string -> option Url.t) (stamp : nat -> string)
    (fsRejects : string -> bool) (site : string -> PageScript) (closing : Closing)
    (dirRejects : string -> bool)
    (startUrl outDir : string) (maxPages : nat) :
  exists fuel r, forall n, fuel <= n ->
    crawl parseURL stamp fsRejects site closing dirRejects startUrl outDir maxPages n
    = Some r.
Proof.
  unfold crawl, ensureDir. destruct (dirRejects outDir).
  { exists 0. eexists. intros n _. reflexivity. }
  destruct (parseURL startUrl) as [u|].
  - destruct (pageLoop_terminates parseURL stamp fsRejects site outDir (Url.hostname u)
                maxPages (addEvent (DirEnsured outDir) (initialSession startUrl)))
      as (fuel & s' & E & _).
    exists fuel, (teardown parseURL stamp fsRejects outDir (Url.hostname u) closing s').
    intros n Hn.
    rewrite (pageLoop_more_fuel _ _ _ _ _ _ _ _ _ _ E n Hn). reflexivity.
  - exists 0. eexists. intros n _. reflexivity.
Qed.



(** C6, as the code has it: along every run of a session from a
    reachable state no URL leaves [visited]; a URL is not in [visited] at the
    moment link harvesting appends it to [toVisit]; a queued URL that is in
    [visited] when it is popped is skipped.  The queue itself may hold URLs
    that are in [visited]. *)
Theorem C6_visited_grows_and_new_links_are_unvisited :
  forall (parseURL : string -> option Url.t) (stamp : nat -> string)
    (fsRejects : string -> bool) (site : string -> PageScript)
    (outDir main startUrl : string) (maxPages : nat) (s0 s s' : Session),
    Reachable parseURL stamp fsRejects site outDir main maxPages startUrl s0 ->
    rtc (Step parseURL stamp fsRejects site outDir main maxPages) s0 s ->
    Step parseURL stamp fsRejects site outDir main maxPages s s' ->
    Reachable parseURL stamp fsRejects site outDir main maxPages startUrl s'
    /\ visited s0 ⊆ visited s
    /\ visited s ⊆ visited s'
    /\ (exists new,
          (toVisit s' = toVisit s ++ new \/ toVisit s' = tl (toVisit s) ++ new)
          /\ Forall (fun h => h ∉ visited s') new)
    /\ (forall url rest,
          toVisit s = url :: rest -> url ∈ visited s ->
          loopBody parseURL stamp fsRejects site outDir main maxPages s
          = (setToVisit rest s, Done tt)).
Proof.
  intros parseURL stamp fsRejects site outDir main startUrl maxPages s0 s s' R0 R St.
  split.
  { unfold Reachable in *. etrans; [exact R0|]. etrans; [exact R|].
    apply rtc_once. exact St. }
  split; [eapply steps_visited; exact R|].
  destruct (step_queue _ _ _ _ _ _ _ _ _ St) as [V N].
  split; [exact V|]. split; [exact N|].
  intros url rest H Hv. apply (loopBody_skip _ _ _ _ _ _ _ s url rest); [exact H|].
  unfold has. rewrite (bool_decide_eq_true_2 _ Hv). apply orb_true_r.
Qed.

Lemma afterLink_reachable :
  Reachable Url.parse Demo.stamp Demo.accept Demo.twoLinks "out" "a.com" 3
    "https://a.com/" afterLink.
Proof.
  unfold Reachable.
  eapply rtc_l; [apply StepLoop; vm_compute; reflexivity|].
  eapply rtc_l; [apply StepLoop; vm_compute; reflexivity|].
  apply rtc_refl.
Qed.

Lemma C6_witness :
  visited Demo.start ⊆ visited afterHome
  /\ visited afterHome ⊆ visited afterLink.
Proof.
  destruct (C6_visited_grows_and_new_links_are_unvisited Url.parse Demo.stamp
              Demo.accept Demo.twoLinks "out" "a.com" "https://a.com/" 3
              Demo.start afterHome afterLink) as (_ & A & B & _).
  - apply rtc_refl.
  - apply rtc_once. apply StepLoop. vm_compute. reflexivity.
  - apply StepLoop. vm_compute. reflexivity.
  - split; [exact A | exact B].
Defined.

(** C6 as stated fails: after the home page, which links twice to the same
    page, and that page have been visited, the second copy of the link is still
    queued while its URL is in [visited]. *)
Lemma C6_counterexample :
  Reachable Url.parse Demo.stamp Demo.accept Demo.twoLinks "out" "a.com" 3
    "https://a.com/" afterLink
  /\ toVisit afterLink = ["https://a.com/b"]
  /\ "https://a.com/b" ∈ visited afterLink.
Proof.
  split; [exact afterLink_reachable|]. split; [vm_compute; reflexivity|].
  assert (K : has (visited afterLink) "https://a.com/b" = true)
    by (vm_compute; reflexivity).
  unfold has in K. apply bool_decide_eq_true in K. exact K.
Qed.

(** Whatever throws inside the response handler (the body read,
    [new URL], the write) is swallowed: the handler returns normally for every
    response and every state.  The router returns normally for every response
    it has fetched and relayed, whatever the status and the body read of that
    response; an iteration of the page loop, with the responses delivered
    during it, returns normally; and a crawl that has started does not end by
    an exception of its response handler or of its page loop. *)
Lemma response_failures_never_escape :
  forall (parseURL : string -> option Url.t) (stamp : nat -> string)
    (fsRejects : string -> bool) (site : string -> PageScript)
    (closing : Closing) (dirRejects : string -> bool)
    (outDir main startUrl : string) (maxPages fuel : nat) (s : Session)
    (r : Response) (q : Route) (ok : bool) (body : BodyRead),
    q_fetch q = Fetched ok body -> q_fulfillThrows q = None ->
    dirRejects outDir = false -> parseURL startUrl <> None ->
    (exists s', onResponse parseURL stamp fsRejects outDir main r s = (s', Done tt))
    /\ (exists s', onRoute parseURL fsRejects outDir main q s = (s', Done tt))
    /\ (exists s', loopBody parseURL stamp fsRejects site outDir main maxPages s
                   = (s', Done tt))
    /\ (forall sfin o,
          crawl parseURL stamp fsRejects site closing dirRejects startUrl outDir
            maxPages fuel
          = Some (sfin, o) -> o = Done tt).
Proof.
  intros parseURL stamp fsRejects site closing dirRejects outDir main startUrl maxPages
    fuel s r q ok body Hq Hf Hd Hs.
  split; [|split; [|split]].
  - destruct (onResponse_run parseURL stamp fsRejects outDir main r s) as (s' & E & _).
    exists s'. exact E.
  - destruct (onRoute_run parseURL fsRejects outDir main q s) as (_ & _ & _ & _ & D).
    specialize (D ok body Hq Hf).
    destruct (onRoute parseURL fsRejects outDir main q s) as [s' o]. simpl in D.
    subst o. exists s'. reflexivity.
  - apply loopBody_done.
  - intros sfin o C. destruct (parseURL startUrl) as [u|] eqn:P; [|contradiction].
    destruct (crawl_run _ _ _ _ _ _ _ _ _ _ u _ _ Hd P C)
      as (_ & _ & _ & _ & _ & _ & _ & _ & D).
    exact D.
Qed.

(** C8 at the failing input: the router guards the processing of the
    fetched response, but neither [route.fetch()] nor [route.fulfill]; when the
    request it intercepts cannot be fetched, or the response cannot be relayed,
    the exception leaves the router's handler, where the response handler, on a
    response whose body cannot be read, returns normally. *)
Theorem C8_router_lets_fetch_failure_escape :
  onRoute Url.parse Demo.accept "out" "a.com" Demo.unreachableRoute Demo.start
  = (Demo.start, Thrown "net::ERR_FAILED")
  /\ snd (onRoute Url.parse Demo.accept "out" "a.com" Demo.unrelayedRoute Demo.start)
     = Thrown "Route is already handled!"
  /\ snd (onRoute Url.parse Demo.accept "out" "a.com" Demo.brokenRoute Demo.start)
     = Done tt
  /\ snd (onResponse Url.parse Demo.stamp Demo.accept "out" "a.com" Demo.lateWasm
            Demo.start) = Done tt.
Proof. repeat split; vm_compute; reflexivity. Qed.

(** C9 at the failing input: a crawl of one page whose two modules cannot
    be read when their responses arrive.  The drain of the visit saves the one
    whose body is there in time and drops, with one console line, the one whose
    body has not come when the timer of 10000 ms fires; the last drain finds
    the map empty.  The handler of a third response runs after that drain, while
    the context closes: its body read fails, the handler sets its entry (line
    214), and nothing removes it.  At the end of the session, context and
    browser closed, the entry is still in [pending], neither saved nor
    dropped. *)
Theorem C9_entry_set_after_the_last_drain_is_never_removed :
  exists sfin,
    lateCrawl = Some (sfin, Done tt)
    /\ pendingResponses sfin = [("https://a.com/last.wasm", Demo.closingWasm)]
    /\ has (saved sfin) "https://a.com/last.wasm" = false
    /\ has (saved sfin) "https://a.com/slow.wasm" = true
    /\ files sfin = [("out/a.com/wasm/slow.wasm", Demo.wasmBytes)]
    /\ trace sfin =
       [DirEnsured "out"; NewPage "https://a.com/"; Goto "https://a.com/" 1;
        WaitForTimeout 5000; WaitForTimeout 2000; PendingStart 2;
        PendingDropped "https://a.com/m.wasm" "Timeout"; PageClosed;
        PendingStart 0; ContextClosed; BrowserClosed].
Proof.
  destruct lateCrawl as [[sfin o]|] eqn:C; [|vm_compute in C; discriminate C].
  assert (o = Done tt) as -> by (vm_compute in C; injection C as _ <-; reflexivity).
  exists sfin. split; [reflexivity|].
  vm_compute in C. injection C as <-. repeat split; vm_compute; reflexivity.
Qed.

(** ** The inline extractor *)

Lemma scan_unfold (k : nat) (c : ascii) (text : list ascii) :
  scanDataUrls k (c :: text) =
  match k with
  | S k' => scanDataUrls k' text
  | 0 =>
      if Js.startsL dataUrlPrefix (c :: text) then
        match fst (Url.span Base64.inClass (skipn (length dataUrlPrefix) (c :: text))) with
        | [] => scanDataUrls 0 text
        | payload =>
            payload :: scanDataUrls (length dataUrlPrefix + length payload - 1) text
        end
      else scanDataUrls 0 text
  end.
Proof. destruct k; reflexivity. Qed.

Lemma prefix_has_one_d (i : nat) :
  1 <= i -> i < length dataUrlPrefix -> nth i dataUrlPrefix "x"%char <> "d"%char.
Proof.
  intros H1 H2. destruct i as [|i]; [lia|].
  do 28 (destruct i as [|i]; [vm_compute; discriminate|]).
  vm_compute in H2. lia.
Qed.

Lemma startsL_nth (p s : list ascii) (i : nat) (d : ascii) :
  Js.startsL p s = true -> i < length p -> nth i s d = nth i p d.
Proof.
  intros H Hi. destruct (startsL_inv p s H) as [x ->]. apply app_nth1. exact Hi.
Qed.

Lemma openMatch_neverOpen (pre : list ascii) : openMatch pre = false -> neverOpen pre.
Proof.
  intros H a run E F. unfold openMatch in H. subst pre.
  rewrite !rev_app_distr in H.
  rewrite <- app_assoc in H.
  rewrite (span_all_app Base64.inClass (rev run)) in H.
  - replace (Url.span Base64.inClass (rev dataUrlPrefix ++ rev a))
      with (@nil ascii, rev dataUrlPrefix ++ rev a) in H by reflexivity.
    cbn [snd] in H. rewrite startsL_app in H. discriminate H.
  - apply Forall_rev. exact F.
Qed.

Lemma neverOpen_tail (c : ascii) (pre : list ascii) :
  neverOpen (c :: pre) -> neverOpen pre.
Proof. intros H a run E F. apply (H (c :: a) run); [rewrite E; reflexivity | exact F]. Qed.

Lemma magicPayload_in_class :
  Forall (fun c => Base64.inClass c = true) magicPayload.
Proof. repeat constructor. Qed.

Lemma scan_at_occurrence (k : nat) (post : list ascii) :
  exists m, In m (scanDataUrls 0 (dataUrlPrefix ++ magicPayload ++ post))
            /\ Js.startsL magicPayload m = true.
Proof.
  exists (magicPayload ++ fst (Url.span Base64.inClass post)).
  split; [|apply startsL_app].
  change (dataUrlPrefix ++ magicPayload ++ post)
    with ("d"%char :: tl dataUrlPrefix ++ magicPayload ++ post).
  rewrite scan_unfold.
  change ("d"%char :: tl dataUrlPrefix ++ magicPayload ++ post)
    with (dataUrlPrefix ++ magicPayload ++ post).
  rewrite startsL_app, drop_app_length.
  rewrite (span_all_app _ _ _ magicPayload_in_class). simpl fst.
  change (magicPayload ++ fst (Url.span Base64.inClass post))
    with ("A"%char :: tl magicPayload ++ fst (Url.span Base64.inClass post)).
  left. reflexivity.
Qed.

Lemma scan_finds (pre post : list ascii) :
  neverOpen pre -> forall k, k <= length pre ->
  exists m, In m (scanDataUrls k (pre ++ dataUrlPrefix ++ magicPayload ++ post))
            /\ Js.startsL magicPayload m = true.
Proof.
  induction pre as [|c pre IH]; intros NS k Hk.
  - simpl in Hk. assert (k = 0) as -> by lia. apply (scan_at_occurrence 0).
  - specialize (IH (neverOpen_tail _ _ NS)).
    rewrite <- app_comm_cons, scan_unfold.
    destruct k as [|k]; [|apply IH; simpl in Hk; lia].
    destruct (Js.startsL dataUrlPrefix (c :: pre ++ dataUrlPrefix ++ magicPayload ++ post))
      eqn:St; [|apply IH; lia].
    destruct (fst (Url.span Base64.inClass
                     (skipn (length dataUrlPrefix)
                        (c :: pre ++ dataUrlPrefix ++ magicPayload ++ post))))
      as [|p0 payload] eqn:Pay; [apply IH; lia|].
    assert (Hb : length dataUrlPrefix + length (p0 :: payload) - 1 <= length pre).
    { destruct (le_lt_dec (length dataUrlPrefix + length (p0 :: payload)) (length (c :: pre)))
        as [Hle|Hlt]; [simpl in *; lia|]. exfalso.
      destruct (le_lt_dec (length dataUrlPrefix) (length (c :: pre))) as [Hlit|Hlit].
      - destruct (startsL_inv _ _ St) as [x Ex].
        pose proof (span_app Base64.inClass x) as Sx.
        assert (Px : fst (Url.span Base64.inClass x) = p0 :: payload).
        { rewrite <- Pay. rewrite Ex, drop_app_length. reflexivity. }
        rewrite Px in Sx.
        assert (Epre : c :: pre
                       = dataUrlPrefix
                           ++ firstn (length (c :: pre) - length dataUrlPrefix) (p0 :: payload)).
        { transitivity (firstn (length (c :: pre))
                          ((c :: pre) ++ dataUrlPrefix ++ magicPayload ++ post)).
          - symmetry. apply take_app_length.
          - rewrite <- app_comm_cons, Ex, Sx.
            rewrite firstn_app.
            rewrite (firstn_all2 dataUrlPrefix) by exact Hlit.
            f_equal. rewrite firstn_app.
            replace (length (c :: pre) - length dataUrlPrefix - length (p0 :: payload))
              with 0 by lia.
            simpl firstn at 2. apply app_nil_r. }
        apply (NS [] (firstn (length (c :: pre) - length dataUrlPrefix) (p0 :: payload))).
        + exact Epre.
        + apply Forall_take. rewrite <- Px. apply span_fst_all.
      - apply (prefix_has_one_d (length (c :: pre))); [simpl; lia | exact Hlit |].
        rewrite <- (startsL_nth _ _ _ "x"%char St Hlit).
        rewrite app_comm_cons, app_nth2 by lia. rewrite Nat.sub_diag. reflexivity. }
    destruct (IH _ Hb) as (m & Hin & Hm).
    exists m. split; [right; exact Hin | exact Hm].
Qed.

Lemma magic_payload_decodes (m : list ascii) :
  Js.startsL magicPayload m = true ->
  decodeMatch m = [x00; x61; x73; x6d; x01; x00; x00; x00].
Proof.
  intros H. destruct (startsL_inv _ _ H) as [x ->].
  unfold decodeMatch, Base64.decode. rewrite chars_str. reflexivity.
Qed.

Section Extraction.

Variable parseURL : string -> option Url.t.
Variable stamp : nat -> string.
Variable fsRejects : string -> bool.
Variable outDir mainSiteHostname : string.

Hypothesis fs_accepts : forall p, fsRejects p = false.

Lemma extract_each_exact (matches : list (list ascii)) (s : Session) :
  exists s',
    forEach matches (extractOne stamp fsRejects outDir) s = (s', Done tt)
    /\ files s' =
       files s ++ stampFiles (embeddedName stamp outDir) (draws s) (List.filter keepsWasm (map decodeMatch matches))
    /\ saved s' = saved s.
Proof using fs_accepts.
  revert s. induction matches as [|m ms IH]; intros s.
  - exists s. simpl. rewrite app_nil_r. auto.
  - rewrite forEach_cons. unfold extractOne at 1. cbv zeta. simpl map. simpl List.filter.
    unfold keepsWasm at 1. change (decodeMatch m) with (Base64.decode (Js.str m)).
    destruct ((0 <? length (Base64.decode (Js.str m)))
              && isWasmByMagic (Base64.decode (Js.str m))) eqn:K.
    + unfold bind, freshStamp, saveBuffer. rewrite fs_accepts.
      destruct (IH (addFile (inlinePath outDir (stamp (draws s)))
                      (Base64.decode (Js.str m)) (addDraw s))) as (s' & E & F & S).
      exists s'. split; [exact E|]. split; [|exact S].
      rewrite F. simpl. rewrite <- app_assoc. reflexivity.
    + unfold ret at 1. apply IH.
Qed.

Lemma js_save_exact (r : Response) (body : Buffer) (s : Session) :
  String.eqb (r_url r) "" || has (saved s) (r_url r) = false ->
  isLikelyWasmByHeuristics (contentTypeOf r) (r_url r) = false ->
  shouldProcessOf r = true ->
  r_body r = BodyOk body -> body <> [] -> isWasmByMagic body = false ->
  Js.startsWith (r_url r) "data:" = true \/ parseURL (r_url r) <> None ->
  exists s' filePath k,
    onResponse parseURL stamp fsRejects outDir mainSiteHostname r s = (s', Done tt)
    /\ files s' = files s ++ (filePath, body) :: (embeddedFiles stamp outDir) k body
    /\ r_url r ∈ saved s'.
Proof using fs_accepts.
  intros G W P B Hb M Hp.
  unfold onResponse. unfold tryCatch at 1, bind at 1, get at 1.
  rewrite G, P, W, B. cbn [negb]. cbv beta iota.
  assert (L : (length body =? 0) = false) by (destruct body; [congruence | reflexivity]).
  rewrite L, M.
  assert (X : defaultExtOf false false
                (isLikelyJsByHeuristics (contentTypeOf r) (r_url r))
                (String.eqb (r_resourceType r) "script")
                (isJsByContentTypeOf (contentTypeOf r))
                (isJsByContentOf body false) (r_resourceType r) = Some ".js").
  { unfold shouldProcessOf in P. rewrite W in P. unfold defaultExtOf. simpl.
    destruct (isLikelyJsByHeuristics (contentTypeOf r) (r_url r)); [reflexivity|].
    destruct (String.eqb (r_resourceType r) "script"); [reflexivity|].
    destruct (isJsByContentTypeOf (contentTypeOf r)); [reflexivity | discriminate P]. }
  rewrite X. simpl Js.eqOpt. cbn [orb andb]. rewrite (nonempty_length body Hb).
  unfold bind at 1.
  assert (F : exists s0 filePath,
             (if Js.startsWith (r_url r) "data:"
              then (name <- freshStamp stamp ;;
                    ret (Path.join [outDir; "inline/" +:+ name +:+ default "" (Some ".js")]))%exec
              else lift (targetPathFor parseURL (r_url r) outDir (Some ".js")
                           (contentTypeOf r) (Some mainSiteHostname))) s
             = (s0, Done filePath)
             /\ files s0 = files s /\ saved s0 = saved s).
  { destruct (Js.startsWith (r_url r) "data:") eqn:D.
    - eexists. eexists. split; [reflexivity|]. split; reflexivity.
    - destruct Hp as [Hp|Hp]; [discriminate Hp|].
      destruct (parseURL (r_url r)) as [u|] eqn:U; [|contradiction].
      exists s. eexists. split; [|split; reflexivity].
      unfold lift. rewrite (targetPathFor_resolved parseURL _ _ _ _ _ u U). reflexivity. }
  destruct F as (s0 & filePath & E0 & F0 & S0). rewrite E0.
  unfold bind at 1, saveBuffer at 1. rewrite fs_accepts.
  unfold bind at 1, modify at 1.
  unfold extractInlineWasm, tryCatch.
  match goal with
  | |- context [forEach ?ms _ ?st] =>
      destruct (extract_each_exact ms st) as (s' & E & F & S)
  end.
  rewrite E. exists s', filePath, (draws s0).
  split; [reflexivity|]. split.
  - rewrite F. simpl. rewrite F0, <- app_assoc. reflexivity.
  - rewrite S. simpl. apply elem_of_union_l, elem_of_singleton. reflexivity.
Qed.

Lemma stampFiles_in (name : nat -> string) (k : nat) (buffers : list Buffer)
    (b : Buffer) :
  In b buffers -> exists n, In (name n, b) (stampFiles name k buffers).
Proof using Type.
  revert k. induction buffers as [|b0 bs IH]; intros k H; [destruct H|].
  destruct H as [<-|H].
  - exists k. left. reflexivity.
  - destruct (IH (S k) H) as [n Hn]. exists n. right. exact Hn.
Qed.

Lemma stampFiles_keep (name : nat -> string) (k : nat) (buffers : list Buffer) :
  Forall (fun pb => In (snd pb) buffers) (stampFiles name k buffers).
Proof using Type.
  revert k. induction buffers as [|b0 bs IH]; intros k; [constructor|].
  simpl. constructor; [left; reflexivity|].
  eapply Forall_impl; [apply IH|]. intros pb H. right. exact H.
Qed.

End Extraction.

(** C7, as the code has it: for a body saved as JavaScript, the files
    written after it are the decoded payloads of the pattern's matches that
    begin with the magic number, one [inline/embedded_*.wasm] file each, and no
    other payload gives a file; the decoder is lenient, so a payload need not be
    well-formed base64 to be kept.  A data URL
    [data:application/wasm;base64,AGFzbQEAAAA=] in the body gives such a file,
    beginning with [00 61 73 6D], unless the text before it ends in the
    pattern's own prefix followed by base64 characters only. *)
Theorem C7_inline_modules_are_extracted_by_magic :
  forall (parseURL : string -> option Url.t) (stamp : nat -> string)
    (fsRejects : string -> bool) (outDir main : string) (s : Session)
    (r : Response) (body pre post : Buffer),
    (forall p, fsRejects p = false) ->
    String.eqb (r_url r) "" || has (saved s) (r_url r) = false ->
    isLikelyWasmByHeuristics (contentTypeOf r) (r_url r) = false ->
    shouldProcessOf r = true ->
    r_body r = BodyOk body -> isWasmByMagic body = false ->
    Js.startsWith (r_url r) "data:" = true \/ parseURL (r_url r) <> None ->
    body = pre ++ list_byte_of_string "data:application/wasm;base64,AGFzbQEAAAA=" ++ post ->
    openMatch (map ascii_of_byte pre) = false ->
    exists s' filePath k,
      onResponse parseURL stamp fsRejects outDir main r s = (s', Done tt)
      /\ files s' = files s ++ (filePath, body) :: embeddedFiles stamp outDir k body
      /\ Forall (fun pb => isWasmByMagic (snd pb) = true)
           (embeddedFiles stamp outDir k body)
      /\ exists n buffer,
           In (Path.join [outDir; "inline/embedded_" +:+ stamp n +:+ ".wasm"], buffer)
             (embeddedFiles stamp outDir k body)
           /\ firstn 4 buffer = [x00; x61; x73; x6d].
Proof.
  intros parseURL stamp fsRejects outDir main s r body pre post
    Hfs G W P B M Hp Eb Ho.
  assert (Hb : body <> []).
  { rewrite Eb. destruct pre; discriminate. }
  destruct (js_save_exact parseURL stamp fsRejects outDir main Hfs r body s
              G W P B Hb M Hp) as (s' & filePath & k & E & F & _).
  exists s', filePath, k. split; [exact E|]. split; [exact F|]. split.
  - unfold embeddedFiles.
    eapply Forall_impl; [apply stampFiles_keep|].
    intros pb Hin. apply filter_In in Hin as [_ K].
    unfold keepsWasm in K. apply andb_true_iff in K. apply K.
  - assert (T : Js.chars (string_of_list_byte body)
                = map ascii_of_byte pre ++ dataUrlPrefix ++ magicPayload
                    ++ map ascii_of_byte post).
    { rewrite chars_of_bytes, Eb, !map_app. reflexivity. }
    destruct (scan_finds (map ascii_of_byte pre) (map ascii_of_byte post)
                (openMatch_neverOpen _ Ho) 0 (Nat.le_0_l _)) as (m & Hin & Hm).
    rewrite <- T in Hin.
    pose proof (magic_payload_decodes m Hm) as D.
    destruct (stampFiles_in (embeddedName stamp outDir) k
                (List.filter keepsWasm
                   (map decodeMatch (scanDataUrls 0 (Js.chars (string_of_list_byte body)))))
                (decodeMatch m)) as [n Hn].
    { apply filter_In. split; [apply in_map; exact Hin|]. rewrite D. reflexivity. }
    exists n, (decodeMatch m). split; [exact Hn|]. rewrite D. reflexivity.
Qed.

Lemma C7_witness :
  exists s' filePath k,
    onResponse Url.parse Demo.stamp Demo.accept "out" "a.com" Demo.loader Demo.start
    = (s', Done tt)
    /\ files s' =
       files Demo.start ++
       (filePath, Demo.loaderBody) :: embeddedFiles Demo.stamp "out" k Demo.loaderBody
    /\ Forall (fun pb => isWasmByMagic (snd pb) = true)
         (embeddedFiles Demo.stamp "out" k Demo.loaderBody)
    /\ exists n buffer,
         In (Path.join ["out"; "inline/embedded_" +:+ Demo.stamp n +:+ ".wasm"], buffer)
           (embeddedFiles Demo.stamp "out" k Demo.loaderBody)
         /\ firstn 4 buffer = [x00; x61; x73; x6d].
Proof.
  apply (C7_inline_modules_are_extracted_by_magic Url.parse Demo.stamp Demo.accept
           "out" "a.com" Demo.start Demo.loader Demo.loaderBody
           (list_byte_of_string "var m = '") (list_byte_of_string "';"));
    first [intros p; reflexivity
          | right; vm_compute; discriminate
          | vm_compute; reflexivity].
Defined.

(** C7 as stated fails twice.  A payload of nine characters is not base64,
    yet the lenient decoder gives six bytes that begin with the magic number and
    a file is written.  And a body that contains the data URL of the claim
    directly after the pattern's prefix gives no file: the first match runs over
    the letters [data] of the second. *)
Lemma C7_counterexample :
  wellFormedBase64 "AGFzbQEAA" = false
  /\ map fst (files (fst (onResponse Url.parse Demo.stamp Demo.accept "out" "a.com"
                            Demo.oddLoader Demo.start)))
     = ["out/a.com/js/app.js"; "out/inline/embedded_1700000000000_ka.wasm"]
  /\ Js.includes
       "data:application/wasm;base64,data:application/wasm;base64,AGFzbQEAAAA="
       "data:application/wasm;base64,AGFzbQEAAAA=" = true
  /\ map fst (files (fst (onResponse Url.parse Demo.stamp Demo.accept "out" "a.com"
                            Demo.shadowedLoader Demo.start)))
     = ["out/a.com/js/app.js"].
Proof. repeat split; vm_compute; reflexivity. Qed.

(** * Further properties *)

(** ** sanitizeFilename as a projection *)

Lemma sanitize_fixed (s : string) :
  String.length s <= 200 -> Forall (fun c => isSafeChar c = true) (Js.chars s) ->
  sanitizeFilename s = s.
Proof.
  intros L F. rewrite <- (str_chars (sanitizeFilename s)), sanitize_chars.
  rewrite (cleanChar_on_safe _ F), firstn_all2 by (rewrite chars_length; exact L).
  apply str_chars.
Qed.

(** X1: [sanitizeFilename] applied twice gives what it gives once, and
    the names it leaves as they are are exactly those of at most 200
    characters, all of them in [A-Za-z0-9-_./]. *)
Theorem X1_sanitize_is_idempotent_and_fixes_safe_names :
  forall s : string,
    sanitizeFilename (sanitizeFilename s) = sanitizeFilename s
    /\ (sanitizeFilename s = s
        <-> String.length s <= 200 /\ Forall (fun c => isSafeChar c = true) (Js.chars s)).
Proof.
  intros s. split; [|split].
  - apply sanitize_fixed; [apply sanitize_length | apply sanitize_safe].
  - intros E. rewrite <- E. split; [apply sanitize_length | apply sanitize_safe].
  - intros [L F]. apply sanitize_fixed; assumption.
Qed.

(** ** The extension patterns of the heuristics *)

Lemma litThenEnd_unfold (lit s : list ascii) :
  Js.litThenEnd lit s
  = (Js.startsL lit s && endsExtension (skipn (length lit) s))
    || match s with
       | [] => false
       | _ :: s' => Js.litThenEnd lit s'
       end.
Proof. destruct s; reflexivity. Qed.

Lemma litThenEnd_found (lit a tail : list ascii) :
  endsExtension tail = true -> Js.litThenEnd lit (a ++ lit ++ tail) = true.
Proof.
  intros H. induction a as [|c a IH].
  - rewrite litThenEnd_unfold. simpl app.
    rewrite startsL_app, drop_app_length, H. reflexivity.
  - change ((c :: a) ++ lit ++ tail) with (c :: (a ++ lit ++ tail)).
    rewrite litThenEnd_unfold. cbv iota beta. rewrite IH. apply orb_true_r.
Qed.

Lemma litThenEnd_inv (lit s : list ascii) :
  Js.litThenEnd lit s = true ->
  exists a tail, s = a ++ lit ++ tail /\ endsExtension tail = true.
Proof.
  induction s as [|c s IH]; rewrite litThenEnd_unfold; intros H.
  - rewrite orb_false_r in H. apply andb_true_iff in H as [H1 H2].
    destruct (startsL_inv _ _ H1) as [x E]. exists [], x.
    split; [exact E|]. rewrite E, drop_app_length in H2. exact H2.
  - apply orb_true_iff in H as [H|H].
    + apply andb_true_iff in H as [H1 H2].
      destruct (startsL_inv _ _ H1) as [x E]. exists [], x.
      split; [exact E|]. rewrite E, drop_app_length in H2. exact H2.
    + destruct (IH H) as (a & tail & -> & T). exists (c :: a), tail. split; [reflexivity | exact T].
Qed.

(** X2: a URL whose lower-cased text holds [.wasm] followed by nothing,
    by a query or by a fragment is taken for WASM by the heuristics, whatever
    the content type; one that holds [.js] or [.mjs] so followed is taken for
    JavaScript. *)
Theorem X2_extension_patterns_allow_a_query_or_a_fragment :
  forall (ct : option string) (url : string) (a tail : list ascii),
    endsExtension tail = true ->
    (Js.chars (Js.toLowerCase url) = a ++ Js.chars ".wasm" ++ tail ->
     isLikelyWasmByHeuristics ct url = true)
    /\ (Js.chars (Js.toLowerCase url) = a ++ Js.chars ".js" ++ tail
        \/ Js.chars (Js.toLowerCase url) = a ++ Js.chars ".mjs" ++ tail ->
        isLikelyJsByHeuristics ct url = true).
Proof.
  intros ct url a tail T. split.
  - intros E. unfold isLikelyWasmByHeuristics.
    destruct (Js.lowerIncludes ct "application/wasm"); [reflexivity|].
    rewrite E, (litThenEnd_found _ _ _ T). reflexivity.
  - intros E. unfold isLikelyJsByHeuristics.
    destruct (Js.lowerIncludes ct "javascript"); [reflexivity|].
    destruct E as [E|E]; rewrite E, (litThenEnd_found _ _ _ T), ?orb_true_r; reflexivity.
Qed.

Lemma X2_witness :
  isLikelyWasmByHeuristics None "https://a.com/pkg/App.WASM?v=2" = true.
Proof.
  apply (X2_extension_patterns_allow_a_query_or_a_fragment None
           "https://a.com/pkg/App.WASM?v=2" (Js.chars "https://a.com/pkg/app")
           (Js.chars "?v=2")); reflexivity.
Defined.

(** ** Substrings *)

Lemma includesL_app (p a b : list ascii) : Js.includesL p (a ++ p ++ b) = true.
Proof.
  induction a as [|c a IH].
  - simpl app. destruct (p ++ b) eqn:E; simpl; rewrite <- ?E, startsL_app; reflexivity.
  - simpl. rewrite IH. apply orb_true_r.
Qed.

Lemma includesL_inv (p s : list ascii) :
  Js.includesL p s = true -> exists a b, s = a ++ p ++ b.
Proof.
  induction s as [|c s IH]; simpl; intros H.
  - rewrite orb_false_r in H. destruct (startsL_inv _ _ H) as [x E]. exists [], x. exact E.
  - apply orb_true_iff in H as [H|H].
    + destruct (startsL_inv _ _ H) as [x E]. exists [], x. exact E.
    + destruct (IH H) as (a & b & ->). exists (c :: a), b. reflexivity.
Qed.

Lemma includesL_sub (q p s : list ascii) :
  Js.includesL q p = true -> Js.includesL p s = true -> Js.includesL q s = true.
Proof.
  intros Hq Hp.
  destruct (includesL_inv _ _ Hq) as (a & b & ->).
  destruct (includesL_inv _ _ Hp) as (a' & b' & ->).
  replace (a' ++ (a ++ q ++ b) ++ b') with ((a' ++ a) ++ q ++ (b ++ b'))
    by (rewrite <- !app_assoc; reflexivity).
  apply includesL_app.
Qed.

Lemma lowerIncludes_sub (ct : option string) (q p : string) :
  Js.includes p q = true ->
  Js.lowerIncludes ct p = true -> Js.lowerIncludes ct q = true.
Proof.
  unfold Js.lowerIncludes, Js.includes. intros Hq. destruct ct as [s|]; [|discriminate].
  intros H. apply andb_true_iff in H as [Hn Hp]. rewrite Hn. simpl.
  eapply includesL_sub; eassumption.
Qed.

Lemma isJsByContentTypeOf_three (ct : option string) :
  isJsByContentTypeOf ct
  = Js.lowerIncludes ct "javascript" || Js.lowerIncludes ct "ecmascript"
    || Js.lowerIncludes ct "text/js".
Proof.
  unfold isJsByContentTypeOf.
  pose proof (lowerIncludes_sub ct "javascript" "application/javascript" eq_refl) as A.
  pose proof (lowerIncludes_sub ct "javascript" "application/x-javascript" eq_refl) as B.
  destruct (Js.lowerIncludes ct "javascript"); [reflexivity|].
  destruct (Js.lowerIncludes ct "application/javascript"); [discriminate (A eq_refl)|].
  destruct (Js.lowerIncludes ct "application/x-javascript"); [discriminate (B eq_refl)|].
  rewrite !orb_false_r. reflexivity.
Qed.

Lemma jsHeur_of_contentType (ct : option string) (url : string) :
  Js.lowerIncludes ct "javascript" = true -> isLikelyJsByHeuristics ct url = true.
Proof. intros H. unfold isLikelyJsByHeuristics. rewrite H. reflexivity. Qed.

(** X3: the [shouldProcess] gate of the response handler is decided by
    five tests: the WASM heuristics, the JavaScript heuristics, a request of
    type [script], and a content type that mentions [ecmascript] or [text/js].
    The tests of [isJsByContentType] for [application/javascript] and
    [application/x-javascript] add nothing to its test for [javascript], and a
    content type that mentions [javascript] is already a JavaScript
    heuristic. *)
Theorem X3_gate_is_decided_by_five_tests :
  forall r : Response,
    let ct := contentTypeOf r in
    isJsByContentTypeOf ct
    = Js.lowerIncludes ct "javascript" || Js.lowerIncludes ct "ecmascript"
      || Js.lowerIncludes ct "text/js"
    /\ shouldProcessOf r
       = isLikelyWasmByHeuristics ct (r_url r) || isLikelyJsByHeuristics ct (r_url r)
         || String.eqb (r_resourceType r) "script"
         || Js.lowerIncludes ct "ecmascript" || Js.lowerIncludes ct "text/js".
Proof.
  intros r. cbv zeta. split; [apply isJsByContentTypeOf_three|].
  unfold shouldProcessOf. cbv zeta. rewrite isJsByContentTypeOf_three.
  pose proof (jsHeur_of_contentType (contentTypeOf r) (r_url r)) as J.
  destruct (isLikelyWasmByHeuristics (contentTypeOf r) (r_url r)); [reflexivity|].
  destruct (isLikelyJsByHeuristics (contentTypeOf r) (r_url r)); [reflexivity|].
  destruct (String.eqb (r_resourceType r) "script"); [reflexivity|].
  destruct (Js.lowerIncludes (contentTypeOf r) "javascript"); [discriminate (J eq_refl)|].
  simpl. rewrite orb_false_r. reflexivity.
Qed.

(** ** The classification of a response *)

Lemma defaultExt_past_gate (r : Response) (body : Buffer) (sniffed : bool) :
  shouldProcessOf r = true ->
  defaultExtOf (isLikelyWasmByHeuristics (contentTypeOf r) (r_url r)) (isWasmByMagic body)
    (isLikelyJsByHeuristics (contentTypeOf r) (r_url r))
    (String.eqb (r_resourceType r) "script")
    (isJsByContentTypeOf (contentTypeOf r)) sniffed (r_resourceType r)
  = if isLikelyWasmByHeuristics (contentTypeOf r) (r_url r) || isWasmByMagic body
    then Some ".wasm" else Some ".js".
Proof.
  intros P. unfold shouldProcessOf in P. cbv zeta in P. unfold defaultExtOf.
  destruct (isLikelyWasmByHeuristics (contentTypeOf r) (r_url r)); [reflexivity|].
  destruct (isWasmByMagic body); [reflexivity|].
  destruct (isLikelyJsByHeuristics (contentTypeOf r) (r_url r)); [reflexivity|].
  destruct (String.eqb (r_resourceType r) "script"); [reflexivity|].
  destruct (isJsByContentTypeOf (contentTypeOf r)); [reflexivity | discriminate P].
Qed.

(** X4: for a response that passes the gate, the final classification is
    [.wasm] when the heuristics take it for WASM or its body begins with the
    magic number, and [.js] otherwise: it is never [null], the branch that
    forces [.js] for a script request is never reached, and the result of the
    content sniffing ([isJsByContent]) does not change it. *)
Theorem X4_classification_past_the_gate :
  forall (r : Response) (body : Buffer) (sniffed : bool),
    shouldProcessOf r = true ->
    let ct := contentTypeOf r in
    defaultExtOf (isLikelyWasmByHeuristics ct (r_url r)) (isWasmByMagic body)
      (isLikelyJsByHeuristics ct (r_url r)) (String.eqb (r_resourceType r) "script")
      (isJsByContentTypeOf ct) sniffed (r_resourceType r)
    = (if isLikelyWasmByHeuristics ct (r_url r) || isWasmByMagic body
       then Some ".wasm" else Some ".js")
    /\ defaultExtOf (isLikelyWasmByHeuristics ct (r_url r)) (isWasmByMagic body)
         (isLikelyJsByHeuristics ct (r_url r)) (String.eqb (r_resourceType r) "script")
         (isJsByContentTypeOf ct) sniffed (r_resourceType r)
       = defaultExtOf (isLikelyWasmByHeuristics ct (r_url r)) (isWasmByMagic body)
           (isLikelyJsByHeuristics ct (r_url r)) (String.eqb (r_resourceType r) "script")
           (isJsByContentTypeOf ct)
           (isJsByContentOf body (isWasmByMagic body)) (r_resourceType r).
Proof.
  intros r body sniffed P. cbv zeta.
  rewrite !(defaultExt_past_gate r body _ P). split; reflexivity.
Qed.

Lemma X4_witness :
  defaultExtOf false true false true false false "script" = Some ".wasm".
Proof.
  exact (proj1 (X4_classification_past_the_gate Demo.htmlWasmScript Demo.wasmBytes false
                  eq_refl)).
Defined.

(** ** Paths of plain components *)

Lemma split_app_slash (x y cur : list ascii) :
  Path.split (x ++ Path.slash :: y) cur = Path.split x cur ++ Path.split y [].
Proof.
  revert cur. induction x as [|c x IH]; intros cur; simpl.
  - reflexivity.
  - destruct (Ascii.eqb c Path.slash); [rewrite IH; reflexivity | apply IH].
Qed.

Lemma split_plain (y cur : list ascii) :
  forallb notSlash y = true -> Path.split y cur = [rev cur ++ y].
Proof.
  revert cur. induction y as [|c y IH]; intros cur H; simpl.
  - rewrite app_nil_r. reflexivity.
  - simpl in H. apply andb_true_iff in H as [Hc Hy].
    unfold notSlash in Hc. apply negb_true_iff in Hc. rewrite Hc.
    rewrite (IH _ Hy). simpl. rewrite <- app_assoc. reflexivity.
Qed.

Lemma pushSegment_plain (allow : bool) (st : list (list ascii)) (seg : list ascii) :
  plainChars seg = true -> Path.pushSegment allow st seg = seg :: st.
Proof.
  unfold plainChars. intros H.
  apply andb_true_iff in H as [H Hd]. apply andb_true_iff in H as [Hn _].
  apply negb_true_iff in Hd.
  destruct seg as [|d1 [|d2 [|d3 seg]]]; simpl in *; try discriminate; try reflexivity.
  - rewrite Hd. reflexivity.
  - rewrite Hd. reflexivity.
Qed.

Lemma joinSegments_snoc (l : list (list ascii)) (x : list ascii) :
  l <> [] -> Path.joinSegments (l ++ [x]) = Path.joinSegments l ++ Path.slash :: x.
Proof.
  induction l as [|a l IH]; intros H; [congruence|].
  destruct l as [|b l]; [reflexivity|].
  change (Path.joinSegments ((a :: b :: l) ++ [x]))
    with (a ++ Path.slash :: Path.joinSegments ((b :: l) ++ [x])).
  rewrite IH by discriminate.
  change (Path.joinSegments (a :: b :: l)) with (a ++ Path.slash :: Path.joinSegments (b :: l)).
  rewrite <- app_assoc. reflexivity.
Qed.

Lemma plainChars_nonempty (seg : list ascii) : plainChars seg = true -> seg <> [].
Proof. destruct seg; [discriminate | congruence]. Qed.

Lemma plainChars_noSlash (seg : list ascii) :
  plainChars seg = true -> forallb notSlash seg = true.
Proof.
  unfold plainChars. intros H. apply andb_true_iff in H as [H _].
  apply andb_true_iff in H as [_ H]. exact H.
Qed.

Lemma joinSegments_snoc_nonempty (l : list (list ascii)) (x : list ascii) :
  x <> [] -> Path.joinSegments (l ++ [x]) <> [].
Proof.
  intros Hx. destruct l as [|a l]; [exact Hx|].
  rewrite joinSegments_snoc by discriminate.
  intros E. apply app_eq_nil in E as [_ E]. discriminate E.
Qed.

Lemma no_trailing_slash (pre seg : list ascii) :
  seg <> [] -> forallb notSlash seg = true ->
  Js.startsL [Path.slash] (rev (pre ++ seg)) = false.
Proof.
  intros Hn Hs. rewrite rev_app_distr.
  destruct (rev seg) as [|c r] eqn:E.
  - apply (f_equal (@rev ascii)) in E. rewrite rev_involutive in E. contradiction.
  - assert (Hc : notSlash c = true).
    { rewrite forallb_forall in Hs. apply Hs. apply in_rev. rewrite E. left. reflexivity. }
    unfold notSlash in Hc. apply negb_true_iff in Hc.
    change (Js.startsL [Path.slash] ((c :: r) ++ rev pre))
      with (Ascii.eqb Path.slash c && true).
    rewrite Ascii.eqb_sym, Hc. reflexivity.
Qed.

Lemma split_under (x h : list ascii) :
  forallb notSlash h = true ->
  exists segs, Path.split (under x h) [] = segs ++ [h].
Proof.
  intros Hh. destruct x as [|c x].
  - exists []. simpl under. rewrite (split_plain h [] Hh). reflexivity.
  - exists (Path.split (c :: x) []). unfold under.
    rewrite split_app_slash, (split_plain h [] Hh). reflexivity.
Qed.

Lemma under_nonempty (x h : list ascii) : h <> [] -> under x h <> [].
Proof.
  intros Hh. destruct x; [exact Hh | discriminate].
Qed.

(** A plain component appended to a path that ends in a plain component
    is kept as it is by [path.normalize]. *)
Lemma normalize_snoc (x h seg : list ascii) :
  plainChars h = true -> plainChars seg = true ->
  Path.normalize (under x h ++ Path.slash :: seg)
  = Path.normalize (under x h) ++ Path.slash :: seg.
Proof.
  intros Hh Hs.
  pose proof (plainChars_nonempty _ Hh) as Hhn.
  pose proof (plainChars_noSlash _ Hh) as Hhs.
  pose proof (plainChars_nonempty _ Hs) as Hsn.
  pose proof (plainChars_noSlash _ Hs) as Hss.
  destruct (split_under x h Hhs) as [segs Esp].
  assert (Ey : exists pre, under x h = pre ++ h).
  { destruct x as [|c x]; [exists []; reflexivity|].
    exists ((c :: x) ++ [Path.slash]). unfold under. rewrite <- app_assoc. reflexivity. }
  destruct Ey as [pre Ey].
  destruct (under x h) as [|c y] eqn:Ey0.
  { exfalso. apply (under_nonempty x h Hhn). exact Ey0. }
  assert (T1 : Js.startsL [Path.slash] (rev (c :: y)) = false).
  { rewrite Ey. apply (no_trailing_slash pre h); assumption. }
  assert (T2 : Js.startsL [Path.slash] (rev ((c :: y) ++ Path.slash :: seg)) = false).
  { replace ((c :: y) ++ Path.slash :: seg) with (((c :: y) ++ [Path.slash]) ++ seg)
      by (rewrite <- app_assoc; reflexivity).
    apply (no_trailing_slash _ seg); assumption. }
  assert (N : forall allow,
    Path.normalizeString ((c :: y) ++ Path.slash :: seg) allow
    = Path.normalizeString (c :: y) allow ++ Path.slash :: seg
    /\ Path.normalizeString (c :: y) allow <> []).
  { intros allow. unfold Path.normalizeString.
    rewrite split_app_slash, (split_plain seg [] Hss), Esp. simpl rev. simpl app at 2.
    rewrite !fold_left_app. simpl fold_left.
    rewrite (pushSegment_plain _ _ h Hh), (pushSegment_plain _ _ seg Hs).
    simpl rev. split.
    - apply joinSegments_snoc. intros E. apply app_eq_nil in E as [_ E]. discriminate E.
    - apply joinSegments_snoc_nonempty. exact Hhn. }
  change ((c :: y) ++ Path.slash :: seg) with (c :: (y ++ Path.slash :: seg)) in *.
  unfold Path.normalize. rewrite T1, T2.
  destruct (N (negb (Ascii.eqb c Path.slash))) as [N1 N2].
  rewrite N1.
  destruct (Path.normalizeString (c :: y) (negb (Ascii.eqb c Path.slash))) as [|q0 q] eqn:Q;
    [congruence|].
  simpl app. destruct (Ascii.eqb c Path.slash); reflexivity.
Qed.

Lemma str_app (a b : list ascii) : Js.str (a ++ b) = Js.str a +:+ Js.str b.
Proof.
  unfold Js.str. induction a as [|c a IH]; simpl; [reflexivity|].
  rewrite IH. reflexivity.
Qed.

Lemma append_assoc (a b c : string) : (a +:+ b) +:+ c = a +:+ (b +:+ c).
Proof.
  induction a as [|x a IH]; [reflexivity|].
  change (String x ((a +:+ b) +:+ c) = String x (a +:+ (b +:+ c))).
  rewrite IH. reflexivity.
Qed.

Lemma plainSegment_nonempty (seg : string) :
  plainSegment seg = true -> String.eqb seg "" = false.
Proof.
  unfold plainSegment. intros H. apply plainChars_nonempty in H.
  destruct seg; [contradiction H; reflexivity | reflexivity].
Qed.

Lemma under_chars (b h : string) :
  String.eqb h "" = false ->
  Path.joinSegments
    (map Js.chars (List.filter (fun p => negb (String.eqb p "")) [b; h]))
  = under (Js.chars b) (Js.chars h).
Proof.
  intros Hh. simpl. rewrite Hh. simpl.
  destruct b as [|c b]; reflexivity.
Qed.

Lemma under_cons (x seg : list ascii) : x <> [] -> under x seg = x ++ Path.slash :: seg.
Proof. destruct x; [congruence | reflexivity]. Qed.

(** [path.join] of a directory and three plain components. *)
Lemma join_plain (b h t f : string) :
  plainSegment h = true -> plainSegment t = true -> plainSegment f = true ->
  Path.join [b; h; t; f] = Path.join [b; h] +:+ "/" +:+ t +:+ "/" +:+ f.
Proof.
  intros Hh Ht Hf.
  pose proof (plainSegment_nonempty _ Hh) as Nh.
  pose proof (plainSegment_nonempty _ Ht) as Nt.
  pose proof (plainSegment_nonempty _ Hf) as Nf.
  assert (J2 : Path.join [b; h] = Js.str (Path.normalize (under (Js.chars b) (Js.chars h)))).
  { unfold Path.join. rewrite <- (under_chars b h Nh). simpl. rewrite Nh. simpl.
    destruct (String.eqb b ""); reflexivity. }
  assert (J4 : Path.join [b; h; t; f]
               = Js.str (Path.normalize
                           ((under (Js.chars b) (Js.chars h) ++ Path.slash :: Js.chars t)
                              ++ Path.slash :: Js.chars f))).
  { unfold Path.join. simpl. rewrite Nh, Nt, Nf. simpl.
    destruct b as [|c b]; simpl; rewrite <- ?app_assoc; reflexivity. }
  rewrite J4, J2.
  assert (U : under (Js.chars b) (Js.chars h) ++ Path.slash :: Js.chars t
              = under (under (Js.chars b) (Js.chars h)) (Js.chars t)).
  { symmetry. apply under_cons. apply under_nonempty, plainChars_nonempty. exact Hh. }
  rewrite U, (normalize_snoc _ _ _ Ht Hf), <- U, (normalize_snoc _ _ _ Hh Ht).
  rewrite !str_app.
  change (Path.slash :: Js.chars t) with ([Path.slash] ++ Js.chars t).
  change (Path.slash :: Js.chars f) with ([Path.slash] ++ Js.chars f).
  rewrite !str_app, !str_chars. 
  change (Js.str [Path.slash]) with "/"%string.
  rewrite !append_assoc. reflexivity.
Qed.

(** The file name of [targetPathFor] is one path component. *)

Lemma cleanChar_notSlash (c : ascii) : notSlash (cleanChar c) = notSlash c.
Proof.
  unfold cleanChar. destruct (isSafeChar c) eqn:E; [reflexivity|].
  unfold notSlash. destruct (Ascii.eqb_spec c Path.slash) as [->|_]; [discriminate E | reflexivity].
Qed.

Lemma cleanChar_dot (c : ascii) : Ascii.eqb (cleanChar c) Path.dot = Ascii.eqb c Path.dot.
Proof.
  unfold cleanChar. destruct (isSafeChar c) eqn:E; [reflexivity|].
  destruct (Ascii.eqb_spec c Path.dot) as [->|_]; [discriminate E | reflexivity].
Qed.

Lemma sanitize_noSlash (s : string) :
  forallb notSlash (Js.chars s) = true ->
  forallb notSlash (Js.chars (sanitizeFilename s)) = true.
Proof.
  intros H. rewrite sanitize_chars. apply forallb_forall. intros c Hc.
  rewrite forallb_forall in H.
  assert (Hin : In c (map cleanChar (Js.chars s))).
  { revert Hc. generalize 200, (map cleanChar (Js.chars s)).
    intros n l. revert n. induction l as [|a l IH]; intros [|n]; simpl; try tauto.
    intros [->|Hc]; [left; reflexivity | right; eapply IH; exact Hc]. }
  apply in_map_iff in Hin as (c0 & <- & Hc0).
  rewrite cleanChar_notSlash. apply H, Hc0.
Qed.

Lemma sanitize_isDots (s : string) :
  isDots (Js.chars (sanitizeFilename s)) = true -> isDots (Js.chars s) = true.
Proof.
  rewrite sanitize_chars.
  destruct (Js.chars s) as [|a [|b [|c l]]]; simpl; try discriminate.
  - rewrite cleanChar_dot. auto.
  - rewrite !cleanChar_dot. auto.
Qed.

Lemma sanitize_nonempty (s : string) :
  String.eqb s "" = false -> Js.chars (sanitizeFilename s) <> [].
Proof.
  intros H. rewrite sanitize_chars. destruct s; [discriminate H|]. discriminate.
Qed.

Lemma sanitize_plain (s : string) :
  plainSegment s = true -> plainSegment (sanitizeFilename s) = true.
Proof.
  unfold plainSegment, plainChars. intros H.
  apply andb_true_iff in H as [H Hd]. apply andb_true_iff in H as [Hn Hs].
  apply andb_true_iff. split; [apply andb_true_iff; split|].
  - assert (N : String.eqb s "" = false).
    { destruct s; [discriminate Hn | reflexivity]. }
    pose proof (sanitize_nonempty s N) as K.
    destruct (Js.chars (sanitizeFilename s)); [congruence | reflexivity].
  - apply sanitize_noSlash, Hs.
  - apply negb_true_iff. apply negb_true_iff in Hd.
    destruct (isDots (Js.chars (sanitizeFilename s))) eqn:E; [|reflexivity].
    rewrite (sanitize_isDots s E) in Hd. discriminate Hd.
Qed.

Lemma slashToUnderscore_notSlash (c : ascii) : notSlash (slashToUnderscore c) = true.
Proof.
  unfold slashToUnderscore, notSlash.
  destruct (Ascii.eqb_spec c "/") as [->|N]; [reflexivity|].
  apply negb_true_iff. apply Ascii.eqb_neq. exact N.
Qed.

Lemma baseNameFor_noSlash (pathname : string) :
  forallb notSlash (Js.chars (baseNameFor pathname)) = true.
Proof.
  unfold baseNameFor.
  set (stripped := match Js.chars pathname with
                   | "/"%char :: rest => rest
                   | cs => cs
                   end).
  assert (H : forallb notSlash (map slashToUnderscore stripped) = true).
  { apply forallb_forall. intros c Hc. apply in_map_iff in Hc as (c0 & <- & _).
    apply slashToUnderscore_notSlash. }
  cbv zeta.
  destruct (_ || _); [rewrite chars_append, forallb_app|]; rewrite chars_str, H; reflexivity.
Qed.

Lemma baseNameFor_nonempty (pathname : string) : String.eqb (baseNameFor pathname) "" = false.
Proof.
  unfold baseNameFor. cbv zeta.
  match goal with |- context [Js.str ?l] => destruct (Js.str l) as [|c s] eqn:E end.
  - reflexivity.
  - destruct (_ || _); reflexivity.
Qed.

Lemma fileNameFor_given (pathname ext : string) (ct : option string) :
  ext <> "" ->
  fileNameFor pathname (Some ext) ct
  = if String.eqb (Path.extname (baseNameFor pathname)) ""
    then baseNameFor pathname +:+ ext else baseNameFor pathname.
Proof.
  intros He. unfold fileNameFor. cbv zeta.
  destruct (String.eqb_spec (Path.extname (baseNameFor pathname)) "") as [E|E];
    [|reflexivity].
  rewrite E. unfold Js.or_else.
  assert (N : String.eqb ext "" = false) by (apply String.eqb_neq; exact He).
  simpl. rewrite N. simpl. rewrite N. cbn [negb]. cbv beta iota.
  unfold Js.truthy. rewrite N. reflexivity.
Qed.

Lemma isDots_inv (cs : list ascii) :
  isDots cs = true -> cs = [Path.dot] \/ cs = [Path.dot; Path.dot].
Proof.
  destruct cs as [|a [|b [|c l]]]; simpl; try discriminate.
  - intros H. apply Ascii.eqb_eq in H. subst. left. reflexivity.
  - intros H. apply andb_true_iff in H as [Ha Hb].
    apply Ascii.eqb_eq in Ha, Hb. subst. right. reflexivity.
Qed.

Lemma isDots_long (cs : list ascii) : 3 <= length cs -> isDots cs = false.
Proof. destruct cs as [|a [|b [|c l]]]; simpl; intros; try lia; reflexivity. Qed.

Lemma fileNameFor_plain (pathname ext : string) (ct : option string) :
  ext = ".js" \/ ext = ".wasm" ->
  plainSegment (fileNameFor pathname (Some ext) ct) = true.
Proof.
  intros He.
  assert (Hne : ext <> "") by (destruct He as [-> | ->]; discriminate).
  assert (Hes : forallb notSlash (Js.chars ext) = true)
    by (destruct He as [-> | ->]; reflexivity).
  assert (Hel : 3 <= length (Js.chars ext))
    by (destruct He as [-> | ->]; simpl; lia).
  rewrite (fileNameFor_given pathname ext ct Hne).
  pose proof (baseNameFor_noSlash pathname) as Hs.
  pose proof (baseNameFor_nonempty pathname) as Hn.
  unfold plainSegment, plainChars.
  destruct (String.eqb_spec (Path.extname (baseNameFor pathname)) "") as [E|E].
  - rewrite chars_append, forallb_app, Hs, Hes, length_app.
    rewrite isDots_long by (rewrite length_app; lia).
    destruct (length (Js.chars (baseNameFor pathname)) + length (Js.chars ext)) eqn:L;
      [lia | reflexivity].
  - rewrite Hs.
    destruct (baseNameFor pathname) as [|c b] eqn:B; [discriminate Hn|].
    destruct (isDots (Js.chars (String c b))) eqn:D; [|reflexivity].
    exfalso. apply E.
    destruct (isDots_inv _ D) as [K|K];
      apply (f_equal Js.str) in K; rewrite str_chars in K; rewrite K; reflexivity.
Qed.

Lemma isDots_with_underscore (h f : list ascii) :
  f <> [] -> isDots (h ++ ["_"%char] ++ f) = false.
Proof.
  intros Hf. destruct f as [|f0 f]; [congruence|].
  destruct h as [|a [|b h]]; [destruct f; reflexivity | reflexivity |].
  apply isDots_long. simpl. rewrite length_app. simpl. lia.
Qed.

Lemma targetFileNameFor_plain (u : Url.t) (ext : string) (ct main : option string) :
  ext = ".js" \/ ext = ".wasm" ->
  forallb notSlash (Js.chars (Url.hostname u)) = true ->
  plainSegment (targetFileNameFor u (Some ext) ct main) = true.
Proof.
  intros He Hh. unfold targetFileNameFor.
  pose proof (fileNameFor_plain (Url.pathname u) ext ct He) as Hf.
  destruct (isThirdParty (Url.hostname u) main); [|exact Hf].
  unfold plainSegment, plainChars in *.
  apply andb_true_iff in Hf as [Hf Hd]. apply andb_true_iff in Hf as [Hn Hs].
  rewrite !chars_append, !forallb_app, (sanitize_noSlash _ Hh), Hs.
  change (Js.chars "_") with ["_"%char].
  assert (Nf : Js.chars (fileNameFor (Url.pathname u) (Some ext) ct) <> []).
  { intros E. rewrite E in Hn. discriminate Hn. }
  rewrite (isDots_with_underscore _ _ Nf), length_app.
  simpl. rewrite Nat.add_succ_r. reflexivity.
Qed.

Lemma fileTypeFor_given (ext : string) (ct : option string) :
  ext = ".js" \/ ext = ".wasm" ->
  fileTypeFor (Some ext) ct
  = if String.eqb ext ".js" || Js.lowerIncludes ct "javascript" then "js" else "wasm".
Proof.
  intros [-> | ->]; unfold fileTypeFor; simpl; [reflexivity|].
  destruct (Js.lowerIncludes ct "javascript"); reflexivity.
Qed.

Lemma bucket_plain (ext ct : option string) : plainSegment (fileTypeFor ext ct) = true.
Proof.
  pose proof (fileTypeFor_bucket ext ct) as H. unfold buckets in H. simpl in H.
  repeat (destruct H as [<-|H]; [reflexivity|]). destruct H.
Qed.

(** ** File names and extensions *)

(** X5: the file name [targetPathFor] builds keeps the extension of the
    URL: when the last component of the path has one, the name is the
    flattened path, whatever the classification and the content type.  The
    classification's extension is appended only to a name without extension,
    and with a classification ([.js] or [.wasm], as at every call site) the
    content type is not consulted for the name. *)
Theorem X5_extension_of_the_url_is_kept :
  forall pathname : string,
    (forall ext ct ct', isClassExt ext ->
       fileNameFor pathname (Some ext) ct = fileNameFor pathname (Some ext) ct')
    /\ (Path.extname (baseNameFor pathname) <> "" ->
        forall ext ct, fileNameFor pathname ext ct = baseNameFor pathname)
    /\ (Path.extname (baseNameFor pathname) = "" ->
        forall ext ct, isClassExt ext ->
          fileNameFor pathname (Some ext) ct = baseNameFor pathname +:+ ext).
Proof.
  intros pathname. split; [|split].
  - intros ext ct ct' He. apply fileNameFor_ext. destruct He as [-> | ->]; discriminate.
  - intros E ext ct. unfold fileNameFor. cbv zeta.
    destruct (String.eqb_spec (Path.extname (baseNameFor pathname)) ""); [contradiction|].
    reflexivity.
  - intros E ext ct He. rewrite fileNameFor_given by (destruct He as [-> | ->]; discriminate).
    rewrite E. reflexivity.
Qed.

(** ** Names that collide *)

Lemma slashToUnderscore_idem (c : ascii) :
  slashToUnderscore (slashToUnderscore c) = slashToUnderscore c.
Proof.
  unfold slashToUnderscore. destruct (Ascii.eqb c "/") eqn:E; [reflexivity|].
  rewrite E. reflexivity.
Qed.

Lemma baseNameFor_flat (cs : list ascii) :
  baseNameFor (Js.str ("/"%char :: map slashToUnderscore cs))
  = baseNameFor (Js.str ("/"%char :: cs)).
Proof.
  unfold baseNameFor. rewrite !chars_str. cbv iota beta.
  rewrite map_map. rewrite (map_ext _ _ slashToUnderscore_idem). reflexivity.
Qed.

(** X6: [targetPathFor] is not injective: two URLs of one host whose
    paths differ only by [/] against [_] after the leading slash resolve to the
    same path, so that the later save overwrites the earlier. *)
Theorem X6_slash_and_underscore_paths_collide :
  forall (parseURL : string -> option Url.t) (url1 url2 baseDir : string)
    (ext ct main : option string) (u1 u2 : Url.t) (cs : list ascii),
    parseURL url1 = Some u1 -> parseURL url2 = Some u2 ->
    Url.hostname u1 = Url.hostname u2 ->
    Url.pathname u1 = Js.str ("/"%char :: cs) ->
    Url.pathname u2 = Js.str ("/"%char :: map slashToUnderscore cs) ->
    targetPathFor parseURL url1 baseDir ext ct main
    = targetPathFor parseURL url2 baseDir ext ct main.
Proof.
  intros parseURL url1 url2 baseDir ext ct main u1 u2 cs H1 H2 Hh P1 P2.
  rewrite (targetPathFor_resolved _ _ _ _ _ _ u1 H1), (targetPathFor_resolved _ _ _ _ _ _ u2 H2).
  unfold targetHostnameFor, targetFileNameFor, fileNameFor.
  rewrite Hh, P1, P2, baseNameFor_flat. reflexivity.
Qed.

Lemma X6_witness :
  targetPathFor Url.parse "https://a.com/js/app.js" "out" (Some ".js") None (Some "a.com")
  = targetPathFor Url.parse "https://a.com/js_app.js" "out" (Some ".js") None (Some "a.com")
  /\ "https://a.com/js/app.js" <> "https://a.com/js_app.js".
Proof.
  split; [|discriminate].
  apply (X6_slash_and_underscore_paths_collide Url.parse _ _ "out" (Some ".js") None
           (Some "a.com")
           {| Url.hostname := "a.com"; Url.pathname := "/js/app.js";
              Url.origin := "https://a.com" |}
           {| Url.hostname := "a.com"; Url.pathname := "/js_app.js";
              Url.origin := "https://a.com" |}
           (Js.chars "js/app.js")); reflexivity.
Defined.

(** ** Where a resolved path lies *)

(** X7: when the sanitized target hostname is a plain path component
    (not empty, without [/], neither [.] nor [..]) and the hostname of the URL
    holds no [/], the path resolved for a classified body is the site's
    directory [path.join(baseDir, host)], then the bucket, [js] or [wasm], then
    a file name that is itself one plain component: the file lies exactly two
    levels below the site's directory. *)
Theorem X7_resolved_path_lies_in_its_bucket :
  forall (parseURL : string -> option Url.t) (url baseDir ext : string)
    (ct main : option string) (u : Url.t),
    parseURL url = Some u ->
    ext = ".js" \/ ext = ".wasm" ->
    forallb notSlash (Js.chars (Url.hostname u)) = true ->
    plainSegment (sanitizeFilename (targetHostnameFor u main)) = true ->
    let site := Path.join [baseDir; sanitizeFilename (targetHostnameFor u main)] in
    let bucket := fileTypeFor (Some ext) ct in
    let name := sanitizeFilename (targetFileNameFor u (Some ext) ct main) in
    targetPathFor parseURL url baseDir (Some ext) ct main
    = Done (site +:+ "/" +:+ bucket +:+ "/" +:+ name)
    /\ (bucket = "js" \/ bucket = "wasm")
    /\ plainSegment name = true.
Proof.
  intros parseURL url baseDir ext ct main u H He Hh Hp. cbv zeta.
  pose proof (sanitize_plain _ (targetFileNameFor_plain u ext ct main He Hh)) as Hn.
  split; [|split; [|exact Hn]].
  - rewrite (targetPathFor_resolved _ _ _ _ _ _ u H).
    rewrite (join_plain _ _ _ _ Hp (bucket_plain _ _) Hn). reflexivity.
  - rewrite (fileTypeFor_given ext ct He).
    destruct (_ || _); [left | right]; reflexivity.
Qed.

Lemma X7_witness :
  targetPathFor Url.parse "https://cdn.b.com/lib/mod.wasm?v=2" "./out/" (Some ".wasm")
    (Some "application/wasm") (Some "a.com")
  = Done "out/a.com/wasm/cdn.b.com_lib_mod.wasm".
Proof.
  destruct (X7_resolved_path_lies_in_its_bucket Url.parse
              "https://cdn.b.com/lib/mod.wasm?v=2" "./out/" ".wasm"
              (Some "application/wasm") (Some "a.com") Demo.libUrl)
    as (T & _ & _).
  - reflexivity.
  - right. reflexivity.
  - reflexivity.
  - reflexivity.
  - rewrite T. reflexivity.
Defined.

(** ** The buckets the handlers use *)

Lemma resolved_classified (parseURL : string -> option Url.t)
    (outDir url ext : string) (ct main : option string) (u : Url.t) (pb : string * Buffer) :
  parseURL url = Some u -> isClassExt ext ->
  targetPathFor parseURL url outDir (Some ext) ct main = Done (fst pb) ->
  classifiedFile outDir u main pb.
Proof.
  intros H He T. rewrite (targetPathFor_resolved _ _ _ _ _ _ u H) in T.
  injection T as T. exists ext, (fileTypeFor (Some ext) ct).
  split; [exact He|]. split.
  - rewrite (fileTypeFor_given ext ct He). destruct (_ || _); [left | right]; reflexivity.
  - rewrite <- T. unfold targetFileNameFor.
    rewrite (fileNameFor_ext (Url.pathname u) ext ct None); [reflexivity|].
    destruct He as [-> | ->]; discriminate.
Qed.

Section Classified.

Variable parseURL : string -> option Url.t.
Variable stamp : nat -> string.
Variable fsRejects : string -> bool.
Variable outDir mainSiteHostname : string.

Lemma saveWasmNow_classified (url : string) (body : BodyRead) (s : Session) :
  grows (classifiedResolved parseURL outDir url (Some mainSiteHostname)) s
    (fst (saveWasmNow parseURL fsRejects outDir mainSiteHostname url body s)).
Proof.
  unfold saveWasmNow, bind, lift, modify.
  destruct (readBody body) as [b|e]; simpl; [|apply grows_refl].
  destruct (0 <? length b); simpl; [|apply grows_refl].
  destruct (targetPathFor parseURL url outDir (Some ".wasm") (Some "application/wasm")
              (Some mainSiteHostname)) as [filePath|e] eqn:T; simpl; [|apply grows_refl].
  unfold saveBuffer. destruct (fsRejects filePath); simpl; [apply grows_refl|].
  exists [(filePath, b)]. split; [reflexivity|]. constructor; [|constructor].
  exists ".wasm", (Some "application/wasm"). split; [right; reflexivity | exact T].
Qed.

Lemma onResponse_classified (r : Response) (s : Session) :
  grows (fun pb => embeddedFile outDir pb \/ classifiedSynthetic outDir (r_url r) pb
                   \/ classifiedResolved parseURL outDir (r_url r) (Some mainSiteHostname) pb)
    s (fst (onResponse parseURL stamp fsRejects outDir mainSiteHostname r s)).
Proof.
  unfold onResponse. unfold tryCatch at 1. unfold bind at 1. unfold get at 1.
  destruct (String.eqb (r_url r) "" || has (saved s) (r_url r)); [apply grows_refl|].
  destruct (shouldProcessOf r) eqn:P; [|apply grows_refl]. cbn [negb].
  destruct (isLikelyWasmByHeuristics (contentTypeOf r) (r_url r)) eqn:W.
  - unfold tryCatch.
    pose proof (saveWasmNow_classified (r_url r) (r_body r) s) as G.
    destruct (saveWasmNow _ _ _ _ _ _ s) as [s1 [[]|e]]; simpl in *;
      (eapply grows_weaken; [|exact G]); intros pb Hpb; right; right; exact Hpb.
  - destruct (r_body r) as [body|e]; [|apply grows_refl].
    destruct (length body =? 0); [apply grows_refl|].
    pose proof (defaultExt_past_gate r body
                  (isJsByContentOf body (isWasmByMagic body)) P) as X.
    rewrite W in X. rewrite X. clear X. cbn [orb].
    assert (He : exists ext, isClassExt ext
                   /\ (if isWasmByMagic body then Some ".wasm" else Some ".js") = Some ext).
    { destruct (isWasmByMagic body); eexists; (split; [|reflexivity]);
        [right | left]; reflexivity. }
    destruct He as (ext & He & ->). simpl default.
    unfold bind at 1.
    destruct (Js.startsWith (r_url r) "data:") eqn:D.
    + unfold bind at 1, freshStamp, ret at 1. unfold bind at 1, saveBuffer at 1.
      destruct (fsRejects _) eqn:R;
        [exists []; split; [simpl; symmetry; apply app_nil_r | constructor]|].
      unfold bind at 1, modify at 1.
      assert (G1 :
                grows (fun pb => embeddedFile outDir pb
                                 \/ classifiedSynthetic outDir (r_url r) pb
                                 \/ classifiedResolved parseURL outDir (r_url r)
                                      (Some mainSiteHostname) pb)
                  s (addSaved (r_url r)
                       (addFile (Path.join [outDir; "inline/" +:+ stamp (draws s) +:+ ext])
                          body (addDraw s)))).
      { exists [(Path.join [outDir; "inline/" +:+ stamp (draws s) +:+ ext], body)].
        split; [reflexivity|]. constructor; [|constructor]. right. left.
        split; [exact D|]. exists (stamp (draws s)), ext. split; [exact He | reflexivity]. }
      match goal with
      | |- context [if ?c then extractInlineWasm _ _ _ _ else _] => destruct c
      end; [|exact G1].
      match goal with
      | |- context [extractInlineWasm _ _ _ ?b ?st] =>
          destruct (extract_run stamp fsRejects outDir b st) as (s2 & E2 & G2 & _)
      end.
      rewrite E2. eapply grows_trans; [exact G1|].
      eapply grows_weaken; [|exact G2]. intros pb Hpb. left. exact Hpb.
    + unfold lift at 1.
      destruct (targetPathFor parseURL (r_url r) outDir (Some ext) (contentTypeOf r)
                  (Some mainSiteHostname)) as [filePath|e] eqn:T; [|apply grows_refl].
      unfold bind at 1, saveBuffer at 1.
      destruct (fsRejects filePath) eqn:R; [apply grows_refl|].
      unfold bind at 1, modify at 1.
      assert (G1 : grows (fun pb => embeddedFile outDir pb
                                    \/ classifiedSynthetic outDir (r_url r) pb
                                    \/ classifiedResolved parseURL outDir (r_url r)
                                         (Some mainSiteHostname) pb)
                     s (addSaved (r_url r) (addFile filePath body s))).
      { exists [(filePath, body)]. split; [reflexivity|]. constructor; [|constructor].
        right. right. exists ext, (contentTypeOf r). split; [exact He | exact T]. }
      match goal with
      | |- context [if ?c then extractInlineWasm _ _ _ _ else _] => destruct c
      end; [|exact G1].
      match goal with
      | |- context [extractInlineWasm _ _ _ ?b ?st] =>
          destruct (extract_run stamp fsRejects outDir b st) as (s2 & E2 & G2 & _)
      end.
      rewrite E2. eapply grows_trans; [exact G1|].
      eapply grows_weaken; [|exact G2]. intros pb Hpb. left. exact Hpb.
Qed.

Lemma onRoute_classified (q : Route) (s : Session) :
  grows (classifiedResolved parseURL outDir (q_url q) (Some mainSiteHostname)) s
    (fst (onRoute parseURL fsRejects outDir mainSiteHostname q s)).
Proof.
  unfold onRoute. cbv zeta.
  destruct (Js.includes (q_url q) "compile" && Js.includes (q_url q) "wasi"
            && Js.includes (q_url q) "target=arduino"); [|apply grows_refl].
  destruct (q_fetch q) as [ok body|e]; [|apply grows_refl].
  unfold bind, tryCatch, ret, throw. destruct ok.
  - pose proof (saveWasmNow_classified (q_url q) body s) as G.
    destruct (saveWasmNow _ _ _ _ _ _ s) as [s1 [[]|e]]; simpl in G;
      destruct (q_fulfillThrows q); exact G.
  - destruct (q_fulfillThrows q); apply grows_refl.
Qed.

Lemma drainedFile_classified (entry : string * Response) :
  Forall (classifiedResolved parseURL outDir (fst entry) None)
    (drainedFile parseURL fsRejects outDir entry).
Proof.
  unfold drainedFile. destruct (raceBody _) as [body|]; [|constructor].
  destruct (0 <? length body); [|constructor].
  destruct (targetPathFor _ _ _ _ _ _) as [filePath|] eqn:T; [|constructor].
  destruct (fsRejects filePath); constructor; [|constructor].
  exists ".wasm", (Some "application/wasm"). split; [right; reflexivity | exact T].
Qed.

End Classified.

(** X8: every file the response handler writes for a response is an
    extracted inline module, the synthetic [inline/] file of a [data:] URL with
    the extension [.js] or [.wasm], or a file in the bucket [js] or [wasm] of
    the site's directory whose name is built with [.js] or [.wasm]; the router
    and the drain write into those two buckets only.  The buckets [css],
    [images], [fonts], [data] and [other] of [targetPathFor] are never used,
    and a body classified [.wasm] whose content type mentions [javascript] goes
    to the [js] bucket. *)
Theorem X8_handlers_write_into_the_js_and_wasm_buckets_only :
  forall (parseURL : string -> option Url.t) (stamp : nat -> string)
    (fsRejects : string -> bool) (outDir main : string) (s : Session)
    (r r' : Response) (q : Route) (u : Url.t),
    parseURL (r_url r) = Some u -> q_url q = r_url r ->
    grows (fun pb => embeddedFile outDir pb \/ classifiedSynthetic outDir (r_url r) pb
                     \/ classifiedFile outDir u (Some main) pb)
      s (fst (onResponse parseURL stamp fsRejects outDir main r s))
    /\ grows (classifiedFile outDir u (Some main))
         s (fst (onRoute parseURL fsRejects outDir main q s))
    /\ grows (classifiedFile outDir u None)
         s (fst (drainOne parseURL fsRejects outDir (r_url r, r') s))
    /\ (forall ct, Js.lowerIncludes ct "javascript" = true ->
                   fileTypeFor (Some ".wasm") ct = "js").
Proof.
  intros parseURL stamp fsRejects outDir main s r r' q u H Hq.
  split; [|split; [|split]].
  - eapply grows_weaken; [|apply onResponse_classified].
    intros pb [Hp|[Hp|(ext & ct & He & T)]];
      [left; exact Hp | right; left; exact Hp | right; right].
    eapply resolved_classified; eassumption.
  - eapply grows_weaken; [|apply onRoute_classified].
    rewrite Hq. intros pb (ext & ct & He & T). eapply resolved_classified; eassumption.
  - destruct (drainOne_run parseURL fsRejects outDir (r_url r, r') s) as (s' & E & F & _).
    rewrite E. simpl. exists (drainedFile parseURL fsRejects outDir (r_url r, r')).
    split; [exact F|].
    eapply Forall_impl; [apply drainedFile_classified|].
    intros pb (ext & ct & He & T). eapply resolved_classified; eassumption.
  - intros ct J. unfold fileTypeFor. rewrite J. rewrite orb_true_r. reflexivity.
Qed.

Lemma X8_witness :
  grows (fun pb => embeddedFile "out" pb
                   \/ classifiedSynthetic "out" "https://a.com/mod" pb
                   \/ classifiedFile "out" Demo.modUrl (Some "a.com") pb)
    Demo.start
    (fst (onResponse Url.parse Demo.stamp Demo.accept "out" "a.com" Demo.htmlWasmScript
            Demo.start)).
Proof.
  apply (X8_handlers_write_into_the_js_and_wasm_buckets_only Url.parse Demo.stamp Demo.accept
           "out" "a.com" Demo.start Demo.htmlWasmScript Demo.htmlWasmScript
           {| q_url := "https://a.com/mod"; q_fetch := FetchThrows "x";
              q_fulfillThrows := None |} Demo.modUrl); reflexivity.
Defined.

(** ** [Map.prototype.set] on the pending map *)

Lemma mapSet_key_inv (k x : string) (v : Response) (m : list (string * Response)) :
  In x (map fst (mapSet k v m)) -> x = k \/ In x (map fst m).
Proof.
  induction m as [|[k' v'] m IH]; simpl.
  - intros [E|[]]. left. symmetry. exact E.
  - destruct (String.eqb_spec k k') as [->|N]; simpl.
    + intros [E|E]; [left; symmetry; exact E | right; right; exact E].
    + intros [E|E]; [right; left; exact E|].
      destruct (IH E) as [K|K]; [left; exact K | right; right; exact K].
Qed.

Lemma mapSet_NoDup (k : string) (v : Response) (m : list (string * Response)) :
  NoDup (map fst m) -> NoDup (map fst (mapSet k v m)).
Proof.
  induction m as [|[k' v'] m IH]; simpl; intros H.
  - apply NoDup_singleton.
  - apply NoDup_cons in H as [Hx Hl].
    destruct (String.eqb_spec k k') as [->|N]; simpl.
    + apply NoDup_cons. split; assumption.
    + apply NoDup_cons. split; [|apply IH; exact Hl].
      intros K. apply list_elem_of_In in K.
      destruct (mapSet_key_inv _ _ _ _ K) as [E|E]; [apply N; symmetry; exact E|].
      apply Hx. apply list_elem_of_In. exact E.
Qed.

Lemma mapSet_Forall (P : string * Response -> Prop) (k : string) (v : Response)
    (m : list (string * Response)) :
  P (k, v) -> Forall P m -> Forall P (mapSet k v m).
Proof.
  intros Hk. induction 1 as [|[k' v'] m Hx Hm IH]; simpl.
  - constructor; [exact Hk | constructor].
  - destruct (String.eqb k k'); constructor; assumption.
Qed.

Lemma mapSet_holds (k : string) (v : Response) (m : list (string * Response)) :
  In (k, v) (mapSet k v m).
Proof.
  induction m as [|[k' v'] m IH]; simpl; [left; reflexivity|].
  destruct (String.eqb k k'); [left; reflexivity | right; exact IH].
Qed.

(** ** Bodies that cannot be read, cannot be written, or are empty *)

Section Failures.

Variable parseURL : string -> option Url.t.
Variable stamp : nat -> string.
Variable fsRejects : string -> bool.
Variable outDir mainSiteHostname : string.

Lemma saveWasmNow_fails (url : string) (body : BodyRead) (s : Session) (e : string) :
  snd (saveWasmNow parseURL fsRejects outDir mainSiteHostname url body s) = Thrown e ->
  fst (saveWasmNow parseURL fsRejects outDir mainSiteHostname url body s) = s.
Proof.
  unfold saveWasmNow, bind, lift, modify.
  destruct (readBody body) as [b|e0]; simpl; [|reflexivity].
  destruct (0 <? length b); simpl; [|reflexivity].
  destruct (targetPathFor _ _ _ _ _ _) as [filePath|e1]; simpl; [|reflexivity].
  unfold saveBuffer. destruct (fsRejects filePath); simpl; [reflexivity | discriminate].
Qed.

Lemma wasm_branch_queues (r : Response) (s : Session) (e : string) :
  String.eqb (r_url r) "" || has (saved s) (r_url r) = false ->
  isLikelyWasmByHeuristics (contentTypeOf r) (r_url r) = true ->
  snd (saveWasmNow parseURL fsRejects outDir mainSiteHostname (r_url r) (r_body r) s)
  = Thrown e ->
  onResponse parseURL stamp fsRejects outDir mainSiteHostname r s
  = (setPending (mapSet (r_url r) r (pendingResponses s)) s, Done tt).
Proof.
  intros G W T. pose proof (saveWasmNow_fails _ _ _ _ T) as F.
  unfold onResponse. unfold tryCatch at 1, bind at 1, get at 1.
  assert (P : shouldProcessOf r = true) by (unfold shouldProcessOf; rewrite W; reflexivity).
  rewrite G, P, W. cbn [negb]. cbv beta iota. unfold tryCatch.
  destruct (saveWasmNow _ _ _ _ _ _ s) as [s1 o]. simpl in T, F. subst s1 o.
  reflexivity.
Qed.

End Failures.

(** X9: in the WASM branch of the response handler every failure of the
    immediate save (the body cannot be read, the URL cannot be parsed, the
    write is refused) puts the response into [pending] under its URL and
    writes nothing; outside that branch a body that cannot be read is dropped;
    an empty body is neither written, nor marked saved, nor queued, in both
    branches. *)
Theorem X9_unread_unwritten_and_empty_bodies :
  forall (parseURL : string -> option Url.t) (stamp : nat -> string)
    (fsRejects : string -> bool) (outDir main : string) (r : Response) (s : Session),
    String.eqb (r_url r) "" || has (saved s) (r_url r) = false ->
    shouldProcessOf r = true ->
    let queued := (setPending (mapSet (r_url r) r (pendingResponses s)) s, Done tt) in
    let handled := onResponse parseURL stamp fsRejects outDir main r s in
    (isLikelyWasmByHeuristics (contentTypeOf r) (r_url r) = true ->
       (forall e, r_body r = BodyThrows e -> handled = queued)
       /\ (forall body, r_body r = BodyOk body -> body <> [] ->
             parseURL (r_url r) = None -> handled = queued)
       /\ (forall body u, r_body r = BodyOk body -> body <> [] ->
             parseURL (r_url r) = Some u ->
             fsRejects (wasmPathFor outDir u (Some main)) = true -> handled = queued))
    /\ (isLikelyWasmByHeuristics (contentTypeOf r) (r_url r) = false ->
        forall e, r_body r = BodyThrows e -> handled = (s, Done tt))
    /\ (r_body r = BodyOk [] -> handled = (s, Done tt))
    /\ In (r_url r, r) (mapSet (r_url r) r (pendingResponses s)).
Proof.
  intros parseURL stamp fsRejects outDir main r s G P. cbv zeta.
  split; [|split; [|split; [|apply mapSet_holds]]].
  - intros W. split; [|split].
    + intros e B. apply (wasm_branch_queues _ _ _ _ _ _ _ e G W).
      unfold saveWasmNow, bind, lift. rewrite B. reflexivity.
    + intros body B Hb U. apply (wasm_branch_queues _ _ _ _ _ _ _ "Invalid URL" G W).
      unfold saveWasmNow, bind, lift. rewrite B. simpl readBody. cbv beta iota.
      rewrite (nonempty_length body Hb). unfold targetPathFor. rewrite U. reflexivity.
    + intros body u B Hb U R. apply (wasm_branch_queues _ _ _ _ _ _ _ "EACCES" G W).
      unfold saveWasmNow, bind, lift. rewrite B. simpl readBody. cbv beta iota.
      rewrite (nonempty_length body Hb).
      rewrite (targetPathFor_wasm parseURL _ outDir "application/wasm" _ u U eq_refl).
      unfold saveBuffer. rewrite R. reflexivity.
  - intros W e B. unfold onResponse. unfold tryCatch at 1, bind at 1, get at 1.
    rewrite G, P, W, B. reflexivity.
  - intros B. unfold onResponse. unfold tryCatch at 1, bind at 1, get at 1.
    rewrite G, P, B. cbn [negb]. cbv beta iota.
    destruct (isLikelyWasmByHeuristics (contentTypeOf r) (r_url r)); reflexivity.
Qed.

Lemma X9_witness :
  onResponse Url.parse Demo.stamp Demo.accept "out" "a.com" Demo.lateWasm Demo.start
  = (setPending [("https://a.com/m.wasm", Demo.lateWasm)] Demo.start, Done tt).
Proof.
  destruct (X9_unread_unwritten_and_empty_bodies Url.parse Demo.stamp Demo.accept "out"
              "a.com" Demo.lateWasm Demo.start) as (H & _).
  - vm_compute. reflexivity.
  - vm_compute. reflexivity.
  - exact (proj1 (H eq_refl) "No resource with given identifier found" eq_refl).
Defined.

(** ** The request router *)

(** X10: the request router leaves alone every request whose URL does not
    hold the three markers; for one that does, a response fetched with an ok
    status and a body that is not empty is written into the main site's [wasm]
    bucket and its URL marked saved, whatever [saved] held before; a response
    with another status, an empty body or a body that cannot be read is relayed
    and nothing is written ([route.fulfill] returning). *)
Theorem X10_router_saves_what_it_fetches :
  forall (parseURL : string -> option Url.t) (fsRejects : string -> bool)
    (outDir main : string) (q : Route) (s : Session),
    q_fulfillThrows q = None ->
    (isCompileRequest (q_url q) = false ->
     onRoute parseURL fsRejects outDir main q s = (s, Done tt))
    /\ (forall body u,
          isCompileRequest (q_url q) = true ->
          q_fetch q = Fetched true (BodyOk body) -> body <> [] ->
          parseURL (q_url q) = Some u ->
          fsRejects (wasmPathFor outDir u (Some main)) = false ->
          onRoute parseURL fsRejects outDir main q s
          = (addSaved (q_url q) (addFile (wasmPathFor outDir u (Some main)) body s),
             Done tt))
    /\ (forall body,
          isCompileRequest (q_url q) = true ->
          q_fetch q = Fetched false body \/ q_fetch q = Fetched true (BodyOk [])
          \/ (exists e, q_fetch q = Fetched true (BodyThrows e)) ->
          onRoute parseURL fsRejects outDir main q s = (s, Done tt)).
Proof.
  intros parseURL fsRejects outDir main q s Hf. unfold isCompileRequest.
  split; [|split].
  - intros M. unfold onRoute. cbv zeta. rewrite M. reflexivity.
  - intros body u M F Hb U R. unfold onRoute. cbv zeta. rewrite M, F, Hf.
    unfold bind at 1, tryCatch.
    unfold saveWasmNow, bind, lift, modify. simpl readBody. cbv beta iota.
    rewrite (nonempty_length body Hb).
    rewrite (targetPathFor_wasm parseURL _ outDir "application/wasm" _ u U eq_refl).
    unfold saveBuffer. rewrite R. reflexivity.
  - intros body M [F|[F|[e F]]]; unfold onRoute; cbv zeta; rewrite M, F, Hf; reflexivity.
Qed.

Lemma X10_witness :
  onRoute Url.parse Demo.accept "out" "a.com" compileRoute afterScript
  = (addSaved "https://x.org/compile?wasi&target=arduino"
       (addFile "out/a.com/wasm/x.org_compile.wasm" Demo.wasmBytes afterScript), Done tt).
Proof.
  destruct (X10_router_saves_what_it_fetches Url.parse Demo.accept "out" "a.com"
              compileRoute afterScript eq_refl) as (_ & H & _).
  apply (H Demo.wasmBytes compileUrl); try reflexivity. discriminate.
Defined.

(** ** What the pattern scan returns *)

Lemma tryCatch_ret_fst (m : Exec unit) (s : Session) :
  fst (tryCatch m (fun _ => ret tt) s) = fst (m s).
Proof. unfold tryCatch. destruct (m s) as [s' [[]|e]]; reflexivity. Qed.

Lemma span_snd_head (p : ascii -> bool) (l : list ascii) :
  match snd (Url.span p l) with
  | [] => True
  | c :: _ => p c = false
  end.
Proof.
  induction l as [|c l IH]; simpl; [exact I|].
  destruct (p c) eqn:E; [|exact E].
  destruct (Url.span p l) as [a b]. exact IH.
Qed.

Lemma scan_sound (text : list ascii) :
  forall (k : nat) (m : list ascii),
    In m (scanDataUrls k text) ->
    exists a b, matchAt text a m b /\ k <= length a.
Proof.
  induction text as [|c text IH]; intros k m Hin; [destruct Hin|].
  assert (Later : forall k', In m (scanDataUrls k' text) ->
                    exists a b, matchAt (c :: text) a m b /\ S k' <= length a).
  { intros k' H. destruct (IH k' m H) as (a & b & (E & M) & L).
    exists (c :: a), b. split; [split; [rewrite E; reflexivity | exact M] | simpl; lia]. }
  rewrite scan_unfold in Hin. destruct k as [|k].
  - assert (Tail : In m (scanDataUrls 0 text) ->
                   exists a b, matchAt (c :: text) a m b /\ 0 <= length a).
    { intros H. destruct (Later 0 H) as (a & b & M & L). exists a, b. split; [exact M | lia]. }
    destruct (Js.startsL dataUrlPrefix (c :: text)) eqn:St; [|apply Tail, Hin].
    destruct (startsL_inv _ _ St) as [x Ex].
    rewrite Ex, drop_app_length in Hin.
    pose proof (span_app Base64.inClass x) as Sx.
    pose proof (span_fst_all Base64.inClass x) as Fx.
    pose proof (span_snd_head Base64.inClass x) as Hx.
    destruct (fst (Url.span Base64.inClass x)) as [|p0 payload] eqn:Pay; [apply Tail, Hin|].
    destruct Hin as [<-|Hin].
    + exists [], (snd (Url.span Base64.inClass x)). split; [|simpl; lia].
      split; [|split; [discriminate | split; [exact Fx | exact Hx]]].
      rewrite Ex. exact (f_equal (app dataUrlPrefix) Sx).
    + destruct (Later _ Hin) as (a & b & M & L). exists a, b. split; [exact M | lia].
  - destruct (Later k Hin) as (a & b & M & L). exists a, b. split; [exact M | lia].
Qed.

Section Extracted.

Variable stamp : nat -> string.
Variable fsRejects : string -> bool.
Variable outDir : string.

Lemma extractOne_from (m : list ascii) (s : Session) :
  grows (fun pb => exists n, fst pb = inlinePath outDir (stamp n)
                             /\ snd pb = Base64.decode (Js.str m)
                             /\ isWasmByMagic (snd pb) = true)
    s (fst (extractOne stamp fsRejects outDir m s)).
Proof.
  unfold extractOne. cbv zeta.
  destruct ((0 <? length (Base64.decode (Js.str m)))
            && isWasmByMagic (Base64.decode (Js.str m))) eqn:K; [|apply grows_refl].
  unfold bind, freshStamp, saveBuffer.
  destruct (fsRejects (inlinePath outDir (stamp (draws s)))); simpl.
  - exists []. split; [symmetry; apply app_nil_r | constructor].
  - exists [(inlinePath outDir (stamp (draws s)), Base64.decode (Js.str m))].
    split; [reflexivity|]. constructor; [|constructor].
    exists (draws s). split; [reflexivity|]. split; [reflexivity|].
    apply andb_true_iff in K. apply K.
Qed.

Lemma extract_each_from (matches : list (list ascii)) (s : Session) :
  grows (fun pb => exists m n, In m matches
                               /\ fst pb = inlinePath outDir (stamp n)
                               /\ snd pb = Base64.decode (Js.str m)
                               /\ isWasmByMagic (snd pb) = true)
    s (fst (forEach matches (extractOne stamp fsRejects outDir) s)).
Proof.
  revert s. induction matches as [|m ms IH]; intros s; [apply grows_refl|].
  rewrite forEach_cons.
  pose proof (extractOne_from m s) as H1.
  assert (W1 : forall st, grows (fun pb => exists n, fst pb = inlinePath outDir (stamp n)
                                   /\ snd pb = Base64.decode (Js.str m)
                                   /\ isWasmByMagic (snd pb) = true) s st ->
               grows (fun pb => exists m0 n, In m0 (m :: ms)
                                   /\ fst pb = inlinePath outDir (stamp n)
                                   /\ snd pb = Base64.decode (Js.str m0)
                                   /\ isWasmByMagic (snd pb) = true) s st).
  { intros st G. eapply grows_weaken; [|exact G].
    intros pb (n & A & B & C). exists m, n. split; [left; reflexivity | auto]. }
  destruct (extractOne stamp fsRejects outDir m s) as [s1 [[]|e]]; simpl in H1;
    [|apply W1, H1].
  eapply grows_trans; [apply W1, H1|].
  eapply grows_weaken; [|apply IH].
  intros pb (m0 & n & Hin & A). exists m0, n. split; [right; exact Hin | exact A].
Qed.

End Extracted.

(** X11: the inline extraction returns normally, whatever the body and
    the file system do, and every file it writes is the lenient decoding of a
    payload of the pattern in the body: the literal
    [data:application/wasm;base64,] followed by a run of characters of the
    class [A-Za-z0-9+/=] that is not empty and cannot be extended; the decoded
    bytes begin with the magic number and the file is
    [inline/embedded_<stamp>.wasm]. *)
Theorem X11_extracted_modules_are_maximal_payloads_of_the_pattern :
  forall (stamp : nat -> string) (fsRejects : string -> bool) (outDir : string)
    (body : Buffer) (s : Session),
    exists s',
      extractInlineWasm stamp fsRejects outDir body s = (s', Done tt)
      /\ grows (extractedFrom stamp outDir (map ascii_of_byte body)) s s'.
Proof.
  intros stamp fsRejects outDir body s.
  destruct (extract_run stamp fsRejects outDir body s) as (s' & E & _).
  exists s'. split; [exact E|].
  replace s' with (fst (extractInlineWasm stamp fsRejects outDir body s))
    by (rewrite E; reflexivity).
  unfold extractInlineWasm. rewrite tryCatch_ret_fst.
  eapply grows_weaken; [|apply extract_each_from].
  intros pb (m & n & Hin & A & B & C).
  rewrite chars_of_bytes in Hin.
  destruct (scan_sound _ _ _ Hin) as (a & b & M & _).
  exists a, m, b, n. auto.
Qed.

(** ** navigateWithRetry *)

Lemma addEvents_cons (e : Event) (es : list Event) (s : Session) :
  addEvents (e :: es) s = addEvents es (addEvent e s).
Proof. reflexivity. Qed.

Lemma retryFrom_succeeds (page : PageScript) (url : string) (n k : nat) :
  forall (a remaining : nat) (s : Session),
    1 <= k -> k <= remaining -> a + k - 1 <= n ->
    (forall i, a <= i -> i < a + k - 1 -> gotoFails page i <> None) ->
    gotoFails page (a + k - 1) = None ->
    retryFrom page url n remaining a s = (addEvents (attempts url k a) s, Done tt).
Proof.
  induction k as [|k IH]; intros a remaining s H1 Hr Hn Hf Hs; [lia|].
  destruct remaining as [|remaining]; [lia|].
  destruct k as [|k].
  - replace (a + 1 - 1) with a in Hs by lia.
    simpl. unfold bind, emit, modify. rewrite Hs. reflexivity.
  - simpl retryFrom. unfold bind at 1, emit at 1, modify at 1.
    destruct (gotoFails page a) as [e|] eqn:Ga; [|exfalso; apply (Hf a); [lia | lia | exact Ga]].
    assert (Na : (a =? n) = false) by (apply Nat.eqb_neq; lia).
    rewrite Na. unfold bind at 1, emit at 1, modify at 1.
    rewrite (IH (S a) remaining); try lia.
    + reflexivity.
    + intros i Hi1 Hi2. apply Hf; lia.
    + replace (S a + S k - 1) with (a + S (S k) - 1) by lia. exact Hs.
Qed.

Lemma retryFrom_gives_up (page : PageScript) (url : string) (n k : nat) :
  forall (a remaining : nat) (s : Session) (e : string),
    1 <= k -> k <= remaining -> a + k - 1 = n ->
    (forall i, a <= i -> i <= n -> gotoFails page i <> None) ->
    gotoFails page n = Some e ->
    retryFrom page url n remaining a s = (addEvents (attempts url k a) s, Thrown e).
Proof.
  induction k as [|k IH]; intros a remaining s e H1 Hr Hn Hf He; [lia|].
  destruct remaining as [|remaining]; [lia|].
  destruct k as [|k].
  - assert (a = n) as -> by lia.
    simpl. unfold bind, emit, modify. rewrite He, Nat.eqb_refl. reflexivity.
  - simpl retryFrom. unfold bind at 1, emit at 1, modify at 1.
    destruct (gotoFails page a) as [e0|] eqn:Ga; [|exfalso; apply (Hf a); [lia | lia | exact Ga]].
    assert (Na : (a =? n) = false) by (apply Nat.eqb_neq; lia).
    rewrite Na. unfold bind at 1, emit at 1, modify at 1.
    rewrite (IH (S a) remaining _ e); try lia.
    + reflexivity.
    + intros i Hi1 Hi2. apply Hf; lia.
    + exact He.
Qed.

Lemma attempts_waited (url : string) (k a : nat) :
  waited (attempts url k a) = 1000 * (k - 1) * (2 * a + k - 2).
Proof.
  revert a. induction k as [|k IH]; intros a; [reflexivity|].
  destruct k as [|k].
  { change (0 = 1000 * (1 - 1) * (2 * a + 1 - 2)). rewrite Nat.sub_diag. lia. }
  change (waited (attempts url (S (S k)) a))
    with (0 + (a * 2000 + waited (attempts url (S k) (S a)))).
  rewrite IH. replace (S (S k) - 1) with (S k) by lia. replace (S k - 1) with k by lia.
  nia.
Qed.

Lemma attempts_navigations (url : string) (k a : nat) :
  navigations (attempts url k a) = k.
Proof.
  revert a. induction k as [|k IH]; intros a; [reflexivity|].
  destruct k as [|k]; [reflexivity|].
  change (navigations (attempts url (S (S k)) a))
    with (S (navigations (attempts url (S k) (S a)))).
  rewrite IH. reflexivity.
Qed.

(** X12: when the navigation fails at the attempts before the k-th and
    loads at the k-th, [navigateWithRetry] returns normally after exactly k
    navigations, with waits of 2000, 4000, ... milliseconds between them
    (1000 k (k - 1) in total) and none after the last. *)
Theorem X12_navigation_returns_at_the_first_attempt_that_loads :
  forall (page : PageScript) (url : string) (maxRetries k : nat) (s : Session),
    1 <= k -> k <= maxRetries ->
    (forall i, 1 <= i -> i < k -> gotoFails page i <> None) ->
    gotoFails page k = None ->
    navigateWithRetry page url maxRetries s = (addEvents (attempts url k 1) s, Done tt)
    /\ navigations (attempts url k 1) = k
    /\ waited (attempts url k 1) = 1000 * k * (k - 1).
Proof.
  intros page url n k s H1 Hk Hf Hs. split; [|split].
  - unfold navigateWithRetry. apply retryFrom_succeeds; try lia.
    + intros i Hi1 Hi2. apply Hf; lia.
    + replace (1 + k - 1) with k by lia. exact Hs.
  - apply attempts_navigations.
  - rewrite attempts_waited. nia.
Qed.

Lemma X12_witness :
  navigateWithRetry (flaky "https://a.com/") "https://a.com/" 3 Demo.start
  = (addEvents [Goto "https://a.com/" 1; WaitForTimeout 2000; Goto "https://a.com/" 2]
       Demo.start, Done tt).
Proof.
  apply (X12_navigation_returns_at_the_first_attempt_that_loads (flaky "https://a.com/")
           "https://a.com/" 3 2 Demo.start).
  - lia.
  - lia.
  - intros i Hi1 Hi2. assert (i = 1) as -> by lia. discriminate.
  - reflexivity.
Defined.

(** X13: when the navigation fails at every attempt, [navigateWithRetry]
    with [maxRetries > 0] makes exactly [maxRetries] navigations, waits
    1000 maxRetries (maxRetries - 1) milliseconds in total and throws the error
    of the last attempt; with [maxRetries = 0] it makes no navigation and
    returns normally. *)
Theorem X13_navigation_gives_up_after_maxRetries_attempts :
  forall (page : PageScript) (url : string) (maxRetries : nat) (s : Session),
    (forall i, 1 <= i -> i <= maxRetries -> gotoFails page i <> None) ->
    match maxRetries with
    | 0 => navigateWithRetry page url 0 s = (s, Done tt)
    | S _ =>
        exists e,
          gotoFails page maxRetries = Some e
          /\ navigateWithRetry page url maxRetries s
             = (addEvents (attempts url maxRetries 1) s, Thrown e)
          /\ navigations (attempts url maxRetries 1) = maxRetries
          /\ waited (attempts url maxRetries 1) = 1000 * maxRetries * (maxRetries - 1)
    end.
Proof.
  intros page url n s Hf. destruct n as [|n]; [reflexivity|].
  destruct (gotoFails page (S n)) as [e|] eqn:E;
    [|exfalso; apply (Hf (S n)); [lia | lia | exact E]].
  exists e. split; [reflexivity|]. split; [|split].
  - unfold navigateWithRetry. apply retryFrom_gives_up; try lia; assumption.
  - apply attempts_navigations.
  - rewrite attempts_waited. nia.
Qed.

Lemma X13_witness :
  exists e,
    gotoFails (Demo.offline "https://a.com/") 4 = Some e
    /\ navigateWithRetry (Demo.offline "https://a.com/") "https://a.com/" 4 Demo.start
       = (addEvents (attempts "https://a.com/" 4 1) Demo.start, Thrown e)
    /\ navigations (attempts "https://a.com/" 4 1) = 4
    /\ waited (attempts "https://a.com/" 4 1) = 1000 * 4 * (4 - 1).
Proof.
  apply (X13_navigation_gives_up_after_maxRetries_attempts (Demo.offline "https://a.com/")
           "https://a.com/" 4 Demo.start).
  intros i _ _. discriminate.
Defined.

(** ** Invariants of a session *)

Lemma keeps_refl (I : Session -> Prop) (s : Session) : keeps I s s.
Proof. intros H. exact H. Qed.

Lemma keeps_trans (I : Session -> Prop) (s1 s2 s3 : Session) :
  keeps I s1 s2 -> keeps I s2 s3 -> keeps I s1 s3.
Proof. intros H1 H2 H. apply H2, H1, H. Qed.

Section Iteration.

Variable parseURL : string -> option Url.t.
Variable stamp : nat -> string.
Variable fsRejects : string -> bool.
Variable site : string -> PageScript.
Variable outDir mainSiteHostname : string.
Variable maxPages : nat.

(** One iteration of the page loop, by cases. *)
Lemma loopBody_unfold (s : Session) :
  loopBody parseURL stamp fsRejects site outDir mainSiteHostname maxPages s
  = match toVisit s with
    | [] => (s, Done tt)
    | url :: rest =>
        if String.eqb url "" || has (visited s) url then (setToVisit rest s, Done tt)
        else
          (addEvent PageClosed
             (fst (visitPage parseURL stamp fsRejects outDir mainSiteHostname maxPages
                     (site url) url
                     (addEvent (NewPage url) (addVisited url (setToVisit rest s))))),
           Done tt)
    end.
Proof.
  destruct (toVisit s) as [|url rest] eqn:H.
  - apply loopBody_empty, H.
  - destruct (String.eqb url "" || has (visited s) url) eqn:K.
    + exact (loopBody_skip parseURL stamp fsRejects site outDir mainSiteHostname
               maxPages s url rest H K).
    + unfold loopBody. unfold bind at 1, get at 1. rewrite H.
      unfold bind at 1, modify at 1. rewrite K.
      unfold bind at 1, modify at 1. unfold bind at 1, emit at 1, modify at 1.
      unfold tryFinally.
      pose proof (visit_done parseURL stamp fsRejects outDir mainSiteHostname maxPages
                    (site url) url
                    (addEvent (NewPage url) (addVisited url (setToVisit rest s)))) as D.
      fold (visitPage parseURL stamp fsRejects outDir mainSiteHostname maxPages
              (site url) url) in D |- *.
      destruct (visitPage _ _ _ _ _ _ _ _ _) as [s1 o]. simpl in D. subst o. reflexivity.
Qed.

Section Respected.

Variable Q : Session -> Session -> Prop.
Hypothesis Q_refl : forall s, Q s s.
Hypothesis Q_trans : forall s1 s2 s3, Q s1 s2 -> Q s2 s3 -> Q s1 s3.

Hypothesis Q_response :
  forall r, respects Q (onResponse parseURL stamp fsRejects outDir mainSiteHostname r).
Hypothesis Q_emit : forall e, isPageEvent e = false -> respects Q (emit e).
Hypothesis Q_drainOne : forall entry, respects Q (drainOne parseURL fsRejects outDir entry).
Hypothesis Q_clear : forall s, Q s (setPending [] s).

Lemma drain_respects (arrivals : list (list Response)) :
  respects Q
    (processPendingResponses parseURL stamp fsRejects outDir mainSiteHostname arrivals).
Proof using Q_refl Q_trans Q_response Q_emit Q_drainOne Q_clear.
  apply respects_drain; try assumption. intros n. apply Q_emit. reflexivity.
Qed.

Lemma teardown_respects (closing : Closing) :
  respects Q (teardown parseURL stamp fsRejects outDir mainSiteHostname closing).
Proof using Q_refl Q_trans Q_response Q_emit Q_drainOne Q_clear.
  unfold teardown.
  apply respects_bind; [apply Q_trans | apply drain_respects | intros _].
  apply respects_bind; [apply Q_trans | | intros _].
  { apply respects_forEach; [apply Q_refl | apply Q_trans | apply Q_response]. }
  apply respects_bind; [apply Q_trans | apply Q_emit; reflexivity | intros _].
  apply Q_emit. reflexivity.
Qed.

Lemma retryFrom_respects (page : PageScript) (url : string)
    (maxRetries remaining attempt : nat) :
  respects Q (retryFrom page url maxRetries remaining attempt).
Proof using Q_refl Q_trans Q_emit.
  revert attempt. induction remaining as [|k IH]; intros attempt; simpl.
  - apply respects_ret, Q_refl.
  - apply respects_bind; [apply Q_trans | apply Q_emit; reflexivity |]. intros _.
    destruct (gotoFails page attempt); [|apply respects_ret, Q_refl].
    destruct (attempt =? maxRetries); [apply respects_throw, Q_refl|].
    apply respects_bind; [apply Q_trans | apply Q_emit; reflexivity |]. intros _. apply IH.
Qed.

Lemma visitPage_respects (page : PageScript) (url : string) :
  (forall links st, size (visited st) < maxPages ->
     Q st (fst (harvestLinks parseURL url links st))) ->
  respects Q
    (visitPage parseURL stamp fsRejects outDir mainSiteHostname maxPages page url).
Proof using Q_refl Q_trans Q_response Q_emit Q_drainOne Q_clear.
  intros Q_harvest. unfold visitPage.
  apply respects_bind; [apply Q_trans | |intros _].
  { apply respects_forEach; [apply Q_refl | apply Q_trans | apply Q_response]. }
  apply respects_bind; [apply Q_trans | |intros _].
  2:{ apply respects_forEach; [apply Q_refl | apply Q_trans | apply Q_response]. }
  apply respects_tryCatch; [apply Q_trans | | intros e; apply Q_emit; reflexivity].
  apply respects_bind; [apply Q_trans | apply retryFrom_respects | intros _].
  apply respects_bind; [apply Q_trans | apply Q_emit; reflexivity | intros _].
  apply respects_bind; [apply Q_trans | apply Q_emit; reflexivity | intros _].
  apply respects_bind; [apply Q_trans | apply drain_respects | intros _].
  intros st. unfold bind at 1, get at 1.
  destruct (size (visited st) <? maxPages) eqn:B; [|apply Q_refl].
  apply Nat.ltb_lt in B. unfold bind at 1, lift at 1.
  destruct (anchors page) as [hrefs|e]; [|apply Q_refl].
  apply Q_harvest. exact B.
Qed.

End Respected.

End Iteration.

(** ** A crawl as a run of the session's steps *)

Section Reach.

Variable parseURL : string -> option Url.t.
Variable stamp : nat -> string.
Variable fsRejects : string -> bool.
Variable site : string -> PageScript.
Variable outDir mainSiteHostname : string.
Variable maxPages : nat.

Lemma pageLoop_steps (fuel : nat) (s s' : Session) (o : outcome unit) :
  pageLoop parseURL stamp fsRejects site outDir mainSiteHostname maxPages fuel s
  = Some (s', o) ->
  rtc (Step parseURL stamp fsRejects site outDir mainSiteHostname maxPages) s s'
  /\ loopCond maxPages s' = false.
Proof.
  revert s. induction fuel as [|fuel IH]; intros s; simpl.
  - destruct (loopCond maxPages s) eqn:C; simpl; [discriminate|].
    intros H. injection H as <- _. split; [apply rtc_refl | exact C].
  - destruct (loopCond maxPages s) eqn:C; simpl.
    + destruct (loopBody_done parseURL stamp fsRejects site outDir mainSiteHostname
                  maxPages s) as [s1 E].
      rewrite E. intros H. destruct (IH _ H) as [R C'].
      split; [|exact C']. eapply rtc_l; [|exact R].
      replace s1 with (fst (loopBody parseURL stamp fsRejects site outDir
                              mainSiteHostname maxPages s)) by (rewrite E; reflexivity).
      apply StepLoop. exact C.
    + intros H. injection H as <- _. split; [apply rtc_refl | exact C].
Qed.

Lemma step_saved (s s' : Session) :
  Step parseURL stamp fsRejects site outDir mainSiteHostname maxPages s s' ->
  saved s ⊆ saved s'.
Proof.
  intros [s0|r s0|q s0|s0 C|closing s0 C].
  - reflexivity.
  - apply (onResponse_queues parseURL stamp fsRejects outDir mainSiteHostname r s0).
  - apply (onRoute_queues parseURL fsRejects outDir mainSiteHostname q s0).
  - destruct (toVisit s0) as [|url rest] eqn:H.
    + rewrite (loopBody_empty _ _ _ _ _ _ _ s0 H). reflexivity.
    + destruct (String.eqb url "" || has (visited s0) url) eqn:K.
      * rewrite (loopBody_skip parseURL stamp fsRejects site outDir mainSiteHostname
                   maxPages s0 url rest H K). reflexivity.
      * destruct (loopBody_visit parseURL stamp fsRejects site outDir mainSiteHostname
                    maxPages s0 url rest H K) as (s1 & E & _ & S & _).
        rewrite E. exact S.
  - apply (teardown_queues parseURL stamp fsRejects outDir mainSiteHostname closing s0).
Qed.

Lemma steps_saved (s s' : Session) :
  rtc (Step parseURL stamp fsRejects site outDir mainSiteHostname maxPages) s s' ->
  saved s ⊆ saved s'.
Proof.
  induction 1 as [|a b c H _ IH]; [reflexivity|].
  etrans; [apply (step_saved a b H) | exact IH].
Qed.

Lemma step_budget (s s' : Session) :
  Step parseURL stamp fsRejects site outDir mainSiteHostname maxPages s s' ->
  size (visited s) <= maxPages -> size (visited s') <= maxPages.
Proof.
  intros [s0|r s0|q s0|s0 C|closing s0 C] B.
  - exact B.
  - destruct (onResponse_queues parseURL stamp fsRejects outDir mainSiteHostname r s0)
      as [V _]. rewrite V. exact B.
  - destruct (onRoute_queues parseURL fsRejects outDir mainSiteHostname q s0) as [V _].
    rewrite V. exact B.
  - unfold loopCond in C. apply andb_true_iff in C as [_ C]. apply Nat.ltb_lt in C.
    destruct (toVisit s0) as [|url rest] eqn:H.
    + rewrite (loopBody_empty _ _ _ _ _ _ _ s0 H). exact B.
    + destruct (String.eqb url "" || has (visited s0) url) eqn:K.
      * rewrite (loopBody_skip parseURL stamp fsRejects site outDir mainSiteHostname
                   maxPages s0 url rest H K). exact B.
      * destruct (loopBody_visit parseURL stamp fsRejects site outDir mainSiteHostname
                    maxPages s0 url rest H K) as (s1 & E & V & _).
        rewrite E. simpl. rewrite V.
        apply orb_false_iff in K as [_ K]. unfold has in K.
        apply bool_decide_eq_false in K.
        rewrite size_union by (apply disjoint_singleton_l; exact K).
        rewrite size_singleton. lia.
  - destruct (teardown_queues parseURL stamp fsRejects outDir mainSiteHostname closing s0)
      as [V _]. rewrite V. exact B.
Qed.

End Reach.

Lemma crawl_reachable (parseURL : string -> option Url.t) (stamp : nat -> string)
    (fsRejects : string -> bool) (site : string -> PageScript) (closing : Closing)
    (dirRejects : string -> bool)
    (startUrl outDir : string) (maxPages fuel : nat) (sfin : Session) (o : outcome unit) :
  crawl parseURL stamp fsRejects site closing dirRejects startUrl outDir maxPages fuel
  = Some (sfin, o) ->
  exists main,
    Reachable parseURL stamp fsRejects site outDir main maxPages startUrl sfin.
Proof.
  unfold crawl, ensureDir. destruct (dirRejects outDir).
  { intros H. injection H as <- _. exists "". apply rtc_refl. }
  assert (R0 : forall main,
            Reachable parseURL stamp fsRejects site outDir main maxPages startUrl
              (addEvent (DirEnsured outDir) (initialSession startUrl))).
  { intros main. apply rtc_once. apply StepEnsureDir. }
  destruct (parseURL startUrl) as [u|].
  - destruct (pageLoop _ _ _ _ _ _ _ fuel _) as [[s1 o1]|] eqn:L; [|discriminate].
    pose proof (pageLoop_done _ _ _ _ _ _ _ _ _ _ _ L) as ->.
    destruct (pageLoop_steps _ _ _ _ _ _ _ _ _ _ _ L) as [R C].
    intros H. injection H as H. exists (Url.hostname u).
    replace sfin
      with (fst (teardown parseURL stamp fsRejects outDir (Url.hostname u) closing s1))
      by (rewrite H; reflexivity).
    unfold Reachable. etrans; [apply R0|]. etrans; [exact R|].
    apply rtc_once. apply StepTeardown. exact C.
  - intros H. injection H as <- _. exists "". apply R0.
Qed.

Lemma reachable_budget (parseURL : string -> option Url.t) (stamp : nat -> string)
    (fsRejects : string -> bool) (site : string -> PageScript)
    (outDir main startUrl : string) (maxPages : nat) (s : Session) :
  Reachable parseURL stamp fsRejects site outDir main maxPages startUrl s ->
  size (visited s) <= maxPages.
Proof.
  intros R. unfold Reachable in R.
  apply rtc_ind_r with (x := initialSession startUrl)
    (P := fun s => size (visited s) <= maxPages) in R; [exact R | |].
  - change (size (∅ : gset string) <= maxPages). rewrite size_empty. lia.
  - intros a b _ St B. eapply step_budget; eassumption.
Qed.

(** X14: at most [maxPages] pages are visited: the visited set never
    holds more than [maxPages] URLs, in every reachable state of a session and
    at the end of every crawl. *)
Theorem X14_at_most_maxPages_pages_are_visited :
  forall (parseURL : string -> option Url.t) (stamp : nat -> string)
    (fsRejects : string -> bool) (site : string -> PageScript)
    (outDir main startUrl : string) (maxPages : nat),
    (forall s,
       Reachable parseURL stamp fsRejects site outDir main maxPages startUrl s ->
       size (visited s) <= maxPages)
    /\ (forall closing dirRejects fuel sfin o,
          crawl parseURL stamp fsRejects site closing dirRejects startUrl outDir
            maxPages fuel
          = Some (sfin, o) ->
          size (visited sfin) <= maxPages).
Proof.
  intros parseURL stamp fsRejects site outDir main startUrl maxPages.
  split; [intros s; apply reachable_budget|].
  intros closing dirRejects fuel sfin o C.
  destruct (crawl_reachable _ _ _ _ _ _ _ _ _ _ _ _ C) as [m R].
  eapply reachable_budget. exact R.
Qed.

(** X15: once a URL is in [saved], the response handler ignores every
    later response of that URL, for the rest of the session: it returns with
    the state unchanged. *)
Theorem X15_saved_url_is_never_processed_again :
  forall (parseURL : string -> option Url.t) (stamp : nat -> string)
    (fsRejects : string -> bool) (site : string -> PageScript)
    (outDir main : string) (maxPages : nat) (s s' : Session) (r : Response),
    r_url r ∈ saved s ->
    rtc (Step parseURL stamp fsRejects site outDir main maxPages) s s' ->
    onResponse parseURL stamp fsRejects outDir main r s' = (s', Done tt).
Proof.
  intros parseURL stamp fsRejects site outDir main maxPages s s' r Hs R.
  pose proof (steps_saved _ _ _ _ _ _ _ _ _ R) as S.
  assert (K : has (saved s') (r_url r) = true).
  { unfold has. apply bool_decide_eq_true. apply S, Hs. }
  unfold onResponse. unfold tryCatch at 1, bind at 1, get at 1.
  rewrite K, orb_true_r. reflexivity.
Qed.

Lemma X15_witness :
  onResponse Url.parse Demo.stamp Demo.accept "out" "a.com" Demo.cdnScript afterScript
  = (afterScript, Done tt).
Proof.
  apply (X15_saved_url_is_never_processed_again Url.parse Demo.stamp Demo.accept
           Demo.offline "out" "a.com" 1 afterScript afterScript Demo.cdnScript).
  - assert (K : has (saved afterScript) (r_url Demo.cdnScript) = true)
      by (vm_compute; reflexivity).
    unfold has in K. apply bool_decide_eq_true in K. exact K.
  - apply rtc_refl.
Defined.

(** ** The pending map *)

Lemma keeps_pending (s s' : Session) :
  pendingResponses s' = pendingResponses s -> keeps pendingWellFormed s s'.
Proof. intros E. unfold keeps, pendingWellFormed. rewrite E. tauto. Qed.

Lemma keeps_pending_empty (s s' : Session) :
  pendingResponses s' = [] -> keeps pendingWellFormed s s'.
Proof.
  intros E _. unfold pendingWellFormed. rewrite E. split; constructor.
Qed.

Section Pending.

Variable parseURL : string -> option Url.t.
Variable stamp : nat -> string.
Variable fsRejects : string -> bool.
Variable site : string -> PageScript.
Variable outDir mainSiteHostname : string.
Variable maxPages : nat.

Lemma onResponse_pending (r : Response) :
  respects (keeps pendingWellFormed)
    (onResponse parseURL stamp fsRejects outDir mainSiteHostname r).
Proof.
  assert (T := keeps_trans pendingWellFormed).
  assert (R := keeps_refl pendingWellFormed).
  unfold onResponse.
  apply respects_tryCatch; [exact T | | intros; apply respects_ret, R].
  apply respects_bind; [exact T | apply respects_get, R | intros s0].
  destruct (String.eqb (r_url r) "" || has (saved s0) (r_url r)) eqn:G;
    [apply respects_ret, R|].
  destruct (negb (shouldProcessOf r)); [apply respects_ret, R|].
  destruct (isLikelyWasmByHeuristics (contentTypeOf r) (r_url r)) eqn:W.
  - apply respects_tryCatch; [exact T | |].
    + intros s. apply keeps_pending.
      apply (saveWasmNow_run parseURL fsRejects outDir mainSiteHostname (r_url r)
               (r_body r) s).
    + intros e. apply respects_modify. intros s [N F]. split; simpl.
      * apply mapSet_NoDup, N.
      * apply mapSet_Forall; [|exact F]. split; [reflexivity|]. split; [|exact W].
        simpl. apply orb_false_iff in G as [G _]. apply String.eqb_neq in G. exact G.
  - destruct (r_body r) as [body|e]; [|apply respects_ret, R].
    destruct (length body =? 0); [apply respects_ret, R|].
    apply respects_bind; [exact T | |intros filePath].
    { destruct (Js.startsWith (r_url r) "data:").
      - apply respects_bind; [exact T | |intros name; apply respects_ret, R].
        intros s. apply keeps_pending. reflexivity.
      - apply respects_lift, R. }
    apply respects_bind; [exact T | |intros _].
    { intros s. apply keeps_pending. unfold saveBuffer.
      destruct (fsRejects filePath); reflexivity. }
    apply respects_bind; [exact T | |intros _].
    { apply respects_modify. intros s. apply keeps_pending. reflexivity. }
    match goal with
    | |- context [if ?c then extractInlineWasm _ _ _ _ else _] => destruct c
    end; [|apply respects_ret, R].
    intros s. apply keeps_pending.
    destruct (extract_run stamp fsRejects outDir body s) as (s2 & E2 & _ & _ & _ & P2).
    rewrite E2. exact P2.
Qed.

Lemma harvestLinks_sameButQueue (url : string) (links : list string) (s : Session) :
  sameButQueue s (fst (harvestLinks parseURL url links s)).
Proof.
  assert (R : forall s, sameButQueue s s) by (intros ?; repeat split).
  assert (T : forall s1 s2 s3, sameButQueue s1 s2 -> sameButQueue s2 s3 -> sameButQueue s1 s3).
  { intros s1 s2 s3 (A1 & A2 & A3 & A4 & A5 & A6) (B1 & B2 & B3 & B4 & B5 & B6).
    repeat split; congruence. }
  revert s. change (respects sameButQueue (harvestLinks parseURL url links)).
  unfold harvestLinks.
  apply respects_bind; [exact T | apply respects_lift, R |]. intros origin.
  apply respects_forEach; [exact R | exact T |]. intros href.
  apply respects_tryCatch; [exact T | | intros; apply respects_ret, R].
  apply respects_bind; [exact T | apply respects_lift, R |]. intros h.
  apply respects_bind; [exact T | apply respects_get, R |]. intros s0.
  destruct (_ && _); [|apply respects_ret, R].
  apply respects_modify. intros s. repeat split.
Qed.

Lemma emit_pending (e : Event) : respects (keeps pendingWellFormed) (emit e).
Proof. intros s. apply keeps_pending. reflexivity. Qed.

Lemma drainOne_pending (entry : string * Response) :
  respects (keeps pendingWellFormed) (drainOne parseURL fsRejects outDir entry).
Proof.
  intros s. apply keeps_pending.
  destruct (drainOne_run parseURL fsRejects outDir entry s) as (s' & E & _ & _ & _ & _ & _ & P).
  rewrite E. exact P.
Qed.

Lemma clear_pending (s : Session) : keeps pendingWellFormed s (setPending [] s).
Proof. apply keeps_pending_empty. reflexivity. Qed.

Lemma step_pending (s s' : Session) :
  Step parseURL stamp fsRejects site outDir mainSiteHostname maxPages s s' ->
  pendingWellFormed s -> pendingWellFormed s'.
Proof.
  intros [s0|r s0|q s0|s0 C|closing s0 C].
  - apply keeps_pending. reflexivity.
  - apply onResponse_pending.
  - apply keeps_pending.
    apply (onRoute_run parseURL fsRejects outDir mainSiteHostname q s0).
  - rewrite loopBody_unfold.
    destruct (toVisit s0) as [|url rest]; [tauto|].
    destruct (String.eqb url "" || has (visited s0) url); [apply keeps_pending; reflexivity|].
    simpl fst. intros I.
    assert (I0 : pendingWellFormed
                   (addEvent (NewPage url) (addVisited url (setToVisit rest s0)))) by exact I.
    apply (visitPage_respects parseURL stamp fsRejects outDir mainSiteHostname maxPages
             (keeps pendingWellFormed) (keeps_refl _) (keeps_trans _)
             onResponse_pending (fun e _ => emit_pending e) drainOne_pending
             clear_pending (site url) url) in I0.
    + exact I0.
    + intros links st _. apply keeps_pending. apply harvestLinks_sameButQueue.
  - apply (teardown_respects parseURL stamp fsRejects outDir mainSiteHostname
             (keeps pendingWellFormed) (keeps_refl _) (keeps_trans _)
             onResponse_pending (fun e _ => emit_pending e) drainOne_pending
             clear_pending closing s0).
Qed.

End Pending.

(** X16: in every reachable state the [pending] map holds at most one
    entry per URL, and each entry is a response of that URL, not the empty
    string, that the heuristics take for WASM. *)
Theorem X16_pending_holds_one_wasm_response_per_url :
  forall (parseURL : string -> option Url.t) (stamp : nat -> string)
    (fsRejects : string -> bool) (site : string -> PageScript)
    (outDir main startUrl : string) (maxPages : nat) (s : Session),
    Reachable parseURL stamp fsRejects site outDir main maxPages startUrl s ->
    NoDup (map fst (pendingResponses s))
    /\ forall url r, In (url, r) (pendingResponses s) ->
         r_url r = url /\ url <> ""
         /\ isLikelyWasmByHeuristics (contentTypeOf r) url = true.
Proof.
  intros parseURL stamp fsRejects site outDir main startUrl maxPages s R.
  assert (I : pendingWellFormed s).
  { unfold Reachable in R.
    apply rtc_ind_r with (x := initialSession startUrl) (P := pendingWellFormed) in R;
      [exact R | |].
    - split; constructor.
    - intros a b _ St Ia. eapply step_pending; eassumption. }
  destruct I as [N F]. split; [exact N|].
  intros url r Hin. rewrite Forall_forall in F. apply (F (url, r)).
  apply list_elem_of_In. exact Hin.
Qed.

Lemma X16_witness :
  NoDup (map fst (pendingResponses afterLate))
  /\ forall url r, In (url, r) (pendingResponses afterLate) ->
       r_url r = url /\ url <> ""
       /\ isLikelyWasmByHeuristics (contentTypeOf r) url = true.
Proof.
  apply (X16_pending_holds_one_wasm_response_per_url Url.parse Demo.stamp Demo.accept
           Demo.offline "out" "a.com" "https://a.com/" 1 afterLate).
  apply rtc_once. apply StepResponse.
Defined.

(** ** Pages opened and closed *)

Lemma quiet_refl (s : Session) : quiet s s.
Proof. split; [reflexivity|]. exists []. split; [symmetry; apply app_nil_r | constructor]. Qed.

Lemma quiet_trans (s1 s2 s3 : Session) : quiet s1 s2 -> quiet s2 s3 -> quiet s1 s3.
Proof.
  intros (V1 & m1 & E1 & F1) (V2 & m2 & E2 & F2). split; [congruence|].
  exists (m1 ++ m2). split.
  - rewrite E2, E1. symmetry. apply app_assoc.
  - apply Forall_app. split; assumption.
Qed.

Lemma quiet_of_course (s s' : Session) : course s' = course s -> quiet s s'.
Proof.
  unfold course. intros C. injection C as _ Cv Ct. split; [exact Cv|].
  exists []. rewrite app_nil_r. split; [exact Ct | constructor].
Qed.

Lemma openedUrls_app (t u : list Event) :
  openedUrls (t ++ u) = openedUrls t ++ openedUrls u.
Proof. unfold openedUrls. apply flat_map_app. Qed.

Lemma closedPages_app (t u : list Event) :
  closedPages (t ++ u) = closedPages t + closedPages u.
Proof. unfold closedPages. rewrite List.filter_app, length_app. reflexivity. Qed.

Lemma quiet_events (mid : list Event) :
  Forall (fun e => isPageEvent e = false) mid ->
  openedUrls mid = [] /\ closedPages mid = 0.
Proof.
  induction 1 as [|e mid He _ [IH1 IH2]]; [split; reflexivity|].
  destruct e; try discriminate He; split; simpl; assumption.
Qed.

Lemma quiet_accounted (s s' : Session) :
  quiet s s' -> pagesAccounted s -> pagesAccounted s'.
Proof.
  intros (V & mid & E & F) (N & M & C). destruct (quiet_events mid F) as [O K].
  unfold pagesAccounted.
  rewrite E, V, openedUrls_app, closedPages_app, O, K, app_nil_r, Nat.add_0_r.
  auto.
Qed.

Lemma drainedEvent_quiet (parseURL : string -> option Url.t) (fsRejects : string -> bool)
    (outDir : string) (entries : list (string * Response)) :
  Forall (fun e => isPageEvent e = false)
    (flat_map (drainedEvent parseURL fsRejects outDir) entries).
Proof.
  induction entries as [|entry es IH]; simpl; [constructor|].
  apply Forall_app. split; [|exact IH].
  unfold drainedEvent. destruct (raceBody _); [|repeat constructor].
  destruct (0 <? _); [|constructor].
  destruct (targetPathFor _ _ _ _ _ _); [|repeat constructor].
  destruct (fsRejects _); repeat constructor.
Qed.

Section Pages.

Variable parseURL : string -> option Url.t.
Variable stamp : nat -> string.
Variable fsRejects : string -> bool.
Variable site : string -> PageScript.
Variable outDir mainSiteHostname : string.
Variable maxPages : nat.

Lemma onResponse_quiet (r : Response) :
  respects quiet (onResponse parseURL stamp fsRejects outDir mainSiteHostname r).
Proof.
  intros s. destruct (onResponse_run parseURL stamp fsRejects outDir mainSiteHostname r s)
    as (s' & E & _ & C & _).
  rewrite E. apply quiet_of_course, C.
Qed.

Lemma emit_quiet (e : Event) : isPageEvent e = false -> respects quiet (emit e).
Proof.
  intros He s. split; [reflexivity|]. exists [e]. split; [reflexivity|].
  constructor; [exact He | constructor].
Qed.

Lemma drainOne_quiet (entry : string * Response) :
  respects quiet (drainOne parseURL fsRejects outDir entry).
Proof.
  intros s. destruct (drainOne_run parseURL fsRejects outDir entry s)
    as (s' & E & _ & T & _ & _ & V & _).
  rewrite E. split; [exact V|]. eexists. split; [exact T|].
  pose proof (drainedEvent_quiet parseURL fsRejects outDir [entry]) as F.
  simpl in F. rewrite app_nil_r in F. exact F.
Qed.

Lemma clear_quiet (s : Session) : quiet s (setPending [] s).
Proof.
  split; [reflexivity|]. exists []. split; [symmetry; apply app_nil_r | constructor].
Qed.

Lemma harvest_quiet (url : string) (links : list string) :
  respects quiet (harvestLinks parseURL url links).
Proof.
  intros s. destruct (harvestLinks_sameButQueue parseURL url links s)
    as (V & _ & _ & _ & T & _).
  split; [exact V|]. exists []. rewrite app_nil_r. split; [exact T | constructor].
Qed.

Lemma teardown_quiet (closing : Closing) :
  respects quiet (teardown parseURL stamp fsRejects outDir mainSiteHostname closing).
Proof.
  apply teardown_respects;
    [apply quiet_refl | apply quiet_trans | apply onResponse_quiet | apply emit_quiet
    | apply drainOne_quiet | apply clear_quiet].
Qed.

Lemma step_accounted (s s' : Session) :
  Step parseURL stamp fsRejects site outDir mainSiteHostname maxPages s s' ->
  pagesAccounted s -> pagesAccounted s'.
Proof.
  intros [s0|r s0|q s0|s0 C|closing s0 C].
  - apply quiet_accounted, (emit_quiet (DirEnsured outDir) eq_refl s0).
  - apply quiet_accounted, onResponse_quiet.
  - apply quiet_accounted, quiet_of_course.
    apply (onRoute_run parseURL fsRejects outDir mainSiteHostname q s0).
  - rewrite loopBody_unfold.
    destruct (toVisit s0) as [|url rest]; [tauto|].
    destruct (String.eqb url "" || has (visited s0) url) eqn:K; [tauto|].
    simpl fst. intros (N & M & Cl).
    destruct (visitPage_respects parseURL stamp fsRejects outDir mainSiteHostname maxPages
                quiet quiet_refl quiet_trans onResponse_quiet emit_quiet drainOne_quiet
                clear_quiet (site url) url (fun links st _ => harvest_quiet url links st)
                (addEvent (NewPage url) (addVisited url (setToVisit rest s0))))
      as (V & mid & E & F).
    destruct (quiet_events mid F) as [O Kc].
    apply orb_false_iff in K as [_ K]. unfold has in K. apply bool_decide_eq_false in K.
    unfold pagesAccounted. simpl trace. simpl visited. rewrite E, V. simpl trace. simpl visited.
    rewrite !openedUrls_app, !closedPages_app, O, Kc.
    change (openedUrls [NewPage url]) with [url].
    change (openedUrls [PageClosed]) with (@nil string).
    change (closedPages [NewPage url]) with 0.
    change (closedPages [PageClosed]) with 1.
    rewrite !app_nil_r, Cl, length_app. simpl length.
    split; [|split; [|lia]].
    + apply NoDup_app. split; [exact N|]. split; [|apply NoDup_singleton].
      intros x Hx Hu. apply list_elem_of_singleton in Hu. subst x.
      apply K, M. apply list_elem_of_In. exact Hx.
    + intros x. rewrite in_app_iff, elem_of_union, elem_of_singleton, M. simpl.
      split; [intros [H|[H|[]]] | intros [H|H]]; auto.
  - apply quiet_accounted, teardown_quiet.
Qed.

End Pages.

(** X17: in every reachable state each URL has been opened in at most
    one page, the URLs opened are the visited ones, and every page opened has
    been closed; at the end of a crawl the pages closed are as many as the
    pages opened, at most [maxPages]. *)
Theorem X17_every_opened_page_is_closed_and_opened_once :
  forall (parseURL : string -> option Url.t) (stamp : nat -> string)
    (fsRejects : string -> bool) (site : string -> PageScript)
    (outDir main startUrl : string) (maxPages : nat),
    (forall s,
       Reachable parseURL stamp fsRejects site outDir main maxPages startUrl s ->
       NoDup (openedUrls (trace s))
       /\ (forall url, In url (openedUrls (trace s)) <-> url ∈ visited s)
       /\ closedPages (trace s) = length (openedUrls (trace s)))
    /\ (forall closing dirRejects fuel sfin o,
          crawl parseURL stamp fsRejects site closing dirRejects startUrl outDir
            maxPages fuel
          = Some (sfin, o) ->
          closedPages (trace sfin) = length (openedUrls (trace sfin))
          /\ length (openedUrls (trace sfin)) <= maxPages).
Proof.
  intros parseURL stamp fsRejects site outDir main startUrl maxPages.
  assert (A : forall main s,
             Reachable parseURL stamp fsRejects site outDir main maxPages startUrl s ->
             pagesAccounted s).
  { intros m s R. unfold Reachable in R.
    apply rtc_ind_r with (x := initialSession startUrl) (P := pagesAccounted) in R;
      [exact R | |].
    - split; [constructor|]. split; [|reflexivity].
      intros url. simpl. split; [tauto|]. intros H. apply elem_of_empty in H. exact H.
    - intros a b _ St Ia. eapply step_accounted; eassumption. }
  split; [apply A|].
  intros closing dirRejects fuel sfin o C.
  destruct (crawl_reachable _ _ _ _ _ _ _ _ _ _ _ _ C) as [m R].
  destruct (A m sfin R) as (N & M & Cl). split; [exact Cl|].
  pose proof (reachable_budget _ _ _ _ _ _ _ _ _ R) as B.
  assert (L : length (openedUrls (trace sfin)) = size (visited sfin)).
  { replace (visited sfin) with (list_to_set (openedUrls (trace sfin)) : gset string).
    - symmetry. apply size_list_to_set. exact N.
    - apply set_eq. intros x. rewrite elem_of_list_to_set, <- M. apply list_elem_of_In. }
  lia.
Qed.

(** ** The origin of the URLs that are queued *)

Section Origin.

Variable parseURL : string -> option Url.t.
Variable stamp : nat -> string.
Variable fsRejects : string -> bool.
Variable site : string -> PageScript.
Variable outDir mainSiteHostname : string.
Variable maxPages : nat.

Lemma sameOriginText_trans (a b c : string) :
  sameOriginText parseURL a b -> sameOriginText parseURL b c -> sameOriginText parseURL a c.
Proof.
  intros (ua & ub & Ha & Hb & E1) (ub' & uc & Hb' & Hc & E2).
  exists ua, uc. split; [exact Ha|]. split; [exact Hc|]. congruence.
Qed.

Lemma queuesFrom_refl (url : string) (s : Session) : queuesFrom parseURL url s s.
Proof.
  split; [reflexivity|]. exists []. split; [symmetry; apply app_nil_r | constructor].
Qed.

Lemma queuesFrom_trans (url : string) (s1 s2 s3 : Session) :
  queuesFrom parseURL url s1 s2 -> queuesFrom parseURL url s2 s3 ->
  queuesFrom parseURL url s1 s3.
Proof.
  intros (V1 & n1 & E1 & F1) (V2 & n2 & E2 & F2). split; [congruence|].
  exists (n1 ++ n2). split.
  - rewrite E2, E1. symmetry. apply app_assoc.
  - apply Forall_app. split; assumption.
Qed.

Lemma queuesFrom_of_course (url : string) (s s' : Session) :
  course s' = course s -> queuesFrom parseURL url s s'.
Proof.
  unfold course. intros C. injection C as Ct Cv _. split; [exact Cv|].
  exists []. rewrite app_nil_r. split; [exact Ct | constructor].
Qed.

Lemma onResponse_queuesFrom (url : string) (r : Response) :
  respects (queuesFrom parseURL url)
    (onResponse parseURL stamp fsRejects outDir mainSiteHostname r).
Proof.
  intros s. destruct (onResponse_run parseURL stamp fsRejects outDir mainSiteHostname r s)
    as (s' & E & _ & C & _).
  rewrite E. apply queuesFrom_of_course, C.
Qed.

Lemma emit_queuesFrom (url : string) (e : Event) :
  respects (queuesFrom parseURL url) (emit e).
Proof.
  intros s. split; [reflexivity|]. exists [].
  split; [symmetry; apply app_nil_r | constructor].
Qed.

Lemma drainOne_queuesFrom (url : string) (entry : string * Response) :
  respects (queuesFrom parseURL url) (drainOne parseURL fsRejects outDir entry).
Proof.
  intros s. destruct (drainOne_run parseURL fsRejects outDir entry s)
    as (s' & E & _ & _ & _ & T & V & _).
  rewrite E. split; [exact V|]. exists []. rewrite app_nil_r. split; [exact T | constructor].
Qed.

Lemma clear_queuesFrom (url : string) (s : Session) :
  queuesFrom parseURL url s (setPending [] s).
Proof.
  split; [reflexivity|]. exists []. split; [symmetry; apply app_nil_r | constructor].
Qed.

Lemma harvest_queuesFrom (url : string) (links : list string) :
  respects (queuesFrom parseURL url) (harvestLinks parseURL url links).
Proof.
  unfold harvestLinks. intros s. unfold bind at 1, lift at 1.
  destruct (parseURL url) as [u|] eqn:U; [|apply queuesFrom_refl].
  revert s. apply respects_forEach; [apply queuesFrom_refl | apply queuesFrom_trans |].
  intros href.
  apply respects_tryCatch;
    [apply queuesFrom_trans | | intros; apply respects_ret, queuesFrom_refl].
  intros s. unfold bind at 1, lift at 1.
  destruct (parseURL href) as [uh|] eqn:Uh; [|apply queuesFrom_refl].
  unfold bind, get.
  destruct (String.eqb (Url.origin uh) (Url.origin u) && negb (has (visited s) href)) eqn:K;
    [|apply queuesFrom_refl].
  simpl. split; [reflexivity|]. exists [href]. split; [reflexivity|].
  constructor; [|constructor].
  apply andb_true_iff in K as [K _]. apply String.eqb_eq in K.
  exists u, uh. auto.
Qed.

Lemma step_onOrigin (startUrl : string) (s s' : Session) :
  Step parseURL stamp fsRejects site outDir mainSiteHostname maxPages s s' ->
  onOrigin parseURL startUrl s -> onOrigin parseURL startUrl s'.
Proof.
  assert (Q : forall url a b, queuesFrom parseURL url a b -> toVisit b = toVisit a ->
                onOrigin parseURL startUrl a -> onOrigin parseURL startUrl b).
  { intros url a b (V & _) T [F M]. split; [rewrite T; exact F | rewrite V; exact M]. }
  intros [s0|r s0|q s0|s0 C|closing s0 C].
  - intros [F M]. split; [exact F | exact M].
  - destruct (onResponse_run parseURL stamp fsRejects outDir mainSiteHostname r s0)
      as (s1 & E & _ & Cs & _).
    rewrite E. simpl. apply (Q startUrl); [apply queuesFrom_of_course, Cs|].
    unfold course in Cs. congruence.
  - destruct (onRoute_run parseURL fsRejects outDir mainSiteHostname q s0) as (_ & Cs & _).
    apply (Q startUrl); [apply queuesFrom_of_course, Cs|].
    unfold course in Cs. congruence.
  - rewrite loopBody_unfold.
    destruct (toVisit s0) as [|url rest] eqn:H; [tauto|].
    intros [F M]. rewrite H in F. apply Forall_cons in F as [Fu Fr].
    destruct (String.eqb url "" || has (visited s0) url) eqn:K;
      [split; [exact Fr | exact M]|].
    simpl fst.
    destruct (visitPage_respects parseURL stamp fsRejects outDir mainSiteHostname maxPages
                (queuesFrom parseURL url) (queuesFrom_refl url) (queuesFrom_trans url)
                (onResponse_queuesFrom url) (fun e _ => emit_queuesFrom url e)
                (drainOne_queuesFrom url) (clear_queuesFrom url) (site url) url
                (fun links st _ => harvest_queuesFrom url links st)
                (addEvent (NewPage url) (addVisited url (setToVisit rest s0))))
      as (V & new & E & Fn).
    split.
    + simpl toVisit. rewrite E. simpl toVisit. apply Forall_app. split; [exact Fr|].
      eapply Forall_impl; [exact Fn|]. intros h Hh. eapply sameOriginText_trans; eassumption.
    + simpl visited. rewrite V. simpl visited. intros x Hx.
      apply elem_of_union in Hx as [Hx|Hx]; [|apply M, Hx].
      apply elem_of_singleton in Hx. subst x. exact Fu.
  - intros [F M].
    destruct (teardown_respects parseURL stamp fsRejects outDir mainSiteHostname
                (queuesFrom parseURL startUrl) (queuesFrom_refl startUrl)
                (queuesFrom_trans startUrl) (onResponse_queuesFrom startUrl)
                (fun e _ => emit_queuesFrom startUrl e) (drainOne_queuesFrom startUrl)
                (clear_queuesFrom startUrl) closing s0) as (V & new & E & Fn).
    split; [rewrite E; apply Forall_app; split; assumption | rewrite V; exact M].
Qed.

End Origin.

(** X18: every URL in the queue or in the visited set of a reachable
    state parses, and the [origin] of its URL object is the same string as that
    of the start URL: this is the test of line 437.  The test compares origins
    as they are serialised.  Every opaque origin is serialised as [null], so
    that the test does not tell such origins apart: a crawl started from a
    [file:] URL queues the [mailto:] and [data:] links of its page, and not its
    [https:] link. *)
Theorem X18_queued_urls_have_the_origin_text_of_the_start_url :
  (forall (parseURL : string -> option Url.t) (stamp : nat -> string)
     (fsRejects : string -> bool) (site : string -> PageScript)
     (outDir main startUrl : string) (maxPages : nat) (u : Url.t) (s : Session)
     (url : string),
     parseURL startUrl = Some u ->
     Reachable parseURL stamp fsRejects site outDir main maxPages startUrl s ->
     In url (toVisit s) \/ url ∈ visited s ->
     exists u', parseURL url = Some u' /\ Url.origin u' = Url.origin u)
  /\ (Reachable Url.parse Demo.stamp Demo.accept Demo.localPage "out" "" 2
        "file:///srv/index.html" afterLocal
      /\ anchors (Demo.localPage "file:///srv/index.html")
         = Done ["mailto:me@a.com"; "https://a.com/"; "data:text/html,hello"]
      /\ toVisit afterLocal = ["mailto:me@a.com"; "data:text/html,hello"]
      /\ map (fun h => option_map Url.origin (Url.parse h))
           ["file:///srv/index.html"; "mailto:me@a.com"; "data:text/html,hello";
            "https://a.com/"]
         = [Some "null"; Some "null"; Some "null"; Some "https://a.com"]).
Proof.
  split.
  - intros parseURL stamp fsRejects site outDir main startUrl maxPages u s url P R Hin.
    assert (I : onOrigin parseURL startUrl s).
    { unfold Reachable in R.
      apply rtc_ind_r with (x := initialSession startUrl)
        (P := onOrigin parseURL startUrl) in R; [exact R | |].
      - split.
        + constructor; [|constructor]. exists u, u. auto.
        + intros x Hx. apply elem_of_empty in Hx. destruct Hx.
      - intros a b _ St Ia. eapply step_onOrigin; eassumption. }
    destruct I as [F M].
    assert (S : sameOriginText parseURL startUrl url).
    { destruct Hin as [Hin|Hin]; [|apply M, Hin].
      rewrite Forall_forall in F. apply F. apply list_elem_of_In. exact Hin. }
    destruct S as (ua & ub & Ha & Hb & E). exists ub. split; [exact Hb|]. congruence.
  - split; [|repeat split; vm_compute; reflexivity].
    apply rtc_once. apply StepLoop. vm_compute. reflexivity.
Qed.

Lemma X18_witness :
  exists u', Url.parse "https://a.com/b" = Some u'
             /\ Url.origin u' = "https://a.com".
Proof.
  apply (proj1 X18_queued_urls_have_the_origin_text_of_the_start_url Url.parse
           Demo.stamp Demo.accept Demo.twoLinks "out" "a.com" "https://a.com/" 3
           {| Url.hostname := "a.com"; Url.pathname := "/";
              Url.origin := "https://a.com" |} afterHome "https://a.com/b").
  - reflexivity.
  - apply rtc_once. apply StepLoop. vm_compute. reflexivity.
  - left. vm_compute. left. reflexivity.
Defined.

(** ** A URL marked saved has a file *)

Section Marks.

Variable parseURL : string -> option Url.t.
Variable stamp : nat -> string.
Variable fsRejects : string -> bool.
Variable site : string -> PageScript.
Variable outDir mainSiteHostname : string.
Variable maxPages : nat.

Lemma marks_refl (s : Session) : marks parseURL outDir s s.
Proof.
  exists []. split; [symmetry; apply app_nil_r|]. intros url H. left. exact H.
Qed.

Lemma marks_trans (s1 s2 s3 : Session) :
  marks parseURL outDir s1 s2 -> marks parseURL outDir s2 s3 ->
  marks parseURL outDir s1 s3.
Proof.
  intros (n1 & E1 & M1) (n2 & E2 & M2). exists (n1 ++ n2). split.
  - rewrite E2, E1. symmetry. apply app_assoc.
  - intros url H. destruct (M2 url H) as [H2|(pb & Hin & Hw)].
    + destruct (M1 url H2) as [H1|(pb & Hin & Hw)]; [left; exact H1|].
      right. exists pb. split; [apply in_or_app; left; exact Hin | exact Hw].
    + right. exists pb. split; [apply in_or_app; right; exact Hin | exact Hw].
Qed.

Lemma marks_same (s s' : Session) :
  files s' = files s -> saved s' = saved s -> marks parseURL outDir s s'.
Proof.
  intros F S. exists []. rewrite app_nil_r. split; [exact F|].
  intros url H. left. rewrite <- S. exact H.
Qed.

Lemma marks_grows (P : string * Buffer -> Prop) (s s' : Session) :
  grows P s s' -> saved s' = saved s -> marks parseURL outDir s s'.
Proof.
  intros (new & E & _) S. exists new. split; [exact E|].
  intros url H. left. rewrite <- S. exact H.
Qed.

Lemma marks_one (s : Session) (url path : string) (body : Buffer) :
  writtenFor parseURL outDir url (path, body) ->
  marks parseURL outDir s (addSaved url (addFile path body s)).
Proof.
  intros Hw. exists [(path, body)]. split; [reflexivity|].
  intros x Hx. simpl in Hx. apply elem_of_union in Hx as [Hx|Hx]; [|left; exact Hx].
  apply elem_of_singleton in Hx. subst x. right.
  exists (path, body). split; [left; reflexivity | exact Hw].
Qed.

Lemma marks_keeps (s s' : Session) :
  marks parseURL outDir s s' ->
  savedAreWritten parseURL outDir s -> savedAreWritten parseURL outDir s'.
Proof.
  intros (new & E & M) I url H. destruct (M url H) as [H0|(pb & Hin & Hw)].
  - destruct (I url H0) as (pb & Hin & Hw). exists pb.
    split; [rewrite E; apply in_or_app; left; exact Hin | exact Hw].
  - exists pb. split; [rewrite E; apply in_or_app; right; exact Hin | exact Hw].
Qed.

Lemma saveWasmNow_marks (url : string) (body : BodyRead) :
  respects (marks parseURL outDir)
    (saveWasmNow parseURL fsRejects outDir mainSiteHostname url body).
Proof.
  intros s. unfold saveWasmNow, bind, lift, modify.
  destruct (readBody body) as [b|e]; simpl; [|apply marks_refl].
  destruct (0 <? length b); simpl; [|apply marks_refl].
  destruct (targetPathFor parseURL url outDir (Some ".wasm") (Some "application/wasm")
              (Some mainSiteHostname)) as [filePath|e] eqn:T; simpl; [|apply marks_refl].
  unfold saveBuffer. destruct (fsRejects filePath); simpl; [apply marks_refl|].
  apply marks_one. right. exists (Some mainSiteHostname), ".wasm", (Some "application/wasm").
  split; [right; reflexivity | exact T].
Qed.

Lemma onResponse_marks (r : Response) :
  respects (marks parseURL outDir)
    (onResponse parseURL stamp fsRejects outDir mainSiteHostname r).
Proof.
  intros s. unfold onResponse. rewrite tryCatch_ret_fst. unfold bind at 1. unfold get at 1.
  destruct (String.eqb (r_url r) "" || has (saved s) (r_url r)); [apply marks_refl|].
  destruct (shouldProcessOf r) eqn:P; [|apply marks_refl]. cbn [negb].
  destruct (isLikelyWasmByHeuristics (contentTypeOf r) (r_url r)) eqn:W.
  - unfold tryCatch.
    pose proof (saveWasmNow_marks (r_url r) (r_body r) s) as G.
    destruct (saveWasmNow _ _ _ _ _ _ s) as [s1 [[]|e]]; simpl in *; [exact G|].
    eapply marks_trans; [exact G|]. apply marks_same; reflexivity.
  - destruct (r_body r) as [body|e]; [|apply marks_refl].
    destruct (length body =? 0); [apply marks_refl|].
    pose proof (defaultExt_past_gate r body
                  (isJsByContentOf body (isWasmByMagic body)) P) as X.
    rewrite W in X. rewrite X. clear X. cbn [orb].
    assert (He : exists ext, isClassExt ext
                   /\ (if isWasmByMagic body then Some ".wasm" else Some ".js") = Some ext).
    { destruct (isWasmByMagic body); eexists; (split; [|reflexivity]);
        [right | left]; reflexivity. }
    destruct He as (ext & He & ->). simpl default.
    assert (Tail : forall s1 path,
              writtenFor parseURL outDir (r_url r) (path, body) ->
              files s1 = files s -> saved s1 = saved s ->
              marks parseURL outDir s
                (fst ((modify (addSaved (r_url r)) ;;;
                       if (Js.eqOpt (Some ext) ".js"
                           || isLikelyJsByHeuristics (contentTypeOf r) (r_url r))
                          && (0 <? length body)
                       then extractInlineWasm stamp fsRejects outDir body
                       else ret tt) (addFile path body s1)))).
    { intros s1 path Hw F1 S1. unfold bind at 1, modify at 1.
      assert (G1 : marks parseURL outDir s (addSaved (r_url r) (addFile path body s1))).
      { exists [(path, body)]. split; [simpl; rewrite F1; reflexivity|].
        intros x Hx. simpl in Hx. rewrite S1 in Hx.
        apply elem_of_union in Hx as [Hx|Hx]; [|left; exact Hx].
        apply elem_of_singleton in Hx. subst x. right.
        exists (path, body). split; [left; reflexivity | exact Hw]. }
      destruct (_ && _); [|exact G1].
      match goal with
      | |- context [extractInlineWasm _ _ _ ?b ?st] =>
          destruct (extract_run stamp fsRejects outDir b st) as (s2 & E2 & G2 & _ & S2 & _)
      end.
      rewrite E2. eapply marks_trans; [exact G1|]. eapply marks_grows; eassumption. }
    unfold bind at 1.
    destruct (Js.startsWith (r_url r) "data:") eqn:D.
    + unfold bind at 1, freshStamp, ret at 1. unfold bind at 1, saveBuffer at 1.
      destruct (fsRejects _) eqn:R; [apply marks_same; reflexivity|].
      apply (Tail (addDraw s)
               (Path.join [outDir; "inline/" +:+ stamp (draws s) +:+ ext]));
        [|reflexivity|reflexivity].
      left. split; [exact D|]. exists (stamp (draws s)), ext. split; [exact He | reflexivity].
    + unfold lift at 1.
      destruct (targetPathFor parseURL (r_url r) outDir (Some ext) (contentTypeOf r)
                  (Some mainSiteHostname)) as [filePath|e] eqn:T; [|apply marks_refl].
      unfold bind at 1, saveBuffer at 1.
      destruct (fsRejects filePath) eqn:R; [apply marks_refl|].
      apply (Tail s filePath); [|reflexivity|reflexivity].
      right. exists (Some mainSiteHostname), ext, (contentTypeOf r). split; [exact He | exact T].
Qed.

Lemma onRoute_marks (q : Route) :
  respects (marks parseURL outDir)
    (onRoute parseURL fsRejects outDir mainSiteHostname q).
Proof.
  intros s. unfold onRoute. cbv zeta.
  destruct (Js.includes (q_url q) "compile" && Js.includes (q_url q) "wasi"
            && Js.includes (q_url q) "target=arduino"); [|apply marks_refl].
  destruct (q_fetch q) as [ok body|e]; [|apply marks_refl].
  unfold bind, tryCatch, ret, throw. destruct ok.
  - pose proof (saveWasmNow_marks (q_url q) body s) as G.
    destruct (saveWasmNow _ _ _ _ _ _ s) as [s1 [[]|e]]; simpl in G;
      destruct (q_fulfillThrows q); exact G.
  - destruct (q_fulfillThrows q); apply marks_refl.
Qed.

Lemma drainOne_marks (entry : string * Response) :
  respects (marks parseURL outDir) (drainOne parseURL fsRejects outDir entry).
Proof.
  intros s. destruct (drainOne_run parseURL fsRejects outDir entry s)
    as (s' & E & F & _ & S & _).
  rewrite E. simpl. exists (drainedFile parseURL fsRejects outDir entry).
  split; [exact F|]. intros url H. rewrite S in H.
  apply elem_of_union in H as [H|H]; [|left; exact H]. right.
  pose proof (drainedFile_classified parseURL fsRejects outDir entry) as C.
  unfold drainedUrl in H.
  destruct (drainedFile parseURL fsRejects outDir entry) as [|pb l];
    [apply elem_of_empty in H; destruct H|].
  apply elem_of_singleton in H. subst url.
  exists pb. split; [left; reflexivity|]. right. exists None.
  apply Forall_cons in C as [C _]. exact C.
Qed.

Lemma emit_marks (e : Event) : respects (marks parseURL outDir) (emit e).
Proof. intros s. apply marks_same; reflexivity. Qed.

Lemma clear_marks (s : Session) : marks parseURL outDir s (setPending [] s).
Proof. apply marks_same; reflexivity. Qed.

Lemma step_marks (s s' : Session) :
  Step parseURL stamp fsRejects site outDir mainSiteHostname maxPages s s' ->
  marks parseURL outDir s s'.
Proof.
  intros [s0|r s0|q s0|s0 C|closing s0 C].
  - apply marks_same; reflexivity.
  - apply onResponse_marks.
  - apply onRoute_marks.
  - rewrite loopBody_unfold.
    destruct (toVisit s0) as [|url rest]; [apply marks_refl|].
    destruct (String.eqb url "" || has (visited s0) url);
      [apply marks_same; reflexivity|].
    simpl fst.
    pose proof (visitPage_respects parseURL stamp fsRejects outDir mainSiteHostname maxPages
                  (marks parseURL outDir) marks_refl marks_trans onResponse_marks
                  (fun e _ => emit_marks e) drainOne_marks clear_marks (site url) url)
      as V.
    eapply marks_trans; [|eapply marks_trans; [apply V|]].
    + apply (marks_same s0 (addEvent (NewPage url) (addVisited url (setToVisit rest s0))));
        reflexivity.
    + intros links st _.
      destruct (harvestLinks_sameButQueue parseURL url links st) as (_ & S & _ & F & _).
      apply marks_same; assumption.
    + apply marks_same; reflexivity.
  - apply (teardown_respects parseURL stamp fsRejects outDir mainSiteHostname
             (marks parseURL outDir) marks_refl marks_trans onResponse_marks
             (fun e _ => emit_marks e) drainOne_marks clear_marks closing s0).
Qed.

End Marks.

(** X19: a URL in [saved] has a file: in every reachable state, for each
    saved URL a file was written at a path resolved from that URL, or at a
    synthetic [inline/] path when it is a [data:] URL. *)
Theorem X19_every_saved_url_has_a_file :
  forall (parseURL : string -> option Url.t) (stamp : nat -> string)
    (fsRejects : string -> bool) (site : string -> PageScript)
    (outDir main startUrl : string) (maxPages : nat) (s : Session) (url : string),
    Reachable parseURL stamp fsRejects site outDir main maxPages startUrl s ->
    url ∈ saved s ->
    exists pb, In pb (files s) /\ writtenFor parseURL outDir url pb.
Proof.
  intros parseURL stamp fsRejects site outDir main startUrl maxPages s url R.
  unfold Reachable in R.
  apply rtc_ind_r with (x := initialSession startUrl)
    (P := savedAreWritten parseURL outDir) in R; [apply R | |].
  - intros x Hx. apply elem_of_empty in Hx. destruct Hx.
  - intros a b _ St Ia. eapply marks_keeps; [|exact Ia]. eapply step_marks. exact St.
Qed.

Lemma X19_witness :
  exists pb, In pb (files afterScript)
             /\ writtenFor Url.parse "out" "https://cdn.b.com/x.js" pb.
Proof.
  apply (X19_every_saved_url_has_a_file Url.parse Demo.stamp Demo.accept Demo.offline
           "out" "a.com" "https://a.com/" 1 afterScript "https://cdn.b.com/x.js").
  - apply rtc_once. apply StepResponse.
  - assert (K : has (saved afterScript) "https://cdn.b.com/x.js" = true)
      by (vm_compute; reflexivity).
    unfold has in K. apply bool_decide_eq_true in K. exact K.
Defined.

(** ** The last page of the budget *)

Section Budget.

Variable parseURL : string -> option Url.t.
Variable stamp : nat -> string.
Variable fsRejects : string -> bool.
Variable site : string -> PageScript.
Variable outDir mainSiteHostname : string.
Variable maxPages : nat.

Lemma budgetSpent_refl (s : Session) : budgetSpent maxPages s s.
Proof. split; reflexivity. Qed.

Lemma budgetSpent_trans (s1 s2 s3 : Session) :
  budgetSpent maxPages s1 s2 -> budgetSpent maxPages s2 s3 -> budgetSpent maxPages s1 s3.
Proof.
  intros [V1 T1] [V2 T2]. split; [congruence|].
  intros B. rewrite T2, T1; [reflexivity | exact B | rewrite V1; exact B].
Qed.

Lemma budgetSpent_of_course (s s' : Session) :
  course s' = course s -> budgetSpent maxPages s s'.
Proof.
  unfold course. intros C. injection C as Ct Cv _. split; [exact Cv | intros _; exact Ct].
Qed.

Lemma visitPage_budgetSpent (page : PageScript) (url : string) :
  respects (budgetSpent maxPages)
    (visitPage parseURL stamp fsRejects outDir mainSiteHostname maxPages page url).
Proof.
  apply visitPage_respects.
  - apply budgetSpent_refl.
  - apply budgetSpent_trans.
  - intros r s.
    destruct (onResponse_run parseURL stamp fsRejects outDir mainSiteHostname r s)
      as (s' & E & _ & C & _).
    rewrite E. apply budgetSpent_of_course, C.
  - intros e _ s. split; reflexivity.
  - intros entry s. destruct (drainOne_run parseURL fsRejects outDir entry s)
      as (s' & E & _ & _ & _ & T & V & _).
    rewrite E. split; [exact V | intros _; exact T].
  - intros s. split; reflexivity.
  - intros links st B.
    destruct (harvestLinks_sameButQueue parseURL url links st) as (V & _).
    split; [exact V | lia].
Qed.

End Budget.

(** X20: the page that exhausts the budget is not harvested: when a
    visit brings the number of visited URLs to [maxPages], no link of the page
    is queued.  With [maxPages = 1], the default, no link is ever followed. *)
Theorem X20_last_page_of_the_budget_is_not_harvested :
  forall (parseURL : string -> option Url.t) (stamp : nat -> string)
    (fsRejects : string -> bool) (site : string -> PageScript)
    (outDir main : string) (maxPages : nat) (s : Session) (url : string)
    (rest : list string),
    toVisit s = url :: rest ->
    String.eqb url "" || has (visited s) url = false ->
    maxPages <= size (visited s) + 1 ->
    exists s',
      loopBody parseURL stamp fsRejects site outDir main maxPages s = (s', Done tt)
      /\ toVisit s' = rest /\ visited s' = {[url]} ∪ visited s.
Proof.
  intros parseURL stamp fsRejects site outDir main maxPages s url rest H K B.
  rewrite loopBody_unfold, H, K. eexists. split; [reflexivity|].
  destruct (visitPage_budgetSpent parseURL stamp fsRejects outDir main maxPages
              (site url) url
              (addEvent (NewPage url) (addVisited url (setToVisit rest s)))) as [V T].
  simpl toVisit. simpl visited. rewrite V, T; [split; reflexivity|].
  simpl visited. apply orb_false_iff in K as [_ K]. unfold has in K.
  apply bool_decide_eq_false in K.
  rewrite size_union by (apply disjoint_singleton_l; exact K).
  rewrite size_singleton. lia.
Qed.

Lemma X20_witness :
  toVisit afterOnlyPage = [] /\ anchors (Demo.twoLinks "https://a.com/") 
                                = Done ["https://a.com/b"; "https://a.com/b"].
Proof.
  split; [|reflexivity].
  destruct (X20_last_page_of_the_budget_is_not_harvested Url.parse Demo.stamp Demo.accept
              Demo.twoLinks "out" "a.com" 1 Demo.start "https://a.com/" [])
    as (s' & E & T & _).
  - reflexivity.
  - vm_compute. reflexivity.
  - change (visited Demo.start) with (∅ : gset string). rewrite size_empty. lia.
  - unfold afterOnlyPage. rewrite E. exact T.
Defined.

(** ** A visit that loads *)








Section Arrivals.

Variable parseURL : string -> option Url.t.
Variable stamp : nat -> string.
Variable fsRejects : string -> bool.
Variable outDir mainSiteHostname : string.





End Arrivals.



(** ** The exception a crawl can end with *)

